(** * tips-app: the x402 payment coordination layer

    A shallow embedding of the tip route ([src/app/api/tip/route.ts]), the
    server configuration ([src/lib/x402.ts]), the name resolver
    ([src/lib/ens.ts]) and the client payment hook ([src/hooks/usePayment.ts]),
    together with the fragment of the JavaScript platform these files rely on
    (strings, truthiness, [parseFloat], [JSON], base64 buffers).

    Around these, the development embeds the requirements hook
    ([src/hooks/usePaymentRequirements.ts]), the parts of the tip form that
    choose a requirement and report a payment ([src/components/TipForm.tsx]),
    the resolvers of the tip page ([src/app/[recipient]/page.tsx]), the
    supported-networks route ([src/app/api/supported/route.ts]) and the
    query string that carries a request from the hooks to the route.

    Conventions.
    - A JavaScript string is modelled by the bytes of its UTF-8 encoding
      ([string]); [Buffer.from(s)] and [buf.toString()] are therefore the
      identity on the model.  Strings holding lone surrogates are outside
      the model, and bytes that are not valid UTF-8 (in a decoded header or
      a percent-decoded query) are kept as they are, where the platform
      would put U+FFFD.  [toLowerCase] acts on the ASCII letters.
    - An object is the list of its properties in insertion order; keys that
      are array indices, which JavaScript lists first, are outside the
      model.
    - External collaborators (facilitator, quote sources, name service,
      the escrow library's [preprocessSwapPayload]) are fields of an
      environment record; every call to one is recorded in a trace.
    - An [async] function is a computation in a monad of state and
      exceptions; [await] is sequencing.  The two promises given to
      [Promise.allSettled] are started in the order of the array, the first
      up to the [await] at which it hands control back; the calls to the
      collaborators are recorded in the order in which they are made.
    - A number is the decimal it denotes, held exactly; the rounding of
      double-precision arithmetic is outside the model.
    - Platform functions whose results the properties do not look into
      (the text of a number, the chain registry, the records of a name)
      are variables of the section that uses them.
    - Console output is not modelled. *)

From Stdlib Require Import Bool List String Ascii ZArith NArith Lia.
From Stdlib Require Import DecimalString DecimalN.
Import ListNotations.

Set Warnings "-register-all".

Local Open Scope string_scope.
Local Open Scope Z_scope.

(* ===================================================================== *)
(** ** JavaScript strings and values *)
(* ===================================================================== *)

Module JS.

(** [String.prototype.toLowerCase], on the ASCII letters.  Bytes outside
    [A-Z] are left as they are (token addresses are hexadecimal ASCII). *)
Definition lower_ascii (c : ascii) : ascii :=
  let n := nat_of_ascii c in
  if (Nat.leb 65 n && Nat.leb n 90)%bool then ascii_of_nat (n + 32) else c.

Fixpoint toLowerCase (s : string) : string :=
  match s with
  | EmptyString => EmptyString
  | String c r => String (lower_ascii c) (toLowerCase r)
  end.

(** Strict equality [===] on two strings. *)
Definition str_eqb (a b : string) : bool := String.eqb a b.

(** A string is truthy unless it is empty. *)
Definition str_truthy (s : string) : bool := negb (String.eqb s "").

(** [a || d] for an optional string [a] ([None] is [undefined]) and a string
    default [d]. *)
Definition or_default (o : option string) (d : string) : string :=
  match o with
  | Some s => if str_truthy s then s else d
  | None => d
  end.

(** JavaScript values as far as JSON reaches, plus [undefined].  A number
    is the decimal [m * 10^e]; an object is its list of properties in
    insertion order. *)
Inductive value : Type :=
| VUndefined
| VNull
| VBool (b : bool)
| VNum (m e : Z)
| VStr (s : string)
| VArr (items : list value)
| VObj (props : list (string * value)).

(** Property lookup [o.k] on an object's property list. *)
Fixpoint lookup (k : string) (props : list (string * value)) : value :=
  match props with
  | [] => VUndefined
  | (k', v) :: rest => if String.eqb k k' then v else lookup k rest
  end.

(** [v?.k]: [undefined] on [null], [undefined] and on values that carry no
    such property. *)
Definition get_opt (k : string) (v : value) : value :=
  match v with
  | VObj props => lookup k props
  | _ => VUndefined
  end.

(** A double is zero after rounding iff the decimal is at most [2^-1075]
    in magnitude (the midpoint between 0 and the least subnormal, which
    rounds to even, that is to 0). *)
Definition rounds_to_zero (m e : Z) : bool :=
  if Z.eqb m 0 then true
  else if Z.leb 0 e then false
  else Z.leb (Z.abs m * 2 ^ 1075) (10 ^ (- e)).

(** [ToBoolean]. *)
Definition truthy (v : value) : bool :=
  match v with
  | VUndefined | VNull => false
  | VBool b => b
  | VNum m e => negb (rounds_to_zero m e)
  | VStr s => str_truthy s
  | VArr _ | VObj _ => true
  end.

(** Character constants. *)
Definition dquote : ascii := ascii_of_nat 34.
Definition backslash : ascii := ascii_of_nat 92.

Definition is_digit (c : ascii) : bool :=
  let n := nat_of_ascii c in (Nat.leb 48 n && Nat.leb n 57)%bool.

(** The longest prefix of decimal digits, and what follows it. *)
Fixpoint span_digits (s : string) : string * string :=
  match s with
  | EmptyString => (EmptyString, EmptyString)
  | String c r =>
      if is_digit c
      then let (ds, rest) := span_digits r in (String c ds, rest)
      else (EmptyString, s)
  end.

(** The number a string of decimal digits denotes (leading zeros allowed). *)
Definition digits_value (ds : string) : Z :=
  match NilZero.uint_of_string ds with
  | Some d => Z.of_N (N.of_uint d)
  | None => 0
  end.

(** [s.startsWith(p)]. *)
Fixpoint startsWith (p s : string) : bool :=
  match p with
  | EmptyString => true
  | String a p' =>
      match s with
      | EmptyString => false
      | String b s' => (Ascii.eqb a b && startsWith p' s')%bool
      end
  end.

(** *** Numbers read from text: [parseFloat] *)

(** What [parseFloat] returns, as far as the route looks at it: not a
    number, an infinity, or the decimal [m * 10^e] with its sign ([m] is
    not negative). *)
Inductive number : Type :=
| NaN
| Infinity (neg : bool)
| Finite (neg : bool) (m e : Z).

(** [StrWhiteSpaceChar] in UTF-8: TAB, LF, VT, FF, CR, SP; U+00A0;
    U+1680, U+2000-U+200A, U+2028, U+2029, U+202F, U+205F, U+3000, U+FEFF. *)
Definition ws1 (x : nat) : bool :=
  ((Nat.leb 9 x && Nat.leb x 13) || Nat.eqb x 32)%bool.

Definition ws3 (x y z : nat) : bool :=
  ((Nat.eqb x 225 && Nat.eqb y 154 && Nat.eqb z 128)
   || (Nat.eqb x 226 && Nat.eqb y 128
       && ((Nat.leb 128 z && Nat.leb z 138) || Nat.eqb z 168
           || Nat.eqb z 169 || Nat.eqb z 175))
   || (Nat.eqb x 226 && Nat.eqb y 129 && Nat.eqb z 159)
   || (Nat.eqb x 227 && Nat.eqb y 128 && Nat.eqb z 128)
   || (Nat.eqb x 239 && Nat.eqb y 187 && Nat.eqb z 191))%bool.

Fixpoint trimStart (s : string) : string :=
  match s with
  | EmptyString => s
  | String a r =>
      let x := nat_of_ascii a in
      if ws1 x then trimStart r
      else
        match r with
        | EmptyString => s
        | String b r2 =>
            let y := nat_of_ascii b in
            if (Nat.eqb x 194 && Nat.eqb y 160)%bool then trimStart r2
            else
              match r2 with
              | EmptyString => s
              | String c r3 =>
                  if ws3 x y (nat_of_ascii c) then trimStart r3 else s
              end
        end
  end.

(** The exponent part of a [StrDecimalLiteral]; when the letter [e] is not
    followed by digits the literal ends before it. *)
Definition float_exp (s : string) : Z :=
  match s with
  | String c r =>
      if (Ascii.eqb c "e"%char || Ascii.eqb c "E"%char)%bool then
        let (neg, r1) :=
          match r with
          | String sg r' =>
              if Ascii.eqb sg "-"%char then (true, r')
              else if Ascii.eqb sg "+"%char then (false, r')
              else (false, r)
          | EmptyString => (false, r)
          end in
        match span_digits r1 with
        | (EmptyString, _) => 0
        | (xs, _) => if neg then - digits_value xs else digits_value xs
        end
      else 0
  | EmptyString => 0
  end.

(** [parseFloat(s)]: the longest prefix of the trimmed string that is a
    [StrDecimalLiteral]; [NaN] when there is none. *)
Definition parseFloat (s : string) : number :=
  let t := trimStart s in
  let (neg, t1) :=
    match t with
    | String c r =>
        if Ascii.eqb c "-"%char then (true, r)
        else if Ascii.eqb c "+"%char then (false, r)
        else (false, t)
    | EmptyString => (false, t)
    end in
  if startsWith "Infinity" t1 then Infinity neg
  else
    let (ds, t2) := span_digits t1 in
    let (fs, t3) :=
      match t2 with
      | String c r =>
          if Ascii.eqb c "."%char then span_digits r else (EmptyString, t2)
      | EmptyString => (EmptyString, t2)
      end in
    match ds, fs with
    | EmptyString, EmptyString => NaN
    | _, _ =>
        Finite neg (digits_value (ds ++ fs))
               (float_exp t3 - Z.of_nat (String.length fs))
    end.

Definition isNaN (x : number) : bool :=
  match x with NaN => true | _ => false end.

(** [x <= 0] on the double that [x] rounds to. *)
Definition le_zero (x : number) : bool :=
  match x with
  | NaN => false
  | Infinity neg => neg
  | Finite neg m e => (neg || rounds_to_zero m e)%bool
  end.

(** *** The regular expressions of the application *)

Fixpoint all_chars (p : ascii -> bool) (s : string) : bool :=
  match s with
  | EmptyString => true
  | String c r => (p c && all_chars p r)%bool
  end.

(** [s.slice(n)] for [n] within the string. *)
Definition drop (n : nat) (s : string) : string :=
  substring n (String.length s - n) s.

(** [/^eip155:\d+$/]. *)
Definition matches_eip155 (s : string) : bool :=
  (startsWith "eip155:" s
   && negb (String.eqb (drop 7 s) EmptyString)
   && all_chars is_digit (drop 7 s))%bool.

Definition is_name_char (c : ascii) : bool :=
  let n := nat_of_ascii c in
  ((Nat.leb 97 n && Nat.leb n 122) || (Nat.leb 65 n && Nat.leb n 90)
   || (Nat.leb 48 n && Nat.leb n 57) || Nat.eqb n 45)%bool.

(** [/^[a-z0-9-]+$/i]. *)
Definition matches_label (s : string) : bool :=
  (negb (String.eqb s EmptyString) && all_chars is_name_char s)%bool.

(** [s.endsWith(suffix)]. *)
Definition endsWith (s suffix : string) : bool :=
  let n := String.length s in
  let k := String.length suffix in
  (Nat.leb k n && String.eqb (substring (n - k) k s) suffix)%bool.

End JS.

(* ===================================================================== *)
(** ** Shared types ([src/lib/types.ts]) *)
(* ===================================================================== *)

Module Types.

(** [PaymentRequirements]. *)
Record PaymentRequirements : Type := mkRequirements {
  scheme : string;
  network : string;
  asset : string;
  amount : string;
  payTo : string;
  maxTimeoutSeconds : Z;
  extra : JS.value
}.

(** [VerifyResponse]. *)
Record VerifyResponse : Type := mkVerify {
  isValid : bool;
  invalidReason : option string;
  payer : option string
}.

(** [SettleResponse]. *)
Record SettleResponse : Type := mkSettle {
  settle_success : bool;
  settle_transaction : option string;
  settle_network : option string;
  settle_errorReason : option string
}.

(** [PaymentResult]; an optional property is [None] when it is absent or
    [undefined]. *)
Record PaymentResult : Type := mkResult {
  success : bool;
  transaction : option string;
  result_network : option string;
  recipient : option string;
  result_amount : option string;
  message : option string;
  errorReason : option string
}.

End Types.

(* ===================================================================== *)
(** ** Buffers and base64 ([Buffer.from], [buf.toString]) *)
(* ===================================================================== *)

Module Base64.

(** The standard alphabet, used by [buf.toString("base64")]. *)
Definition char_of_sextet (n : N) : ascii :=
  if (n <? 26)%N then ascii_of_N (n + 65)
  else if (n <? 52)%N then ascii_of_N (n + 71)
  else if (n <? 62)%N then ascii_of_N (n - 4)
  else if (n =? 62)%N then ascii_of_N 43
  else ascii_of_N 47.

(** Node's decoding table: the standard and the URL-safe alphabet. *)
Definition unbase64 (c : ascii) : option N :=
  let n := N_of_ascii c in
  if ((65 <=? n) && (n <=? 90))%N%bool then Some (n - 65)%N
  else if ((97 <=? n) && (n <=? 122))%N%bool then Some (n - 71)%N
  else if ((48 <=? n) && (n <=? 57))%N%bool then Some (n + 4)%N
  else if ((n =? 43) || (n =? 45))%N%bool then Some 62%N
  else if ((n =? 47) || (n =? 95))%N%bool then Some 63%N
  else None.

Definition pad : ascii := ascii_of_nat 61.

(** [Buffer.from(s).toString("base64")]. *)
Fixpoint encode (s : string) : string :=
  match s with
  | EmptyString => EmptyString
  | String a EmptyString =>
      let x := N_of_ascii a in
      String (char_of_sextet (x / 4))
        (String (char_of_sextet ((x mod 4) * 16))
           (String pad (String pad EmptyString)))
  | String a (String b EmptyString) =>
      let x := N_of_ascii a in
      let y := N_of_ascii b in
      String (char_of_sextet (x / 4))
        (String (char_of_sextet ((x mod 4) * 16 + y / 16))
           (String (char_of_sextet ((y mod 16) * 4))
              (String pad EmptyString)))
  | String a (String b (String c rest)) =>
      let x := N_of_ascii a in
      let y := N_of_ascii b in
      let z := N_of_ascii c in
      String (char_of_sextet (x / 4))
        (String (char_of_sextet ((x mod 4) * 16 + y / 16))
           (String (char_of_sextet ((y mod 16) * 4 + z / 64))
              (String (char_of_sextet (z mod 64)) (encode rest))))
  end%N.

(** Node's decoder is lenient: characters outside both alphabets are
    skipped and the first [=] ends the input. *)
Fixpoint sextets (s : string) : list N :=
  match s with
  | EmptyString => []
  | String c r =>
      if Ascii.eqb c pad then []
      else match unbase64 c with
           | Some n => n :: sextets r
           | None => sextets r
           end
  end.

Fixpoint bytes_of_sextets (l : list N) : string :=
  match l with
  | s1 :: s2 :: s3 :: s4 :: rest =>
      String (ascii_of_N (s1 * 4 + s2 / 16))
        (String (ascii_of_N ((s2 mod 16) * 16 + s3 / 4))
           (String (ascii_of_N ((s3 mod 4) * 64 + s4))
              (bytes_of_sextets rest)))
  | [s1; s2; s3] =>
      String (ascii_of_N (s1 * 4 + s2 / 16))
        (String (ascii_of_N ((s2 mod 16) * 16 + s3 / 4)) EmptyString)
  | [s1; s2] => String (ascii_of_N (s1 * 4 + s2 / 16)) EmptyString
  | _ => EmptyString
  end%N.

(** [Buffer.from(s, "base64").toString()]. *)
Definition decode (s : string) : string := bytes_of_sextets (sextets s).

End Base64.

(* ===================================================================== *)
(** ** JSON ([JSON.parse], [JSON.stringify]) *)
(* ===================================================================== *)

Module JSON.
Import JS.

Inductive token : Type :=
| TLBrace | TRBrace | TLBracket | TRBracket | TColon | TComma
| TString (s : string)
| TNumber (m e : Z)
| TTrue | TFalse | TNull.

(** *** Reading *)

Definition is_ws (c : ascii) : bool :=
  let n := nat_of_ascii c in
  (Nat.eqb n 32 || Nat.eqb n 9 || Nat.eqb n 10 || Nat.eqb n 13)%bool.

Definition hex_val (c : ascii) : option N :=
  let n := N_of_ascii c in
  if ((48 <=? n) && (n <=? 57))%N%bool then Some (n - 48)%N
  else if ((97 <=? n) && (n <=? 102))%N%bool then Some (n - 87)%N
  else if ((65 <=? n) && (n <=? 70))%N%bool then Some (n - 55)%N
  else None.

Definition hex4 (s : string) : option (N * string) :=
  match s with
  | String a (String b (String c (String d r))) =>
      match hex_val a, hex_val b, hex_val c, hex_val d with
      | Some x, Some y, Some z, Some w =>
          Some ((((x * 16 + y) * 16 + z) * 16 + w)%N, r)
      | _, _, _, _ => None
      end
  | _ => None
  end.

(** UTF-8 bytes of a code point. *)
Definition utf8 (cp : N) : string :=
  (if cp <? 128 then String (ascii_of_N cp) EmptyString
   else if cp <? 2048 then
     String (ascii_of_N (192 + cp / 64))
       (String (ascii_of_N (128 + cp mod 64)) EmptyString)
   else if cp <? 65536 then
     String (ascii_of_N (224 + cp / 4096))
       (String (ascii_of_N (128 + (cp / 64) mod 64))
          (String (ascii_of_N (128 + cp mod 64)) EmptyString))
   else
     String (ascii_of_N (240 + cp / 262144))
       (String (ascii_of_N (128 + (cp / 4096) mod 64))
          (String (ascii_of_N (128 + (cp / 64) mod 64))
             (String (ascii_of_N (128 + cp mod 64)) EmptyString))))%N.

Definition is_high (cu : N) : bool := ((55296 <=? cu) && (cu <=? 56319))%N%bool.
Definition is_low (cu : N) : bool := ((56320 <=? cu) && (cu <=? 57343))%N%bool.

(** U+FFFD, which a lone surrogate becomes once the string is written to a
    buffer. *)
Definition replacement : string := utf8 65533.

(** A [\uDC00]-[\uDFFF] escape at the head of [s]. *)
Definition low_escape (s : string) : option (N * string) :=
  match s with
  | String c1 (String c2 r) =>
      if (Ascii.eqb c1 backslash && Ascii.eqb c2 "u"%char)%bool then
        match hex4 r with
        | Some (lo, r') => if is_low lo then Some (lo, r') else None
        | None => None
        end
      else None
  | _ => None
  end.

Definition simple_escape (e : ascii) : option ascii :=
  if Ascii.eqb e dquote then Some dquote
  else if Ascii.eqb e backslash then Some backslash
  else if Ascii.eqb e "/"%char then Some "/"%char
  else if Ascii.eqb e "b"%char then Some (ascii_of_nat 8)
  else if Ascii.eqb e "f"%char then Some (ascii_of_nat 12)
  else if Ascii.eqb e "n"%char then Some (ascii_of_nat 10)
  else if Ascii.eqb e "r"%char then Some (ascii_of_nat 13)
  else if Ascii.eqb e "t"%char then Some (ascii_of_nat 9)
  else None.

Definition push (pre : string) (o : option (string * string))
  : option (string * string) :=
  match o with
  | Some (str, rest) => Some (pre ++ str, rest)
  | None => None
  end.

(** The characters of a string literal after its opening quote, up to and
    including the closing quote; returns the string and what follows. *)
Fixpoint lex_string (fuel : nat) (s : string) : option (string * string) :=
  match fuel with
  | O => None
  | S f =>
      match s with
      | EmptyString => None
      | String c r =>
          if Ascii.eqb c dquote then Some (EmptyString, r)
          else if Ascii.eqb c backslash then
            match r with
            | EmptyString => None
            | String e r1 =>
                if Ascii.eqb e "u"%char then
                  match hex4 r1 with
                  | None => None
                  | Some (cu, r2) =>
                      if is_high cu then
                        match low_escape r2 with
                        | Some (lo, r3) =>
                            push (utf8 (65536 + (cu - 55296) * 1024 + (lo - 56320))%N)
                                 (lex_string f r3)
                        | None => push replacement (lex_string f r2)
                        end
                      else if is_low cu then push replacement (lex_string f r2)
                      else push (utf8 cu) (lex_string f r2)
                  end
                else
                  match simple_escape e with
                  | Some ch => push (String ch EmptyString) (lex_string f r1)
                  | None => None
                  end
            end
          else if (N_of_ascii c <? 32)%N then None
          else push (String c EmptyString) (lex_string f r)
      end
  end.

(** The fraction of a number: [.] and at least one digit, or nothing. *)
Definition lex_frac (s : string) : option (string * string) :=
  match s with
  | String c r =>
      if Ascii.eqb c "."%char then
        match span_digits r with
        | (EmptyString, _) => None
        | (fs, rest) => Some (fs, rest)
        end
      else Some (EmptyString, s)
  | EmptyString => Some (EmptyString, s)
  end.

(** The exponent of a number: [e] or [E], a sign, at least one digit; or
    nothing. *)
Definition lex_exp (s : string) : option (Z * string) :=
  match s with
  | String c r =>
      if (Ascii.eqb c "e"%char || Ascii.eqb c "E"%char)%bool then
        let (neg, r1) :=
          match r with
          | String sg r' =>
              if Ascii.eqb sg "-"%char then (true, r')
              else if Ascii.eqb sg "+"%char then (false, r')
              else (false, r)
          | EmptyString => (false, r)
          end in
        match span_digits r1 with
        | (EmptyString, _) => None
        | (xs, rest) =>
            Some (if neg then - digits_value xs else digits_value xs, rest)
        end
      else Some (0, s)
  | EmptyString => Some (0, s)
  end.

(** A number literal: an optional minus sign; a single 0 or a digit string
    that does not start with 0; an optional fraction; an optional exponent. *)
Definition lex_number (s : string) : option (Z * Z * string) :=
  let (neg, s1) :=
    match s with
    | String c r => if Ascii.eqb c "-"%char then (true, r) else (false, s)
    | EmptyString => (false, s)
    end in
  let int_part :=
    match s1 with
    | String c r =>
        if Ascii.eqb c "0"%char then Some (String c EmptyString, r)
        else match span_digits s1 with
             | (EmptyString, _) => None
             | (ds, rest) => Some (ds, rest)
             end
    | EmptyString => None
    end in
  match int_part with
  | None => None
  | Some (ds, s2) =>
      match lex_frac s2 with
      | None => None
      | Some (fs, s3) =>
          match lex_exp s3 with
          | None => None
          | Some (x, s4) =>
              let mag := digits_value (ds ++ fs) in
              Some (if neg then - mag else mag,
                    x - Z.of_nat (String.length fs), s4)
          end
      end
  end.

Definition cons_tok (t : token) (o : option (list token)) : option (list token) :=
  match o with Some ts => Some (t :: ts) | None => None end.

Fixpoint lex (fuel : nat) (s : string) : option (list token) :=
  match fuel with
  | O => None
  | S f =>
      match s with
      | EmptyString => Some []
      | String c r =>
          if is_ws c then lex f r
          else if Ascii.eqb c "{"%char then cons_tok TLBrace (lex f r)
          else if Ascii.eqb c "}"%char then cons_tok TRBrace (lex f r)
          else if Ascii.eqb c "["%char then cons_tok TLBracket (lex f r)
          else if Ascii.eqb c "]"%char then cons_tok TRBracket (lex f r)
          else if Ascii.eqb c ":"%char then cons_tok TColon (lex f r)
          else if Ascii.eqb c ","%char then cons_tok TComma (lex f r)
          else if Ascii.eqb c dquote then
            match lex_string (String.length s) r with
            | Some (str, rest) => cons_tok (TString str) (lex f rest)
            | None => None
            end
          else if (Ascii.eqb c "-"%char || is_digit c)%bool then
            match lex_number s with
            | Some (m, e, rest) => cons_tok (TNumber m e) (lex f rest)
            | None => None
            end
          else if startsWith "true" s then cons_tok TTrue (lex f (drop 4 s))
          else if startsWith "false" s then cons_tok TFalse (lex f (drop 5 s))
          else if startsWith "null" s then cons_tok TNull (lex f (drop 4 s))
          else None
      end
  end.

(** [CreateDataProperty] on an object under construction: a repeated key
    keeps its place and takes the later value. *)
Fixpoint obj_set (props : list (string * value)) (k : string) (v : value)
  : list (string * value) :=
  match props with
  | [] => [(k, v)]
  | (k', v') :: rest =>
      if String.eqb k k' then (k', v) :: rest else (k', v') :: obj_set rest k v
  end.

Definition obj_of_members (ms : list (string * value)) : value :=
  VObj (fold_left (fun acc kv => obj_set acc (fst kv) (snd kv)) ms []).

Fixpoint parse_value (fuel : nat) (ts : list token) {struct fuel}
  : option (value * list token) :=
  match fuel with
  | O => None
  | S f =>
      match ts with
      | TNull :: r => Some (VNull, r)
      | TTrue :: r => Some (VBool true, r)
      | TFalse :: r => Some (VBool false, r)
      | TNumber m e :: r => Some (VNum m e, r)
      | TString s :: r => Some (VStr s, r)
      | TLBracket :: TRBracket :: r => Some (VArr [], r)
      | TLBracket :: r =>
          match parse_elements f r with
          | Some (l, r') => Some (VArr l, r')
          | None => None
          end
      | TLBrace :: TRBrace :: r => Some (VObj [], r)
      | TLBrace :: r =>
          match parse_members f r with
          | Some (ms, r') => Some (obj_of_members ms, r')
          | None => None
          end
      | _ => None
      end
  end
with parse_elements (fuel : nat) (ts : list token) {struct fuel}
  : option (list value * list token) :=
  match fuel with
  | O => None
  | S f =>
      match parse_value f ts with
      | Some (v, TComma :: r) =>
          match parse_elements f r with
          | Some (l, r') => Some (v :: l, r')
          | None => None
          end
      | Some (v, TRBracket :: r) => Some ([v], r)
      | _ => None
      end
  end
with parse_members (fuel : nat) (ts : list token) {struct fuel}
  : option (list (string * value) * list token) :=
  match fuel with
  | O => None
  | S f =>
      match ts with
      | TString k :: TColon :: r =>
          match parse_value f r with
          | Some (v, TComma :: r') =>
              match parse_members f r' with
              | Some (ms, r'') => Some ((k, v) :: ms, r'')
              | None => None
              end
          | Some (v, TRBrace :: r') => Some ([(k, v)], r')
          | _ => None
          end
      | _ => None
      end
  end.

(** [JSON.parse(text)]; [None] stands for the [SyntaxError] it throws. *)
Definition parse (text : string) : option value :=
  match lex (S (String.length text)) text with
  | Some ts =>
      match parse_value (S (List.length ts)) ts with
      | Some (v, []) => Some v
      | _ => None
      end
  | None => None
  end.

(** *** Writing *)

Definition hex_digit (n : N) : ascii :=
  if (n <? 10)%N then ascii_of_N (48 + n) else ascii_of_N (87 + n).

(** [QuoteJSONString], one character. *)
Definition escape_char (c : ascii) : string :=
  let n := N_of_ascii c in
  if Ascii.eqb c dquote then String backslash (String dquote EmptyString)
  else if Ascii.eqb c backslash then String backslash (String backslash EmptyString)
  else if (n =? 8)%N then String backslash "b"
  else if (n =? 12)%N then String backslash "f"
  else if (n =? 10)%N then String backslash "n"
  else if (n =? 13)%N then String backslash "r"
  else if (n =? 9)%N then String backslash "t"
  else if (n <? 32)%N then
    String backslash
      (String "u"%char
         (String "0"%char
            (String "0"%char
               (String (hex_digit (n / 16))
                  (String (hex_digit (n mod 16)) EmptyString)))))
  else String c EmptyString.

Fixpoint escape (s : string) : string :=
  match s with
  | EmptyString => EmptyString
  | String c r => escape_char c ++ escape r
  end.

Definition quote (s : string) : string :=
  String dquote (escape s ++ String dquote EmptyString).

Definition print_nat (n : Z) : string :=
  NilZero.string_of_uint (N.to_uint (Z.to_N n)).

Definition print_int (m : Z) : string :=
  if m <? 0 then String "-"%char (print_nat (- m)) else print_nat m.

(** The decimal [m * 10^e], [e < 0], without the trailing zeros of [m]. *)
Fixpoint strip_zeros (fuel : nat) (m e : Z) : Z * Z :=
  match fuel with
  | O => (m, e)
  | S f =>
      if ((e <? 0) && (m mod 10 =? 0))%bool
      then strip_zeros f (m / 10) (e + 1)
      else (m, e)
  end.

Fixpoint zeros (n : nat) : string :=
  match n with
  | O => EmptyString
  | S n' => String "0"%char (zeros n')
  end.

(** The first [n] characters of a string, and the others. *)
Fixpoint split_at (n : nat) (s : string) : string * string :=
  match n, s with
  | S n', String c r => let (a, b) := split_at n' r in (String c a, b)
  | _, _ => (EmptyString, s)
  end.

(** [Number::toString] on the digits [ds] of a number that is not an
    integer, [e < 0] being the exponent of its last digit: with [n] the
    position of the decimal point, the point is put inside the digits when
    [0 < n], zeros are put in front when [-6 < n <= 0], and the exponent
    form is used otherwise. *)
Definition print_fraction (ds : string) (e : Z) : string :=
  let n := Z.of_nat (String.length ds) + e in
  if 0 <? n then
    let (int, frac) := split_at (Z.to_nat n) ds in
    int ++ String "."%char frac
  else if -6 <? n then
    String "0"%char (String "."%char (zeros (Z.to_nat (- n)) ++ ds))
  else
    match ds with
    | String d rest =>
        String d
          (match rest with
           | EmptyString => EmptyString
           | _ => String "."%char rest
           end
           ++ String "e"%char (String "-"%char (print_nat (1 - n))))
    | EmptyString => EmptyString
    end.

(** An integer prints as its decimal digits, and any other number as
    JavaScript prints the decimal it is. *)
Definition print_number (m e : Z) : string :=
  if 0 <=? e then print_int (m * 10 ^ e)
  else
    let (m', e') := strip_zeros (Z.to_nat (- e)) m e in
    if e' =? 0 then print_int m'
    else if m' <? 0 then String "-"%char (print_fraction (print_nat (- m')) e')
    else print_fraction (print_nat m') e'.

Definition print_token (t : token) : string :=
  match t with
  | TLBrace => "{" | TRBrace => "}"
  | TLBracket => "[" | TRBracket => "]"
  | TColon => ":" | TComma => ","
  | TString s => quote s
  | TNumber m e => print_number m e
  | TTrue => "true" | TFalse => "false" | TNull => "null"
  end.

Fixpoint print_tokens (ts : list token) : string :=
  match ts with
  | [] => EmptyString
  | t :: r => print_token t ++ print_tokens r
  end.

Section Serialize.
Variable tokens_of : value -> list token.

(** Array elements, separated by commas. *)
Fixpoint elements_tokens (l : list value) : list token :=
  match l with
  | [] => []
  | [v] => tokens_of v
  | v :: r => tokens_of v ++ TComma :: elements_tokens r
  end.

(** Object members; a property whose value is [undefined] is left out. *)
Fixpoint members_tokens (ps : list (string * value)) : list token :=
  match ps with
  | [] => []
  | (k, v) :: r =>
      match v with
      | VUndefined => members_tokens r
      | _ =>
          TString k :: TColon :: tokens_of v ++
            match members_tokens r with
            | [] => []
            | rest => TComma :: rest
            end
      end
  end.
End Serialize.

(** [SerializeJSONProperty]; [undefined] inside an array is written [null]. *)
Fixpoint tokens_of (v : value) : list token :=
  match v with
  | VUndefined => [TNull]
  | VNull => [TNull]
  | VBool true => [TTrue]
  | VBool false => [TFalse]
  | VNum m e => [TNumber m e]
  | VStr s => [TString s]
  | VArr l => TLBracket :: elements_tokens tokens_of l ++ [TRBracket]
  | VObj ps => TLBrace :: members_tokens tokens_of ps ++ [TRBrace]
  end.

(** [JSON.stringify(v)] for a value other than [undefined] (every call in
    the application passes an object or an array). *)
Definition stringify (v : value) : string := print_tokens (tokens_of v).

End JSON.

(* ===================================================================== *)
(** ** Effects: exceptions, module state and calls to the outside *)
(* ===================================================================== *)

Module Eff.
Import JS.

(** A thrown [Error], by its message. *)
Inductive error : Type := Error (message : string).

Definition error_message (e : error) : string :=
  match e with Error m => m end.

Inductive outcome (A : Type) : Type :=
| Ok (a : A)
| Throw (e : error).
Arguments Ok {A} a.
Arguments Throw {A} e.

(** One entry of [supported.kinds]. *)
Record Kind : Type := mkKind {
  kind_scheme : string;
  kind_network : string;
  kind_asset : option string;
  kind_extra : value
}.

(** What [server.buildPaymentRequirements] returns, one element. *)
Record ExactRequirement : Type := mkExactRequirement {
  exact_scheme : string;
  exact_network : string;
  exact_asset : option string;
  exact_amount : string;
  exact_payTo : string;
  exact_maxTimeoutSeconds : option Z;
  exact_extra : option value
}.

(** The [price] of an escrow accept: an asset amount object, or money as a
    string or number (given by the text [String(price)] yields). *)
Inductive Price : Type :=
| AssetAmount (amount : string) (asset : option string) (extra : option value)
| Money (text : string).

(** What [escrow.buildAcceptsResolved] returns, one element. *)
Record EscrowAccept : Type := mkEscrowAccept {
  accept_scheme : string;
  accept_network : string;
  accept_price : Price;
  accept_payTo : string;
  accept_maxTimeoutSeconds : option Z
}.

(** The arguments of a requirement-building call. *)
Record BuildArgs : Type := mkBuildArgs {
  arg_network : string;
  arg_price : string;
  arg_payTo : string
}.

(** Calls that leave the process, in the order they are made, and the call
    into the escrow library. *)
Inductive event : Type :=
| EnsAddress (name : string)
| GetSupported
| ServerInitialize
| BuildExact (args : BuildArgs)
| BuildEscrow (args : BuildArgs)
| Preprocess (payload : value)
| Verify (payload accepted : value)
| Settle (payload accepted : value).

(** Module-level variables of [src/lib/x402.ts], and the calls made so far. *)
Record state : Type := mkState {
  server_created : bool;
  supportedNetworks_cache : option (list string);
  trace : list event
}.

Definition initial : state :=
  {| server_created := false; supportedNetworks_cache := None; trace := [] |}.

(** The outside world.  An answer may depend on everything that happened
    before the call, so two calls with the same arguments may differ. *)
Record Env : Type := mkEnv {
  isAddress : string -> bool;
  getAddress : string -> string;
  normalize : string -> outcome string;
  getEnsAddress : list event -> string -> outcome (option string);
  getSupported : list event -> outcome (list Kind);
  initialize : list event -> outcome unit;
  buildPaymentRequirements :
    list event -> BuildArgs -> outcome (list ExactRequirement);
  buildAcceptsResolved :
    list event -> BuildArgs -> outcome (list EscrowAccept);
  preprocessSwapPayload : value -> outcome value;
  verify : list event -> value -> value -> outcome Types.VerifyResponse;
  settle : list event -> value -> value -> outcome Types.SettleResponse;
  syntaxErrorMessage : string -> string
}.

Definition M (A : Type) : Type := state -> outcome A * state.

Definition ret {A} (a : A) : M A := fun st => (Ok a, st).

Definition bind {A B} (m : M A) (k : A -> M B) : M B :=
  fun st =>
    match m st with
    | (Ok a, st') => k a st'
    | (Throw e, st') => (Throw e, st')
    end.

Definition throw {A} (e : error) : M A := fun st => (Throw e, st).

(** [try { body } catch (error) { handler }]. *)
Definition try_catch {A} (body : M A) (handler : error -> M A) : M A :=
  fun st =>
    match body st with
    | (Ok a, st') => (Ok a, st')
    | (Throw e, st') => handler e st'
    end.

(** The promise of a computation, once it has settled. *)
Inductive settled (A : Type) : Type :=
| Fulfilled (value : A)
| Rejected (reason : error).
Arguments Fulfilled {A} value.
Arguments Rejected {A} reason.

Definition settle_one {A} (m : M A) : M (settled A) :=
  fun st =>
    match m st with
    | (Ok a, st') => (Ok (Fulfilled a), st')
    | (Throw e, st') => (Ok (Rejected e), st')
    end.

(** [Promise.allSettled([p(), q()])] for an [async] function [p] and a
    call [q].  The array is built first: [p] runs up to the first [await]
    that hands control back ([start]), then [q] is called; [p] goes on
    ([resume]) only afterwards, when what it awaits has answered.  Both are
    settled whatever the other does, and the calls are recorded in the
    order they are made. *)
Definition allSettled2 {S A B} (start : M S) (resume : S -> M A) (q : M B)
  : M (settled A * settled B) :=
  fun st =>
    match start st with
    | (Ok s, st1) =>
        bind (settle_one q)
             (fun b => bind (settle_one (resume s)) (fun a => ret (a, b))) st1
    | (Throw e, st1) =>
        bind (settle_one q) (fun b => ret (Rejected e, b)) st1
    end.

Definition lift {A} (o : outcome A) : M A := fun st => (o, st).

(** A call to the outside: it is recorded, then answered. *)
Definition call {A} (ev : event) (answer : list event -> outcome A) : M A :=
  fun st =>
    let st' := {| server_created := server_created st;
                  supportedNetworks_cache := supportedNetworks_cache st;
                  trace := trace st ++ [ev] |} in
    (answer (trace st), st').

Definition get_state : M state := fun st => (Ok st, st).

Definition set_server_created (b : bool) : M unit :=
  fun st => (Ok tt, {| server_created := b;
                       supportedNetworks_cache := supportedNetworks_cache st;
                       trace := trace st |}).

Definition set_supportedNetworks (l : option (list string)) : M unit :=
  fun st => (Ok tt, {| server_created := server_created st;
                       supportedNetworks_cache := l;
                       trace := trace st |}).

End Eff.

Notation "x <- m ;; k" := (Eff.bind m (fun x => k))
  (at level 61, m at next level, right associativity).
Notation "m ;;; k" := (Eff.bind m (fun _ => k))
  (at level 61, right associativity).

(* ===================================================================== *)
(** ** Server configuration ([src/lib/x402.ts]) *)
(* ===================================================================== *)

Module X402.
Import JS Eff.

Section WithEnv.
Variable env : Env.

(** [facilitator.getSupported()]. *)
Definition facilitator_getSupported : M (list Kind) :=
  call GetSupported (getSupported env).

(** [getServer]: the server object is created on the first call; the
    variable is assigned before the facilitator is asked, so a failed first
    call leaves a server behind that later calls return as it is. *)
Definition getServer : M unit :=
  st <- get_state ;;
  if server_created st then ret tt
  else
    set_server_created true ;;;
    _supported <- facilitator_getSupported ;;
    call ServerInitialize (initialize env).

(** [getServer] as its caller sees it run.  Up to its first [await] it
    either returns the server that exists, or creates one and calls
    [facilitator.getSupported()]; it goes on with [initialize] once that
    call has answered. *)
Inductive ServerStart : Type :=
| ServerExists
| ServerAwaits (supported : outcome (list Kind)).

Definition getServer_start : M ServerStart :=
  st <- get_state ;;
  if server_created st then ret ServerExists
  else
    set_server_created true ;;;
    (fun st' =>
       let (supported, st'') := facilitator_getSupported st' in
       (Ok (ServerAwaits supported), st'')).

Definition getServer_resume (started : ServerStart) : M unit :=
  match started with
  | ServerExists => ret tt
  | ServerAwaits supported =>
      _supported <- lift supported ;;
      call ServerInitialize (initialize env)
  end.

Definition is_tip_scheme (k : Kind) : bool :=
  (String.eqb (kind_scheme k) "exact" || String.eqb (kind_scheme k) "escrow")%bool.

(** [networks.add(n)] on a [Set] kept in insertion order. *)
Definition set_add (l : list string) (n : string) : list string :=
  if existsb (String.eqb n) l then l else l ++ [n].

Definition networks_of (kinds : list Kind) : list string :=
  fold_left (fun acc k => if is_tip_scheme k then set_add acc (kind_network k) else acc)
            kinds [].

(** [getSupportedNetworks]; an array, even an empty one, is truthy, so the
    first answer is kept for good. *)
Definition getSupportedNetworks : M (list string) :=
  st <- get_state ;;
  match supportedNetworks_cache st with
  | Some l => ret l
  | None =>
      kinds <- facilitator_getSupported ;;
      let l := networks_of kinds in
      set_supportedNetworks (Some l) ;;;
      ret l
  end.

(** [clearCache]. *)
Definition clearCache : M unit := set_supportedNetworks None.

End WithEnv.
End X402.

(* ===================================================================== *)
(** ** Name resolution ([src/lib/ens.ts]) *)
(* ===================================================================== *)

Module Ens.
Import JS Eff.

Section WithEnv.
Variable env : Env.

(** [mainnetClient.getEnsAddress({ name: normalize(name) })], inside its
    [try]; any exception makes the resolver return [null]. *)
Definition lookupName (name : string) : M (option string) :=
  try_catch
    (n <- lift (normalize env name) ;;
     address <- call (EnsAddress n) (fun h => getEnsAddress env h n) ;;
     ret (match address with
          | Some a => if str_truthy a then Some (getAddress env a) else None
          | None => None
          end))
    (fun _ => ret None).

Definition resolveRecipient (to : string) : M (option string) :=
  if isAddress env to then ret (Some (getAddress env to))
  else if endsWith to ".base.eth" then lookupName to
  else if endsWith to ".eth" then lookupName to
  else if (matches_label to && Nat.leb 3 (String.length to))%bool
  then lookupName (to ++ ".base.eth")
  else ret None.

End WithEnv.
End Ens.

(* ===================================================================== *)
(** ** The tip route ([src/app/api/tip/route.ts]) *)
(* ===================================================================== *)

Module Route.
Import JS Eff Types.

(** A request, by what the handler reads from it:
    [searchParams.get("to" | "amount" | "network")] and
    [headers.get("payment-signature")]; [None] is [null]. *)
Record Request : Type := mkRequest {
  query_to : option string;
  query_amount : option string;
  query_network : option string;
  header_payment_signature : option string
}.

(** A response: status, body text and headers (names in lower case, as
    [Headers] keeps them). *)
Record Response : Type := mkResponse {
  status : Z;
  body : string;
  headers : list (string * string)
}.

Fixpoint set_header (name v : string) (hs : list (string * string))
  : list (string * string) :=
  match hs with
  | [] => [(toLowerCase name, v)]
  | (n, x) :: r =>
      if String.eqb n (toLowerCase name) then (n, v) :: r
      else (n, x) :: set_header name v r
  end.

Fixpoint get_header (name : string) (hs : list (string * string))
  : option string :=
  match hs with
  | [] => None
  | (n, x) :: r =>
      if String.eqb n (toLowerCase name) then Some x else get_header name r
  end.

(** [response.headers.set(name, v)]. *)
Definition headers_set (name v : string) (r : Response) : Response :=
  {| status := status r; body := body r; headers := set_header name v (headers r) |}.

(** [NextResponse.json(v, { status })]. *)
Definition NextResponse_json (v : value) (st : Z) : Response :=
  {| status := st;
     body := JSON.stringify v;
     headers := [("content-type", "application/json")] |}.

(** [Buffer.from(JSON.stringify(v)).toString("base64")]. *)
Definition encode_header (v : value) : string :=
  Base64.encode (JSON.stringify v).

Definition expose_headers : string := "PAYMENT-REQUIRED, PAYMENT-RESPONSE".

(** *** The requirements cache *)

(** Cache disabled: always [null]. *)
Definition getCachedRequirements (_key : string)
  : M (option (list PaymentRequirements)) :=
  ret None.

(** Cache disabled: no-op. *)
Definition cacheRequirements (_key : string)
    (_requirements : list PaymentRequirements) : M unit :=
  ret tt.

Definition getCacheKey (network amount recipient : string) : string :=
  network ++ ":" ++ amount ++ ":" ++ toLowerCase recipient.

(** *** Building the challenge *)

Definition requirement_value (r : PaymentRequirements) : value :=
  VObj [("scheme", VStr (scheme r));
        ("network", VStr (network r));
        ("asset", VStr (asset r));
        ("amount", VStr (amount r));
        ("payTo", VStr (payTo r));
        ("maxTimeoutSeconds", VNum (maxTimeoutSeconds r) 0);
        ("extra", extra r)].

Definition requirements_value (l : list PaymentRequirements) : value :=
  VArr (map requirement_value l).

(** [n || 600]. *)
Definition timeout_or_default (n : option Z) : Z :=
  match n with
  | Some z => if Z.eqb z 0 then 600 else z
  | None => 600
  end.

(** [extra || {}]. *)
Definition extra_or_empty (x : option value) : value :=
  match x with
  | Some v => if truthy v then v else VObj []
  | None => VObj []
  end.

(** The object pushed for one element of the exact result. *)
Definition normalize_exact (req : ExactRequirement) : PaymentRequirements :=
  {| scheme := exact_scheme req;
     network := exact_network req;
     asset := or_default (exact_asset req) "";
     amount := exact_amount req;
     payTo := exact_payTo req;
     maxTimeoutSeconds := timeout_or_default (exact_maxTimeoutSeconds req);
     extra := extra_or_empty (exact_extra req) |}.

(** The object pushed for one element of the escrow result; a price that
    is not an object is turned into [{ amount: String(price), asset: "",
    extra: {} }] first. *)
Definition normalize_escrow (accept : EscrowAccept) : PaymentRequirements :=
  let priceObj :=
    match accept_price accept with
    | AssetAmount a s x => (a, s, x)
    | Money text => (text, Some "", Some (VObj []))
    end in
  let '(p_amount, p_asset, p_extra) := priceObj in
  {| scheme := accept_scheme accept;
     network := accept_network accept;
     asset := or_default p_asset "";
     amount := p_amount;
     payTo := accept_payTo accept;
     maxTimeoutSeconds := timeout_or_default (accept_maxTimeoutSeconds accept);
     extra := extra_or_empty p_extra |}.

Definition from_exact (r : settled (list ExactRequirement))
  : list PaymentRequirements :=
  match r with
  | Fulfilled v => map normalize_exact v
  | Rejected _ => []
  end.

Definition from_escrow (r : settled (list EscrowAccept))
  : list PaymentRequirements :=
  match r with
  | Fulfilled v => map normalize_escrow v
  | Rejected _ => []
  end.

(** The 402 answer that carries [requirements] in [PAYMENT-REQUIRED]. *)
Definition challenge (messageText to amount network : string)
    (requirements : list PaymentRequirements) : Response :=
  let paymentRequired := encode_header (requirements_value requirements) in
  headers_set "Access-Control-Expose-Headers" expose_headers
    (headers_set "PAYMENT-REQUIRED" paymentRequired
       (NextResponse_json
          (VObj [("message", VStr messageText);
                 ("recipient", VStr to);
                 ("amount", VStr amount);
                 ("network", VStr network)])
          402)).

Definition no_options : Response :=
  NextResponse_json (VObj [("error", VStr "No payment options available")]) 500.

Section WithEnv.
Variable env : Env.

(** The arguments of both building calls: [network], [price: `$${amount}`]
    and [payTo: recipientAddress] (the exact call adds the constants
    [scheme: "exact"] and [maxTimeoutSeconds: 600]). *)
Definition build_args (amount network recipientAddress : string) : BuildArgs :=
  {| arg_network := network;
     arg_price := "$" ++ amount;
     arg_payTo := recipientAddress |}.

(** The first promise: [getServer()], then
    [server.buildPaymentRequirements]. *)
Definition build_exact (args : BuildArgs) : M (list ExactRequirement) :=
  X402.getServer env ;;;
  call (BuildExact args) (fun h => buildPaymentRequirements env h args).

(** The first promise after [getServer] has handed control back: the rest
    of [getServer], then [server.buildPaymentRequirements]. *)
Definition build_exact_resume (args : BuildArgs) (started : X402.ServerStart)
  : M (list ExactRequirement) :=
  X402.getServer_resume env started ;;;
  call (BuildExact args) (fun h => buildPaymentRequirements env h args).

(** The second promise: [escrow.buildAcceptsResolved]. *)
Definition build_escrow (args : BuildArgs) : M (list EscrowAccept) :=
  call (BuildEscrow args) (fun h => buildAcceptsResolved env h args).

Definition handle402Response (to amount network recipientAddress : string)
  : M Response :=
  try_catch
    (let cacheKey := getCacheKey network amount recipientAddress in
     cached <- getCachedRequirements cacheKey ;;
     match cached with
     | Some c =>
         ret (challenge "Payment required (cached)" to amount network c)
     | None =>
         let args := build_args amount network recipientAddress in
         results <- allSettled2 (X402.getServer_start env)
                                (build_exact_resume args) (build_escrow args) ;;
         let (exactResult, escrowResult) := results in
         let paymentRequirements :=
           (from_exact exactResult ++ from_escrow escrowResult)%list in
         if Nat.eqb (List.length paymentRequirements) 0 then ret no_options
         else
           cacheRequirements cacheKey paymentRequirements ;;;
           ret (challenge "Payment required" to amount network paymentRequirements)
     end)
    (fun error =>
       ret (NextResponse_json
              (VObj [("error",
                      VStr ("Failed to build payment requirements: "
                            ++ error_message error))])
              500)).

(** *** Payment submission *)

(** [JSON.parse(text)] as a computation. *)
Definition JSON_parse (text : string) : M value :=
  match JSON.parse text with
  | Some v => ret v
  | None => throw (Error (syntaxErrorMessage env text))
  end.

(** [const { accepted, payload } = paymentPayload]. *)
Definition destructure (paymentPayload : value) : M (value * value) :=
  match paymentPayload with
  | VNull | VUndefined =>
      throw (Error "Cannot destructure property 'accepted' of 'paymentPayload' as it is null.")
  | _ => ret (get_opt "accepted" paymentPayload, get_opt "payload" paymentPayload)
  end.

(** [processedPayload.accepted]. *)
Definition accepted_of (processedPayload : value) : M value :=
  match processedPayload with
  | VNull | VUndefined =>
      throw (Error "Cannot read properties of undefined (reading 'accepted')")
  | _ => ret (get_opt "accepted" processedPayload)
  end.

Definition opt_value (o : option string) : value :=
  match o with Some s => VStr s | None => VUndefined end.

(** The answer of a submission: the body is also put, base64-encoded, in
    [PAYMENT-RESPONSE], and both payment headers are exposed. *)
Definition payment_response (bodyValue : value) (st : Z) : Response :=
  headers_set "Access-Control-Expose-Headers" expose_headers
    (headers_set "PAYMENT-RESPONSE" (encode_header bodyValue)
       (NextResponse_json bodyValue st)).

Definition error_result (reason : string) : value :=
  VObj [("success", VBool false); ("errorReason", VStr reason)].

Definition fullPaymentPayload (to amount network : string)
    (paymentPayload accepted payload : value) : value :=
  VObj [("x402Version",
         let v := get_opt "x402Version" paymentPayload in
         if truthy v then v else VNum 2 0);
        ("resource",
         VObj [("url", VStr ("/api/tip?to=" ++ to ++ "&amount=" ++ amount
                             ++ "&network=" ++ network));
               ("description", VStr ("Tip of $" ++ amount ++ " to " ++ to));
               ("mimeType", VStr "application/json")]);
        ("accepted", accepted);
        ("payload", payload)].

Definition successResponse (to amount network recipientAddress : string)
    (settleResult : SettleResponse) : value :=
  VObj [("success", VBool true);
        ("message", VStr ("Tip of $" ++ amount ++ " received by " ++ to));
        ("transaction", opt_value (settle_transaction settleResult));
        ("network", VStr (or_default (settle_network settleResult) network));
        ("recipient", VStr recipientAddress);
        ("amount", VStr amount)].

Definition handlePaymentSubmission
    (to amount network recipientAddress paymentSignature : string)
  : M Response :=
  try_catch
    (let paymentPayloadStr := Base64.decode paymentSignature in
     paymentPayload <- JSON_parse paymentPayloadStr ;;
     fields <- destructure paymentPayload ;;
     let (accepted, payload) := fields in
     if (negb (truthy accepted) || negb (truthy payload))%bool then
       ret (NextResponse_json
              (VObj [("error",
                      VStr "Invalid payment payload: missing accepted or payload")])
              400)
     else
       let full := fullPaymentPayload to amount network paymentPayload accepted payload in
       processedPayload <-
         call (Preprocess full) (fun _ => preprocessSwapPayload env full) ;;
       processedAccepted <- accepted_of processedPayload ;;
       verifyResult <-
         call (Verify processedPayload processedAccepted)
              (fun h => verify env h processedPayload processedAccepted) ;;
       if negb (isValid verifyResult) then
         ret (payment_response
                (error_result
                   (or_default (invalidReason verifyResult)
                               "Payment verification failed"))
                402)
       else
         settleResult <-
           call (Settle processedPayload processedAccepted)
                (fun h => settle env h processedPayload processedAccepted) ;;
         if negb (settle_success settleResult) then
           ret (payment_response
                  (error_result
                     (or_default (settle_errorReason settleResult)
                                 "Payment settlement failed"))
                  402)
         else
           ret (payment_response
                  (successResponse to amount network recipientAddress settleResult)
                  200))
    (fun error =>
       ret (payment_response
              (error_result ("Payment processing error: " ++ error_message error))
              500)).

(** *** The handler *)

Definition bad_request (messageText : string) : Response :=
  NextResponse_json (VObj [("error", VStr messageText)]) 400.

(** A query parameter that passes the [!x] test. *)
Definition present (o : option string) : option string :=
  match o with
  | Some s => if str_truthy s then Some s else None
  | None => None
  end.

Definition GET (request : Request) : M Response :=
  match present (query_to request), present (query_amount request) with
  | Some to, Some amount =>
      let amountNum := parseFloat amount in
      if (isNaN amountNum || le_zero amountNum)%bool then
        ret (bad_request "Invalid amount. Must be a positive number.")
      else
        recipientAddress <- Ens.resolveRecipient env to ;;
        match present recipientAddress with
        | None => ret (bad_request ("Could not resolve recipient: " ++ to))
        | Some recipientAddress =>
            supportedNetworks <- X402.getSupportedNetworks env ;;
            match supportedNetworks with
            | [] =>
                ret (NextResponse_json
                       (VObj [("error", VStr "No networks supported by facilitator")])
                       500)
            | first :: _ =>
                let network :=
                  match present (query_network request) with
                  | Some n => n
                  | None => first
                  end in
                if negb (matches_eip155 network) then
                  ret (bad_request "Invalid network format. Use eip155:CHAINID")
                else if negb (existsb (String.eqb network) supportedNetworks) then
                  ret (NextResponse_json
                         (VObj [("error", VStr ("Network " ++ network ++ " not supported"));
                                ("supportedNetworks", VArr (map VStr supportedNetworks))])
                         400)
                else
                  match present (header_payment_signature request) with
                  | None => handle402Response to amount network recipientAddress
                  | Some paymentSignature =>
                      handlePaymentSubmission to amount network recipientAddress
                                              paymentSignature
                  end
            end
        end
  | _, _ => ret (bad_request "Missing required parameters: to, amount")
  end.

End WithEnv.

(** [OPTIONS]: the CORS preflight. *)
Definition OPTIONS : Response :=
  {| status := 200;
     body := EmptyString;
     headers := [("access-control-allow-origin", "*");
                 ("access-control-allow-methods", "GET, OPTIONS");
                 ("access-control-allow-headers", "Content-Type, PAYMENT-SIGNATURE");
                 ("access-control-expose-headers", expose_headers)] |}.

End Route.

(* ===================================================================== *)
(** ** Client payment selector ([src/hooks/usePayment.ts]) *)
(* ===================================================================== *)

Module Client.
Import JS.

(** The local type [PolicyRequirements], with the casts of the policy
    ([extra as Record | undefined], [swapData as { inputToken?: string }])
    written as record fields. *)
Record SwapData : Type := mkSwapData { inputToken : option string }.
Record Extra : Type := mkExtra { swapData : option SwapData }.
Record PolicyRequirements : Type := mkPolicyReq {
  scheme : string;
  asset : option string;
  extra : option Extra
}.

(** [req.asset?.toLowerCase() === normalizedInput]. *)
Definition asset_matches (req : PolicyRequirements) (normalizedInput : string)
  : bool :=
  match asset req with
  | Some a => JS.str_eqb (JS.toLowerCase a) normalizedInput
  | None => false
  end.

(** [swapData?.inputToken] *)
Definition swap_inputToken (req : PolicyRequirements) : option string :=
  match extra req with
  | Some ex =>
      match swapData ex with
      | Some sd => inputToken sd
      | None => None
      end
  | None => None
  end.

(** The predicate handed to [requirements.filter]. *)
Definition policy_keeps (normalizedInput : string) (req : PolicyRequirements)
  : bool :=
  if JS.str_eqb (scheme req) "exact" then asset_matches req normalizedInput
  else
    match swap_inputToken req with
    | Some tok =>
        if JS.str_truthy tok
        then JS.str_eqb (JS.toLowerCase tok) normalizedInput
        else asset_matches req normalizedInput
    | None => asset_matches req normalizedInput
    end.

Section Selector.
(** The requirements are objects of any shape ([any[]]); the policy reads
    them through the cast to [PolicyRequirements]. *)
Context {A : Type} (view : A -> PolicyRequirements).

Definition createInputTokenPolicy (inputToken : string)
    (_version : Z) (requirements : list A) : list A :=
  let normalizedInput := JS.toLowerCase inputToken in
  filter (fun req => policy_keeps normalizedInput (view req)) requirements.

(** [preferExactSelector]; [None] is the [undefined] that
    [requirements[0]] gives on an empty array. *)
Definition preferExactSelector (_version : Z) (requirements : list A)
  : option A :=
  match find (fun r => JS.str_eqb (scheme (view r)) "exact") requirements with
  | Some exact => Some exact
  | None => hd_error requirements
  end.

(** The x402 client applies the registered policy, then the selector. *)
Definition selectRequirement (inputToken : string) (version : Z)
    (accepts : list A) : option A :=
  preferExactSelector version (createInputTokenPolicy inputToken version accepts).
End Selector.

Definition string_prop (v : value) : option string :=
  match v with VStr s => Some s | _ => None end.

(** A [PaymentRequirements] object seen as [PolicyRequirements]: [extra]
    and [swapData] are absent when [null] or [undefined]; [inputToken] is
    a string or absent, as the cast declares it. *)
Definition view_requirement (r : Types.PaymentRequirements) : PolicyRequirements :=
  {| scheme := Types.scheme r;
     asset := Some (Types.asset r);
     extra :=
       match Types.extra r with
       | VNull | VUndefined => None
       | x =>
           Some {| swapData :=
                     match get_opt "swapData" x with
                     | VNull | VUndefined => None
                     | sd => Some {| inputToken := string_prop (get_opt "inputToken" sd) |}
                     end |}
       end |}.

(** [Buffer.from(JSON.stringify(paymentPayload)).toString("base64")], the
    value of the [PAYMENT-SIGNATURE] header. *)
Definition paymentSignature (paymentPayload : value) : string :=
  Base64.encode (JSON.stringify paymentPayload).

(** The result the hook returns: the decoded [PAYMENT-RESPONSE] header when
    there is one, the JSON body otherwise; [None] when [JSON.parse] throws. *)
Definition readResult (res : Route.Response) : option value :=
  match Route.present (Route.get_header "PAYMENT-RESPONSE" (Route.headers res)) with
  | Some paymentResponse => JSON.parse (Base64.decode paymentResponse)
  | None => JSON.parse (Route.body res)
  end.

(** The object read [as PaymentResult]. *)
Definition as_PaymentResult (v : value) : Types.PaymentResult :=
  {| Types.success := truthy (get_opt "success" v);
     Types.transaction := string_prop (get_opt "transaction" v);
     Types.result_network := string_prop (get_opt "network" v);
     Types.recipient := string_prop (get_opt "recipient" v);
     Types.result_amount := string_prop (get_opt "amount" v);
     Types.message := string_prop (get_opt "message" v);
     Types.errorReason := string_prop (get_opt "errorReason" v) |}.

(** A [PaymentResult] as the object it is; an absent property is written
    as [undefined]. *)
Definition result_value (r : Types.PaymentResult) : value :=
  VObj [("success", VBool (Types.success r));
        ("transaction", Route.opt_value (Types.transaction r));
        ("network", Route.opt_value (Types.result_network r));
        ("recipient", Route.opt_value (Types.recipient r));
        ("amount", Route.opt_value (Types.result_amount r));
        ("message", Route.opt_value (Types.message r));
        ("errorReason", Route.opt_value (Types.errorReason r))].

End Client.

(* ===================================================================== *)
(** ** The route with the requirements cache removed *)
(* ===================================================================== *)

(** The same route written without [getCachedRequirements],
    [cacheRequirements] and the cache-hit branch; the reference for the
    statement that the cache is a pass-through. *)
Module RouteWithoutCache.
Import JS Eff Types.

Section WithEnv.
Variable env : Env.

Definition handle402Response (to amount network recipientAddress : string)
  : M Route.Response :=
  try_catch
    (let args := Route.build_args amount network recipientAddress in
     results <- allSettled2 (X402.getServer_start env)
                            (Route.build_exact_resume env args)
                            (Route.build_escrow env args) ;;
     let (exactResult, escrowResult) := results in
     let paymentRequirements :=
       (Route.from_exact exactResult ++ Route.from_escrow escrowResult)%list in
     if Nat.eqb (List.length paymentRequirements) 0 then ret Route.no_options
     else
       ret (Route.challenge "Payment required" to amount network paymentRequirements))
    (fun error =>
       ret (Route.NextResponse_json
              (VObj [("error",
                      VStr ("Failed to build payment requirements: "
                            ++ error_message error))])
              500)).

Definition GET (request : Route.Request) : M Route.Response :=
  match Route.present (Route.query_to request),
        Route.present (Route.query_amount request) with
  | Some to, Some amount =>
      let amountNum := parseFloat amount in
      if (isNaN amountNum || le_zero amountNum)%bool then
        ret (Route.bad_request "Invalid amount. Must be a positive number.")
      else
        recipientAddress <- Ens.resolveRecipient env to ;;
        match Route.present recipientAddress with
        | None => ret (Route.bad_request ("Could not resolve recipient: " ++ to))
        | Some recipientAddress =>
            supportedNetworks <- X402.getSupportedNetworks env ;;
            match supportedNetworks with
            | [] =>
                ret (Route.NextResponse_json
                       (VObj [("error", VStr "No networks supported by facilitator")])
                       500)
            | first :: _ =>
                let network :=
                  match Route.present (Route.query_network request) with
                  | Some n => n
                  | None => first
                  end in
                if negb (matches_eip155 network) then
                  ret (Route.bad_request "Invalid network format. Use eip155:CHAINID")
                else if negb (existsb (String.eqb network) supportedNetworks) then
                  ret (Route.NextResponse_json
                         (VObj [("error", VStr ("Network " ++ network ++ " not supported"));
                                ("supportedNetworks", VArr (map VStr supportedNetworks))])
                         400)
                else
                  match Route.present (Route.header_payment_signature request) with
                  | None => handle402Response to amount network recipientAddress
                  | Some paymentSignature =>
                      Route.handlePaymentSubmission env to amount network
                        recipientAddress paymentSignature
                  end
            end
        end
  | _, _ => ret (Route.bad_request "Missing required parameters: to, amount")
  end.

End WithEnv.
End RouteWithoutCache.

(* ===================================================================== *)
(** ** The requirements hook ([src/hooks/usePaymentRequirements.ts]) *)
(* ===================================================================== *)

Module Hooks.
Import JS Eff.

(** [URLSearchParams.prototype.toString] on one value: letters, digits and
    [*-._] stay, a space becomes [+], every other byte is written [%XX]. *)
Definition form_safe (c : ascii) : bool :=
  let n := nat_of_ascii c in
  ((Nat.leb 97 n && Nat.leb n 122) || (Nat.leb 65 n && Nat.leb n 90)
   || (Nat.leb 48 n && Nat.leb n 57)
   || Nat.eqb n 42 || Nat.eqb n 45 || Nat.eqb n 46 || Nat.eqb n 95)%bool.

Definition upper_hex (n : N) : ascii :=
  if (n <? 10)%N then ascii_of_N (n + 48) else ascii_of_N (n + 55).

Fixpoint form_encode (s : string) : string :=
  match s with
  | EmptyString => EmptyString
  | String c r =>
      if form_safe c then String c (form_encode r)
      else if Ascii.eqb c " "%char then String "+"%char (form_encode r)
      else
        let n := N_of_ascii c in
        String "%"%char
          (String (upper_hex (n / 16)) (String (upper_hex (n mod 16)) (form_encode r)))
  end.

(** [new URLSearchParams({ to, amount, network }).toString()]. *)
Definition tip_params (recipient amount network : string) : string :=
  "to=" ++ form_encode recipient ++ "&amount=" ++ form_encode amount
  ++ "&network=" ++ form_encode network.

Section WithPlatform.
(** The browser: [fetch], the text of a number ([Number.prototype.toString])
    and the message of the [SyntaxError] of [JSON.parse]. *)
Variable fetch : string -> outcome Route.Response.
Variable numberText : Z -> Z -> string.
Variable syntaxErrorMessage : string -> string.

(** [ToString], which [new Error(message)] applies to its argument. *)
Fixpoint toText (v : value) : string :=
  match v with
  | VUndefined => "undefined"
  | VNull => "null"
  | VBool b => if b then "true" else "false"
  | VNum m e => numberText m e
  | VStr s => s
  | VArr items =>
      (fix join (l : list value) : string :=
         match l with
         | [] => ""
         | x :: r =>
             match x with
             | VUndefined | VNull => ""
             | _ => toText x
             end
             ++ match r with
                | [] => ""
                | _ => "," ++ join r
                end
         end) items
  | VObj _ => "[object Object]"
  end.

(** The query function once [fetch] has answered with [res]. *)
Definition readRequirements (res : Route.Response) : outcome value :=
  if negb (Z.eqb (Route.status res) 402) then
    match JSON.parse (Route.body res) with
    | None => Throw (Error (syntaxErrorMessage (Route.body res)))
    | Some VNull => Throw (Error "Cannot read properties of null (reading 'error')")
    | Some error =>
        let message := get_opt "error" error in
        Throw (Error (if truthy message then toText message
                      else "Failed to get payment requirements"))
    end
  else
    match Route.present (Route.get_header "PAYMENT-REQUIRED" (Route.headers res)) with
    | None => Throw (Error "Missing PAYMENT-REQUIRED header")
    | Some paymentRequired =>
        match JSON.parse (Base64.decode paymentRequired) with
        | Some requirements => Ok requirements
        | None => Throw (Error (syntaxErrorMessage (Base64.decode paymentRequired)))
        end
    end.

(** [queryFn]. *)
Definition queryFn (recipient amount network : string) : outcome value :=
  match fetch ("/api/tip?" ++ tip_params recipient amount network) with
  | Ok res => readRequirements res
  | Throw e => Throw e
  end.

End WithPlatform.

(** [x > 0] on the double that [x] rounds to. *)
Definition gt_zero (x : number) : bool :=
  match x with
  | NaN => false
  | Infinity neg => negb neg
  | Finite neg m e => (negb neg && negb (rounds_to_zero m e))%bool
  end.

(** The hook's [enabled: enabled && !!recipient && !!amount && !!network]. *)
Definition query_enabled (enabled : bool) (recipient amount network : string)
  : bool :=
  (enabled && str_truthy recipient && str_truthy amount && str_truthy network)%bool.

End Hooks.

(* ===================================================================== *)
(** ** The tip form ([src/components/TipForm.tsx]) *)
(* ===================================================================== *)

Module TipForm.
Import JS Eff Types.

(** [Token], from the token selector. *)
Record Token : Type := mkToken {
  address : string;
  symbol : string;
  decimals : Z
}.

(** [array.find(predicate)] for a predicate that may throw. *)
Fixpoint find_m {A} (p : A -> outcome bool) (l : list A) : outcome (option A) :=
  match l with
  | [] => Ok None
  | x :: r =>
      match p x with
      | Ok true => Ok (Some x)
      | Ok false => find_m p r
      | Throw e => Throw e
      end
  end.

(** The predicate of the escrow search: an [escrow] requirement whose
    [swapData] has an [inputToken] and a [maxInputAmount], the input token
    being the selected one. *)
Definition is_swap_for (tokenAddress : string) (req : PaymentRequirements)
  : outcome bool :=
  if negb (String.eqb (scheme req) "escrow") then Ok false
  else
    let swapData := get_opt "swapData" (extra req) in
    let inputToken := get_opt "inputToken" swapData in
    if (negb (truthy inputToken)
        || negb (truthy (get_opt "maxInputAmount" swapData)))%bool
    then Ok false
    else
      match inputToken with
      | VStr s => Ok (String.eqb (toLowerCase s) tokenAddress)
      | _ => Throw (Error "swapData.inputToken.toLowerCase is not a function")
      end.

Definition is_exact_for (tokenAddress : string) (req : PaymentRequirements) : bool :=
  (String.eqb (scheme req) "exact"
   && String.eqb (toLowerCase (asset req)) tokenAddress)%bool.

Definition is_escrow_in (tokenAddress : string) (req : PaymentRequirements) : bool :=
  (String.eqb (scheme req) "escrow"
   && String.eqb (toLowerCase (asset req)) tokenAddress)%bool.

(** [selectedRequirement]: the requirement whose quote the form shows.
    [None] for the arguments is [undefined] or [null]; [Ok None] is the
    [undefined] the memo returns. *)
Definition selectedRequirement
    (paymentRequirements : option (list PaymentRequirements))
    (selectedToken : option Token) : outcome (option PaymentRequirements) :=
  match paymentRequirements, selectedToken with
  | Some reqs, Some token =>
      if Nat.eqb (List.length reqs) 0 then Ok None
      else
        let isUSDC := String.eqb (symbol token) "USDC" in
        let tokenAddress := toLowerCase (address token) in
        match (if isUSDC then find (is_exact_for tokenAddress) reqs else None) with
        | Some exactReq => Ok (Some exactReq)
        | None =>
            match find_m (is_swap_for tokenAddress) reqs with
            | Throw e => Throw e
            | Ok (Some swapReq) => Ok (Some swapReq)
            | Ok None =>
                if isUSDC then Ok (find (is_escrow_in tokenAddress) reqs)
                else Ok None
            end
        end
  | _, _ => Ok None
  end.

(** [enabled: !!network && !!debouncedAmount && parseFloat(debouncedAmount) > 0],
    with [network: network || ""] handed to the hook. *)
Definition requirements_enabled (network : option string) (debouncedAmount : string)
  : bool :=
  (match network with Some n => str_truthy n | None => false end
   && str_truthy debouncedAmount
   && Hooks.gt_zero (parseFloat debouncedAmount))%bool.

(** What the form does with the end of a submission. *)
Inductive Shown : Type :=
| OnSuccess (txHash : value) (amount : string)
| SetError (message : value).

(** The [try] block of [handleSubmit] after [payment.mutateAsync] has
    returned [result], and its [catch]. *)
Definition after_payment (amount : string) (result : outcome value) : Shown :=
  match result with
  | Throw err => SetError (VStr (error_message err))
  | Ok VNull => SetError (VStr "Cannot read properties of null (reading 'success')")
  | Ok VUndefined =>
      SetError (VStr "Cannot read properties of undefined (reading 'success')")
  | Ok r =>
      if (truthy (get_opt "success" r) && truthy (get_opt "transaction" r))%bool
      then OnSuccess (get_opt "transaction" r) amount
      else
        SetError (let reason := get_opt "errorReason" r in
                  if truthy reason then reason else VStr "Payment failed")
  end.

Section Submit.
(** [payment.mutateAsync({ recipient, amount, network, inputToken,
    paymentRequirements, walletClient })]. *)
Variable mutateAsync :
  string -> string -> string -> string -> list PaymentRequirements -> outcome value.

(** [handleSubmit], by what it reads: the props [recipient] and [network],
    whether a wallet client is there, the requirements, the selected token,
    the amount, and [needsApproval] of the Permit2 hook. *)
Definition handleSubmit (recipient network : string) (walletClient : bool)
    (paymentRequirements : option (list PaymentRequirements))
    (selectedToken : option Token) (amount : string) (needsApproval : bool)
  : Shown :=
  if negb walletClient then SetError (VStr "Connect your wallet")
  else
    match paymentRequirements with
    | None | Some [] => SetError (VStr "No payment options available")
    | Some reqs =>
        match selectedToken with
        | None => SetError (VStr "Select a token")
        | Some token =>
            if (negb (str_truthy amount) || le_zero (parseFloat amount))%bool
            then SetError (VStr "Enter a valid amount")
            else
              let needsPermit2 := negb (String.eqb (symbol token) "USDC") in
              if (needsPermit2 && needsApproval)%bool
              then SetError (VStr "Please approve the token first")
              else
                after_payment amount
                  (mutateAsync recipient amount network (address token) reqs)
        end
    end.
End Submit.

End TipForm.

(* ===================================================================== *)
(** ** The query string of a request ([request.nextUrl.searchParams]) *)
(* ===================================================================== *)

Module Url.
Import JS.

(** The part of [s] before the first [c], and the part after it ([None]
    when there is no [c]). *)
Fixpoint cut (c : ascii) (s : string) : string * option string :=
  match s with
  | EmptyString => (EmptyString, None)
  | String a r =>
      if Ascii.eqb a c then (EmptyString, Some r)
      else let (before, rest) := cut c r in (String a before, rest)
  end.

(** [url.search] without its question mark: what lies between the first [?]
    and the first [#] after it. *)
Definition query_of (url : string) : string :=
  match snd (cut "?"%char url) with
  | Some q => fst (cut "#"%char q)
  | None => EmptyString
  end.

(** The pieces of [s] between the separators [c]. *)
Fixpoint pieces (c : ascii) (s : string) : list string :=
  match s with
  | EmptyString => [EmptyString]
  | String a r =>
      if Ascii.eqb a c then EmptyString :: pieces c r
      else
        match pieces c r with
        | p :: ps => String a p :: ps
        | [] => [String a EmptyString]
        end
  end.

Fixpoint plus_to_space (s : string) : string :=
  match s with
  | EmptyString => EmptyString
  | String a r =>
      String (if Ascii.eqb a "+"%char then " "%char else a) (plus_to_space r)
  end.

(** Percent-decoding: [%XX] with two hexadecimal digits is one byte, any
    other [%] stays. *)
Fixpoint percent_decode (s : string) : string :=
  match s with
  | EmptyString => EmptyString
  | String a r =>
      if Ascii.eqb a "%"%char then
        match r with
        | String h (String l r') =>
            match JSON.hex_val h, JSON.hex_val l with
            | Some x, Some y =>
                String (ascii_of_N (16 * x + y)%N)
                       (percent_decode r')
            | _, _ => String a (percent_decode r)
            end
        | _ => String a (percent_decode r)
        end
      else String a (percent_decode r)
  end.

Definition form_decode (s : string) : string := percent_decode (plus_to_space s).

(** The [application/x-www-form-urlencoded] parser: the name and value of
    every non-empty piece between [&]. *)
Definition parse_pair (piece : string) : string * string :=
  let (name, value) := cut "="%char piece in
  (form_decode name,
   form_decode (match value with Some v => v | None => EmptyString end)).

Definition searchParams (url : string) : list (string * string) :=
  map parse_pair
    (filter (fun p => negb (String.eqb p EmptyString)) (pieces "&"%char (query_of url))).

(** [searchParams.get(name)]: the first value of that name, or [null]. *)
Fixpoint get (name : string) (params : list (string * string)) : option string :=
  match params with
  | [] => None
  | (n, v) :: r => if String.eqb n name then Some v else get name r
  end.

(** What the route reads from a request, given its URL and its
    [payment-signature] header. *)
Definition request (url : string) (paymentSignature : option string)
  : Route.Request :=
  {| Route.query_to := get "to" (searchParams url);
     Route.query_amount := get "amount" (searchParams url);
     Route.query_network := get "network" (searchParams url);
     Route.header_payment_signature := paymentSignature |}.

End Url.

(* ===================================================================== *)
(** ** Names with their avatar ([src/lib/ens.ts], [src/app/[recipient]/page.tsx]) *)
(* ===================================================================== *)

Module Names.
Import JS Eff.

Section WithEnv.
Variable env : Env.
(** The avatar lookups of the name service.  They are read-only calls that
    the tip route never makes; the trace keeps to the calls of the route, so
    they are answered from the history without being entered in it. *)
Variable getEnsText : list event -> string -> string -> outcome (option string).
Variable getEnsAvatar : list event -> string -> outcome (option string).
(** [decodeURIComponent], which throws on a malformed escape. *)
Variable decodeURIComponent : string -> outcome string.

Definition ask {A} (answer : list event -> outcome A) : M A :=
  fun st => (answer (trace st), st).

(** [let avatar = null; try { avatar = await lookup } catch {}]. *)
Definition avatar_of (lookup : M (option string)) : M (option string) :=
  try_catch lookup (fun _ => ret None).

Definition textAvatar (name : string) : M (option string) :=
  avatar_of (n <- lift (normalize env name) ;;
             ask (fun h => getEnsText h n "avatar")).

Definition ensAvatar (name : string) : M (option string) :=
  avatar_of (n <- lift (normalize env name) ;;
             ask (fun h => getEnsAvatar h n)).

(** *** [src/lib/ens.ts]: [resolveNameWithMetadata] *)

Record Metadata : Type := mkMetadata {
  meta_address : option string;
  meta_avatar : option string;
  meta_name : string
}.

Definition not_found (name : string) : Metadata :=
  {| meta_address := None; meta_avatar := None; meta_name := name |}.

(** One of the two branches for a name with a suffix; they differ in the
    avatar lookup. *)
Definition suffixed (avatarLookup : string -> M (option string)) (name : string)
  : M Metadata :=
  try_catch
    (n <- lift (normalize env name) ;;
     address <- call (EnsAddress n) (fun h => getEnsAddress env h n) ;;
     match Route.present address with
     | None => ret (not_found name)
     | Some a =>
         avatar <- avatarLookup name ;;
         ret {| meta_address := Some (getAddress env a);
                meta_avatar := avatar;
                meta_name := name |}
     end)
    (fun _ => ret (not_found name)).

(** [resolveNameWithMetadata].  Its recursive call is on a name that ends in
    [.base.eth], so it is the first branch that runs. *)
Definition resolveNameWithMetadata (name : string) : M Metadata :=
  if endsWith name ".base.eth" then suffixed textAvatar name
  else if endsWith name ".eth" then suffixed ensAvatar name
  else if (matches_label name && Nat.leb 3 (String.length name))%bool then
    let fullName := name ++ ".base.eth" in
    result <- suffixed textAvatar fullName ;;
    match Route.present (meta_address result) with
    | Some _ => ret result
    | None => ret (not_found name)
    end
  else ret (not_found name).

(** *** [src/app/[recipient]/page.tsx] *)

Record Found : Type := mkFound {
  found_address : option string;
  found_avatar : option string
}.

Definition nothing : Found := {| found_address := None; found_avatar := None |}.

Definition resolveWith (avatarLookup : string -> M (option string)) (name : string)
  : M Found :=
  try_catch
    (n <- lift (normalize env name) ;;
     address <- call (EnsAddress n) (fun h => getEnsAddress env h n) ;;
     match Route.present address with
     | None => ret nothing
     | Some a =>
         avatar <- avatarLookup name ;;
         ret {| found_address := Some (getAddress env a); found_avatar := avatar |}
     end)
    (fun _ => ret nothing).

Definition resolveBasename : string -> M Found := resolveWith textAvatar.
Definition resolveEns : string -> M Found := resolveWith ensAvatar.

(** What the page hands to [TipPageClient]; [error] is absent in the
    answers that carry none. *)
Record Resolved : Type := mkResolved {
  address : option string;
  ensName : option string;
  ensAvatar_of : option string;
  error : option string
}.

Definition resolveRecipient (recipient : string) : M Resolved :=
  decoded <- lift (decodeURIComponent recipient) ;;
  if isAddress env decoded then
    ret {| address := Some (getAddress env decoded); ensName := None;
           ensAvatar_of := None; error := None |}
  else if endsWith decoded ".base.eth" then
    found <- resolveBasename decoded ;;
    match Route.present (found_address found) with
    | None =>
        ret {| address := None; ensName := Some decoded; ensAvatar_of := None;
               error := Some "Basename not found" |}
    | Some a =>
        ret {| address := Some a; ensName := Some decoded;
               ensAvatar_of := found_avatar found; error := None |}
    end
  else if endsWith decoded ".eth" then
    found <- resolveEns decoded ;;
    match Route.present (found_address found) with
    | None =>
        ret {| address := None; ensName := Some decoded; ensAvatar_of := None;
               error := Some "ENS name not found" |}
    | Some a =>
        ret {| address := Some a; ensName := Some decoded;
               ensAvatar_of := found_avatar found; error := None |}
    end
  else
    let invalid :=
      {| address := None; ensName := None; ensAvatar_of := None;
         error := Some "Invalid address or name" |} in
    if (matches_label decoded && Nat.leb 3 (String.length decoded))%bool then
      let basenameAttempt := decoded ++ ".base.eth" in
      found <- resolveBasename basenameAttempt ;;
      match Route.present (found_address found) with
      | Some a =>
          ret {| address := Some a; ensName := Some basenameAttempt;
                 ensAvatar_of := found_avatar found; error := None |}
      | None => ret invalid
      end
    else ret invalid.

(** [TipPageClient] shows the form unless [error || !address]. *)
Definition shows_form (r : Resolved) : bool :=
  match Route.present (error r), Route.present (address r) with
  | None, Some _ => true
  | _, _ => false
  end.

End WithEnv.
End Names.

(* ===================================================================== *)
(** ** Network configurations ([src/lib/x402.ts], [src/app/api/supported/route.ts]) *)
(* ===================================================================== *)

Module Supported.
Import JS Eff.

(** [network.split(":")[1]]. *)
Definition second_piece (network : string) : option string :=
  nth_error (Url.pieces ":"%char network) 1.

(** One value of [networkMap]. *)
Record Entry : Type := mkEntry {
  exactAsset : option string;
  exactExtra : option value;
  escrowExtra : option value
}.

Definition empty_entry : Entry :=
  {| exactAsset := None; exactExtra := None; escrowExtra := None |}.

(** The assignments made to the entry of a kind. *)
Definition record_kind (k : Kind) (entry : Entry) : Entry :=
  if String.eqb (kind_scheme k) "exact" then
    {| exactAsset := kind_asset k;
       exactExtra := Some (kind_extra k);
       escrowExtra := escrowExtra entry |}
  else if String.eqb (kind_scheme k) "escrow" then
    {| exactAsset := exactAsset entry;
       exactExtra := exactExtra entry;
       escrowExtra := Some (kind_extra k) |}
  else entry.

(** [networkMap.get(network)], creating the entry when there is none, then
    the assignments; a [Map] keeps its keys in insertion order. *)
Fixpoint upsert (k : Kind) (m : list (string * Entry)) : list (string * Entry) :=
  match m with
  | [] => [(kind_network k, record_kind k empty_entry)]
  | (n, entry) :: r =>
      if String.eqb n (kind_network k) then (n, record_kind k entry) :: r
      else (n, entry) :: upsert k r
  end.

(** The first loop of [getNetworkConfigs]. *)
Definition group (kinds : list Kind) : list (string * Entry) :=
  fold_left
    (fun m k =>
       if (negb (String.eqb (kind_scheme k) "exact")
           && negb (String.eqb (kind_scheme k) "escrow"))%bool
       then m else upsert k m)
    kinds [].

Definition usdc_token (asset : string) : value :=
  VObj [("address", VStr asset); ("symbol", VStr "USDC"); ("decimals", VNum 6 0)].

Section WithPlatform.
Variable env : Env.
(** The platform: the numbers and [parseInt(text, 10)] ([None] is
    [undefined]); the name of the first chain with this id in the registry
    of [viem/chains], if there is one and it has a name; the text of a
    number in a template; what [JSON.stringify] makes of a number; the
    elements a string spreads into; the error of spreading what cannot be
    iterated. *)
Variable Number : Type.
Variable parseInt : option string -> Number.
Variable chainName : Number -> option string.
Variable numberText : Number -> string.
Variable numberJson : Number -> value.
Variable characters : string -> list value.
Variable notIterable : value -> error.

(** [NetworkConfig]. *)
Record NetworkConfig : Type := mkConfig {
  network : string;
  chainId : Number;
  name : string;
  supportedInputTokens : list value;
  settlementTokens : value
}.

(** [getSupportedData], with the module variable [_supportedData] passed
    in and out. *)
Definition getSupportedData (supportedData : option (list Kind))
  : M (list Kind * option (list Kind)) :=
  match supportedData with
  | Some data => ret (data, supportedData)
  | None =>
      data <- X402.facilitator_getSupported env ;;
      ret (data, Some data)
  end.

(** [getChainName]. *)
Definition getChainName (chainId : Number) : string :=
  or_default (chainName chainId) ("Chain " ++ numberText chainId).

(** [[...(extra?.supportedInputTokens || [])]]. *)
Definition spread_tokens (extra : option value) : outcome (list value) :=
  let tokens :=
    match extra with
    | Some x => get_opt "supportedInputTokens" x
    | None => VUndefined
    end in
  if truthy tokens then
    match tokens with
    | VArr items => Ok items
    | VStr s => Ok (characters s)
    | _ => Throw (notIterable tokens)
    end
  else Ok [].

(** [t.address.toLowerCase() === entry.exactAsset.toLowerCase()]. *)
Definition is_asset (asset : string) (t : value) : outcome bool :=
  match t with
  | VNull => Throw (Error "Cannot read properties of null (reading 'address')")
  | VUndefined =>
      Throw (Error "Cannot read properties of undefined (reading 'address')")
  | _ =>
      match get_opt "address" t with
      | VStr a => Ok (String.eqb (toLowerCase a) (toLowerCase asset))
      | VUndefined =>
          Throw (Error "Cannot read properties of undefined (reading 'toLowerCase')")
      | VNull => Throw (Error "Cannot read properties of null (reading 'toLowerCase')")
      | _ => Throw (Error "t.address.toLowerCase is not a function")
      end
  end.

(** [array.some(predicate)] for a predicate that may throw. *)
Fixpoint some_m (p : value -> outcome bool) (l : list value) : outcome bool :=
  match l with
  | [] => Ok false
  | x :: r =>
      match p x with
      | Ok true => Ok true
      | Ok false => some_m p r
      | Throw e => Throw e
      end
  end.

(** The input tokens of one network: those of the escrow scheme, with USDC
    put in front when the exact scheme has an asset that is not among
    them. *)
Definition input_tokens (entry : Entry) : outcome (list value) :=
  match spread_tokens (escrowExtra entry) with
  | Throw e => Throw e
  | Ok inputTokens =>
      match Route.present (exactAsset entry) with
      | None => Ok inputTokens
      | Some asset =>
          match some_m (is_asset asset) inputTokens with
          | Throw e => Throw e
          | Ok true => Ok inputTokens
          | Ok false => Ok (usdc_token asset :: inputTokens)
          end
      end
  end.

Definition settlement_tokens (entry : Entry) : value :=
  let tokens :=
    match escrowExtra entry with
    | Some x => get_opt "settlementTokens" x
    | None => VUndefined
    end in
  if truthy tokens then tokens else VArr [].

(** One turn of the second loop. *)
Definition config_of (network : string) (entry : Entry) : outcome NetworkConfig :=
  let chainId := parseInt (second_piece network) in
  let name := getChainName chainId in
  match input_tokens entry with
  | Throw e => Throw e
  | Ok inputTokens =>
      Ok {| network := network; chainId := chainId; name := name;
            supportedInputTokens := inputTokens;
            settlementTokens := settlement_tokens entry |}
  end.

Fixpoint configs_of (m : list (string * Entry)) : outcome (list NetworkConfig) :=
  match m with
  | [] => Ok []
  | (network, entry) :: r =>
      match config_of network entry with
      | Throw e => Throw e
      | Ok c =>
          match configs_of r with
          | Throw e => Throw e
          | Ok cs => Ok (c :: cs)
          end
      end
  end.

(** [getNetworkConfigs]; the module variable after the call comes with
    the outcome. *)
Definition getNetworkConfigs (supportedData : option (list Kind)) (st : state)
  : outcome (list NetworkConfig) * option (list Kind) * state :=
  match getSupportedData supportedData st with
  | (Ok (kinds, data), st') => (configs_of (group kinds), data, st')
  | (Throw e, st') => (Throw e, supportedData, st')
  end.

(** A configuration as [JSON.stringify] sees it. *)
Definition config_value (c : NetworkConfig) : value :=
  VObj [("network", VStr (network c));
        ("chainId", numberJson (chainId c));
        ("name", VStr (name c));
        ("supportedInputTokens", VArr (supportedInputTokens c));
        ("settlementTokens", settlementTokens c)].

(** [GET] of [/api/supported]. *)
Definition GET (supportedData : option (list Kind)) (st : state)
  : Route.Response * option (list Kind) * state :=
  match getNetworkConfigs supportedData st with
  | (Ok networks, data, st') =>
      (Route.headers_set "Cache-Control"
         "public, s-maxage=300, stale-while-revalidate=600"
         (Route.NextResponse_json
            (VObj [("networks", VArr (map config_value networks))]) 200),
       data, st')
  | (Throw error, data, st') =>
      (Route.NextResponse_json
         (VObj [("error",
                 VStr ("Failed to fetch supported networks: "
                       ++ error_message error))])
         500,
       data, st')
  end.

End WithPlatform.
End Supported.

(* ===================================================================== *)
(** ** Example worlds, used to run the handlers on concrete requests *)
(* ===================================================================== *)

Module Example.
Import JS Eff Types.

Definition usdc : string := "0x833589fCD6eDb6E08f4c7C32D4f71b54bdA02913".
Definition weth : string := "0x4200000000000000000000000000000000000006".
Definition alice : string := "0x1111111111111111111111111111111111111111".
Definition base : string := "eip155:8453".

Definition is_hex_char (c : ascii) : bool :=
  match JSON.hex_val c with Some _ => true | None => false end.

Definition hex_address (s : string) : bool :=
  (startsWith "0x" s && Nat.eqb (String.length s) 42
   && all_chars is_hex_char (drop 2 s))%bool.

Definition exact_usdc (args : BuildArgs) : ExactRequirement :=
  {| exact_scheme := "exact";
     exact_network := arg_network args;
     exact_asset := Some usdc;
     exact_amount := "1000000";
     exact_payTo := arg_payTo args;
     exact_maxTimeoutSeconds := Some 600;
     exact_extra := Some (VObj [("name", VStr "USD Coin"); ("version", VStr "2")]) |}.

Definition escrow_weth (args : BuildArgs) : EscrowAccept :=
  {| accept_scheme := "escrow";
     accept_network := arg_network args;
     accept_price :=
       AssetAmount "1000000" (Some usdc)
         (Some (VObj [("swapData",
                       VObj [("inputToken", VStr weth);
                             ("outputToken", VStr usdc);
                             ("maxInputAmount", VStr "400000000000000")])]));
     accept_payTo := arg_payTo args;
     accept_maxTimeoutSeconds := None |}.

Definition kinds : list Kind :=
  [ {| kind_scheme := "exact"; kind_network := base;
       kind_asset := Some usdc; kind_extra := VObj [] |};
    {| kind_scheme := "escrow"; kind_network := base;
       kind_asset := None; kind_extra := VObj [] |} ].

(** A world in which everything answers. *)
Definition env : Env :=
  {| isAddress := hex_address;
     getAddress := fun a => a;
     normalize := fun n => Ok n;
     getEnsAddress := fun _ n =>
       Ok (if String.eqb n "alice.eth" then Some alice else None);
     getSupported := fun _ => Ok kinds;
     initialize := fun _ => Ok tt;
     buildPaymentRequirements := fun _ args => Ok [exact_usdc args];
     buildAcceptsResolved := fun _ args => Ok [escrow_weth args];
     preprocessSwapPayload := fun v => Ok v;
     verify := fun _ _ _ =>
       Ok {| isValid := true; invalidReason := None; payer := Some alice |};
     settle := fun _ _ _ =>
       Ok {| settle_success := true;
             settle_transaction := Some "0xfeed";
             settle_network := Some base;
             settle_errorReason := None |};
     syntaxErrorMessage := fun _ => "Unexpected token in JSON" |}.

(** The same world when the exact quote source is down and the escrow
    source has no route to offer. *)
Definition env_no_quotes : Env :=
  {| isAddress := isAddress env;
     getAddress := getAddress env;
     normalize := normalize env;
     getEnsAddress := getEnsAddress env;
     getSupported := getSupported env;
     initialize := initialize env;
     buildPaymentRequirements := fun _ _ => Throw (Error "exact scheme unavailable");
     buildAcceptsResolved := fun _ _ => Ok [];
     preprocessSwapPayload := preprocessSwapPayload env;
     verify := verify env;
     settle := settle env;
     syntaxErrorMessage := syntaxErrorMessage env |}.

(** The same world when only the exact quote source is down. *)
Definition env_exact_down : Env :=
  {| isAddress := isAddress env;
     getAddress := getAddress env;
     normalize := normalize env;
     getEnsAddress := getEnsAddress env;
     getSupported := getSupported env;
     initialize := initialize env;
     buildPaymentRequirements := fun _ _ => Throw (Error "exact scheme unavailable");
     buildAcceptsResolved := buildAcceptsResolved env;
     preprocessSwapPayload := preprocessSwapPayload env;
     verify := verify env;
     settle := settle env;
     syntaxErrorMessage := syntaxErrorMessage env |}.

(** The same world when the facilitator rejects every payment. *)
Definition env_rejecting : Env :=
  {| isAddress := isAddress env;
     getAddress := getAddress env;
     normalize := normalize env;
     getEnsAddress := getEnsAddress env;
     getSupported := getSupported env;
     initialize := initialize env;
     buildPaymentRequirements := buildPaymentRequirements env;
     buildAcceptsResolved := buildAcceptsResolved env;
     preprocessSwapPayload := preprocessSwapPayload env;
     verify := fun _ _ _ =>
       Ok {| isValid := false;
             invalidReason := Some "insufficient_funds";
             payer := None |};
     settle := settle env;
     syntaxErrorMessage := syntaxErrorMessage env |}.

(** A signed escrow payload, as the x402 client hands it to the hook. *)
Definition escrow_payload : value :=
  VObj [("x402Version", VNum 2 0);
        ("accepted",
         VObj [("scheme", VStr "escrow");
               ("network", VStr base);
               ("asset", VStr usdc);
               ("amount", VStr "1000000");
               ("payTo", VStr alice);
               ("maxTimeoutSeconds", VNum 600 0);
               ("extra",
                VObj [("swapData",
                       VObj [("inputToken", VStr weth);
                             ("aggregatorCalldata", VStr "H4sIAAAA")])])]);
        ("payload",
         VObj [("permit2Signature", VStr "0x5ea1");
               ("requestId", VStr "0x01")])].

End Example.

(* ===================================================================== *)
(** * Vocabulary of the statements *)
(* ===================================================================== *)

Import JS Eff Types.
Local Open Scope list_scope.

(** The state after further calls. *)
Definition add_events (st : state) (evs : list event) : state :=
  {| server_created := server_created st;
     supportedNetworks_cache := supportedNetworks_cache st;
     trace := trace st ++ evs |}.

Section SubmissionShape.
Variable env : Env.
Variables to amount network recipientAddress paymentSignature : string.
Variable h : list event.

Definition submitted : option value :=
  JSON.parse (Base64.decode paymentSignature).

(** The decoded value carries a truthy [accepted] and a truthy [payload]. *)
Definition complete (pp : value) : Prop :=
  pp <> VNull /\ pp <> VUndefined /\
  truthy (get_opt "accepted" pp) = true /\ truthy (get_opt "payload" pp) = true.

Definition full_of (pp : value) : value :=
  Route.fullPaymentPayload to amount network pp
    (get_opt "accepted" pp) (get_opt "payload" pp).

Definition internal_error (e : error) : Route.Response :=
  Route.payment_response
    (Route.error_result ("Payment processing error: " ++ error_message e)%string) 500.

Definition has_accepted (processed : value) : Prop :=
  processed <> VNull /\ processed <> VUndefined.

(** Every run of [handlePaymentSubmission] is one of these: the calls it
    makes, in order, and the response it gives. *)
Inductive submission_shape : list event -> Route.Response -> Prop :=
| shape_syntax_error :
    submitted = None ->
    submission_shape []
      (internal_error (Error (syntaxErrorMessage env (Base64.decode paymentSignature))))
| shape_not_an_object pp :
    submitted = Some pp -> pp = VNull \/ pp = VUndefined ->
    submission_shape []
      (internal_error
         (Error "Cannot destructure property 'accepted' of 'paymentPayload' as it is null."))
| shape_missing_field pp :
    submitted = Some pp -> pp <> VNull -> pp <> VUndefined ->
    (truthy (get_opt "accepted" pp) = false \/ truthy (get_opt "payload" pp) = false) ->
    submission_shape []
      (Route.NextResponse_json
         (VObj [("error", VStr "Invalid payment payload: missing accepted or payload")])
         400)
| shape_preprocess_throws pp e :
    submitted = Some pp -> complete pp ->
    preprocessSwapPayload env (full_of pp) = Throw e ->
    submission_shape [Preprocess (full_of pp)] (internal_error e)
| shape_no_accepted pp processed :
    submitted = Some pp -> complete pp ->
    preprocessSwapPayload env (full_of pp) = Ok processed ->
    processed = VNull \/ processed = VUndefined ->
    submission_shape [Preprocess (full_of pp)]
      (internal_error (Error "Cannot read properties of undefined (reading 'accepted')"))
| shape_verify_throws pp processed e :
    submitted = Some pp -> complete pp ->
    preprocessSwapPayload env (full_of pp) = Ok processed ->
    has_accepted processed ->
    verify env (h ++ [Preprocess (full_of pp)]) processed (get_opt "accepted" processed)
      = Throw e ->
    submission_shape
      [Preprocess (full_of pp); Verify processed (get_opt "accepted" processed)]
      (internal_error e)
| shape_invalid pp processed vr :
    submitted = Some pp -> complete pp ->
    preprocessSwapPayload env (full_of pp) = Ok processed ->
    has_accepted processed ->
    verify env (h ++ [Preprocess (full_of pp)]) processed (get_opt "accepted" processed)
      = Ok vr ->
    isValid vr = false ->
    submission_shape
      [Preprocess (full_of pp); Verify processed (get_opt "accepted" processed)]
      (Route.payment_response
         (Route.error_result
            (or_default (invalidReason vr) "Payment verification failed"))
         402)
| shape_settle_throws pp processed vr e :
    submitted = Some pp -> complete pp ->
    preprocessSwapPayload env (full_of pp) = Ok processed ->
    has_accepted processed ->
    verify env (h ++ [Preprocess (full_of pp)]) processed (get_opt "accepted" processed)
      = Ok vr ->
    isValid vr = true ->
    settle env
      (h ++ [Preprocess (full_of pp); Verify processed (get_opt "accepted" processed)])
      processed (get_opt "accepted" processed) = Throw e ->
    submission_shape
      [Preprocess (full_of pp);
       Verify processed (get_opt "accepted" processed);
       Settle processed (get_opt "accepted" processed)]
      (internal_error e)
| shape_settle_failed pp processed vr sr :
    submitted = Some pp -> complete pp ->
    preprocessSwapPayload env (full_of pp) = Ok processed ->
    has_accepted processed ->
    verify env (h ++ [Preprocess (full_of pp)]) processed (get_opt "accepted" processed)
      = Ok vr ->
    isValid vr = true ->
    settle env
      (h ++ [Preprocess (full_of pp); Verify processed (get_opt "accepted" processed)])
      processed (get_opt "accepted" processed) = Ok sr ->
    settle_success sr = false ->
    submission_shape
      [Preprocess (full_of pp);
       Verify processed (get_opt "accepted" processed);
       Settle processed (get_opt "accepted" processed)]
      (Route.payment_response
         (Route.error_result
            (or_default (settle_errorReason sr) "Payment settlement failed"))
         402)
| shape_settled pp processed vr sr :
    submitted = Some pp -> complete pp ->
    preprocessSwapPayload env (full_of pp) = Ok processed ->
    has_accepted processed ->
    verify env (h ++ [Preprocess (full_of pp)]) processed (get_opt "accepted" processed)
      = Ok vr ->
    isValid vr = true ->
    settle env
      (h ++ [Preprocess (full_of pp); Verify processed (get_opt "accepted" processed)])
      processed (get_opt "accepted" processed) = Ok sr ->
    settle_success sr = true ->
    submission_shape
      [Preprocess (full_of pp);
       Verify processed (get_opt "accepted" processed);
       Settle processed (get_opt "accepted" processed)]
      (Route.payment_response
         (Route.successResponse to amount network recipientAddress sr)
         200).

End SubmissionShape.




(** A response whose body is mirrored in [PAYMENT-RESPONSE] and which
    exposes both payment headers. *)
Definition mirrored (resp : Route.Response) : Prop :=
  Route.get_header "PAYMENT-RESPONSE" (Route.headers resp)
    = Some (Base64.encode (Route.body resp))
  /\ Route.get_header "Access-Control-Expose-Headers" (Route.headers resp)
    = Some "PAYMENT-REQUIRED, PAYMENT-RESPONSE".

(** The decoded header lacks [accepted] or [payload]. *)
Definition lacks_field (paymentSignature : string) : Prop :=
  exists pp,
    submitted paymentSignature = Some pp /\ pp <> VNull
    /\ (truthy (get_opt "accepted" pp) = false
        \/ truthy (get_opt "payload" pp) = false).

(** Two addresses are equal case-insensitively. *)
Definition same_token (a b : string) : Prop := toLowerCase a = toLowerCase b.

(** The [inputToken] of a requirement's [swapData], as its [extra] holds
    it. *)
Definition swap_input (r : PaymentRequirements) : value :=
  get_opt "inputToken" (get_opt "swapData" (extra r)).

(** The example world with the facilitator out of reach. *)
Definition env_facilitator_down : Env :=
  {| isAddress := isAddress Example.env;
     getAddress := getAddress Example.env;
     normalize := normalize Example.env;
     getEnsAddress := getEnsAddress Example.env;
     getSupported := fun _ => Throw (Error "fetch failed");
     initialize := initialize Example.env;
     buildPaymentRequirements := buildPaymentRequirements Example.env;
     buildAcceptsResolved := buildAcceptsResolved Example.env;
     preprocessSwapPayload := preprocessSwapPayload Example.env;
     verify := verify Example.env;
     settle := settle Example.env;
     syntaxErrorMessage := syntaxErrorMessage Example.env |}.

(** Another quote of the example world for a swap from WETH. *)
Definition second_quote : PaymentRequirements :=
  {| scheme := "escrow";
     network := Example.base;
     asset := Example.usdc;
     amount := "1000000";
     payTo := Example.alice;
     maxTimeoutSeconds := 600;
     extra := VObj [("swapData",
                     VObj [("inputToken", VStr Example.weth);
                           ("outputToken", VStr Example.usdc);
                           ("maxInputAmount", VStr "410000000000000")])] |}.

(** How a promise settles on an outcome. *)
Definition settled_of {A} (o : outcome A) : settled A :=
  match o with
  | Ok v => Fulfilled v
  | Throw e => Rejected e
  end.

(** The state after a run that made the calls [evs] and may have created
    the server. *)
Definition after (st : state) (created : bool) (evs : list event) : state :=
  {| server_created := (server_created st || created)%bool;
     supportedNetworks_cache := supportedNetworks_cache st;
     trace := trace st ++ evs |}.

(** Every run of the two promises of [handle402Response] is one of these:
    the calls made, in the order they are made, and how the exact and the
    escrow promise settle. *)
Inductive challenge_shape (env : Env) (args : BuildArgs) (st : state)
  : list event -> settled (list ExactRequirement)
    -> settled (list EscrowAccept) -> Prop :=
| shape_server_exists :
    server_created st = true ->
    challenge_shape env args st
      [BuildEscrow args; BuildExact args]
      (settled_of (buildPaymentRequirements env (trace st ++ [BuildEscrow args]) args))
      (settled_of (buildAcceptsResolved env (trace st) args))
| shape_facilitator_fails e :
    server_created st = false ->
    getSupported env (trace st) = Throw e ->
    challenge_shape env args st
      [GetSupported; BuildEscrow args]
      (Rejected e)
      (settled_of (buildAcceptsResolved env (trace st ++ [GetSupported]) args))
| shape_initialize_fails kinds e :
    server_created st = false ->
    getSupported env (trace st) = Ok kinds ->
    initialize env (trace st ++ [GetSupported; BuildEscrow args]) = Throw e ->
    challenge_shape env args st
      [GetSupported; BuildEscrow args; ServerInitialize]
      (Rejected e)
      (settled_of (buildAcceptsResolved env (trace st ++ [GetSupported]) args))
| shape_server_created kinds :
    server_created st = false ->
    getSupported env (trace st) = Ok kinds ->
    initialize env (trace st ++ [GetSupported; BuildEscrow args]) = Ok tt ->
    challenge_shape env args st
      [GetSupported; BuildEscrow args; ServerInitialize; BuildExact args]
      (settled_of
         (buildPaymentRequirements env
            (trace st ++ [GetSupported; BuildEscrow args; ServerInitialize]) args))
      (settled_of (buildAcceptsResolved env (trace st ++ [GetSupported]) args)).

(** The [PAYMENT-REQUIRED] header of a response carries these requirements:
    it is the base64 of the JSON array of their objects. *)
Definition carries (resp : Route.Response) (reqs : list PaymentRequirements) : Prop :=
  Route.get_header "PAYMENT-REQUIRED" (Route.headers resp)
  = Some (Base64.encode (JSON.stringify (VArr (map Route.requirement_value reqs)))).

(** The answer of [handle402Response], from the two settled promises. *)
Definition challenge_answer (to amount network : string)
    (exactResult : settled (list ExactRequirement))
    (escrowResult : settled (list EscrowAccept)) : Route.Response :=
  match Route.from_exact exactResult ++ Route.from_escrow escrowResult with
  | [] => Route.no_options
  | reqs => Route.challenge "Payment required" to amount network reqs
  end.

(** Two challenge requests with the same parameters, one after the other. *)
Definition two_challenges (env : Env) (to amount network recipientAddress : string)
  : M (Route.Response * Route.Response) :=
  first <- Route.handle402Response env to amount network recipientAddress ;;
  second <- Route.handle402Response env to amount network recipientAddress ;;
  ret (first, second).

(** The escrow source has an offer whenever it is asked. *)
Definition escrow_offers (env : Env) : Prop :=
  forall h args, exists a l, buildAcceptsResolved env h args = Ok (a :: l).

(** The quote sources answer a question the same way whatever happened
    before it: no time passes between two requests. *)
Definition steady_quotes (env : Env) : Prop :=
  (forall h h' args,
     buildPaymentRequirements env h args = buildPaymentRequirements env h' args)
  /\ (forall h h' args,
        buildAcceptsResolved env h args = buildAcceptsResolved env h' args).

(** A 402 whose [PAYMENT-REQUIRED] header carries a non-empty list. *)
Definition non_empty_challenge (resp : Route.Response) : Prop :=
  Route.status resp = 402 /\ exists r l, carries resp (r :: l).

(** The amount passes the test [isNaN(amountNum) || amountNum <= 0]. *)
Definition amount_accepted (amount : string) : bool :=
  negb (isNaN (parseFloat amount) || le_zero (parseFloat amount)).


(** The network the handler validates: the query parameter, or the first
    supported network when there is none. *)
Definition chosen_network (request : Route.Request) (nets : list string)
  : option string :=
  match nets with
  | [] => None
  | first :: _ =>
      Some (match Route.present (Route.query_network request) with
            | Some n => n
            | None => first
            end)
  end.

(** A positive decimal numeral: digits, optionally followed by a point and
    more digits, and nothing else. *)
Definition decimal_numeral (s : string) : bool :=
  let (ds, r) := span_digits s in
  (negb (String.eqb ds EmptyString)
   && match r with
      | EmptyString => true
      | String c r' =>
          Ascii.eqb c "."%char
          && (let (fs, r'') := span_digits r' in
              negb (String.eqb fs EmptyString) && String.eqb r'' EmptyString)
      end)%bool.

Definition sextet_ok (n : N) : bool :=
  (match Base64.unbase64 (Base64.char_of_sextet n) with
   | Some m => N.eqb m n
   | None => false
   end
   && negb (Ascii.eqb (Base64.char_of_sextet n) Base64.pad))%bool.

(** What may follow a number: the end of the text, or a character that
    cannot continue it. *)
Definition delimited (rest : string) : Prop :=
  match rest with
  | EmptyString => True
  | String c _ =>
      is_digit c = false /\ Ascii.eqb c "."%char = false
      /\ Ascii.eqb c "e"%char = false /\ Ascii.eqb c "E"%char = false
  end.

(** What stops a run of digits. *)
Definition stops (rest : string) : Prop :=
  match rest with
  | EmptyString => True
  | String c _ => is_digit c = false
  end.

Definition starts_number (ts : list JSON.token) : bool :=
  match ts with
  | JSON.TNumber _ _ :: _ => true
  | _ => false
  end.

(** The one way a decimal number [m * 10^e] is held: an integer has
    exponent 0, and the mantissa of any other number does not end in 0. *)
Definition canonical (m e : Z) : bool :=
  ((e =? 0) || ((e <? 0) && negb (m mod 10 =? 0)))%bool.

(** Every number is held in that way and is not directly followed by a
    number. *)
Fixpoint separated (ts : list JSON.token) : Prop :=
  match ts with
  | [] => True
  | JSON.TNumber m e :: r =>
      canonical m e = true /\ starts_number r = false /\ separated r
  | _ :: r => separated r
  end.

Fixpoint distinct (keys : list string) : bool :=
  match keys with
  | [] => true
  | k :: r => (negb (existsb (String.eqb k) r) && distinct r)%bool
  end.

(** A value that JSON text can carry as it is: no [undefined] anywhere,
    integer numbers, no repeated key in an object. *)
Fixpoint representable (v : value) : bool :=
  match v with
  | VUndefined => false
  | VNull | VBool _ | VStr _ => true
  | VNum _ e => Z.eqb e 0
  | VArr l => forallb representable l
  | VObj ps =>
      (forallb (fun kv => representable (snd kv)) ps && distinct (map fst ps))%bool
  end.

(** A value that JSON text can carry as it is: no [undefined] anywhere, no
    repeated key in an object, every number, integer or not, held in the one
    way it has. *)
Fixpoint json_value (v : value) : bool :=
  match v with
  | VUndefined => false
  | VNull | VBool _ | VStr _ => true
  | VNum m e => canonical m e
  | VArr l => forallb json_value l
  | VObj ps =>
      (forallb (fun kv => json_value (snd kv)) ps && distinct (map fst ps))%bool
  end.

Section ValueInduction.
Variable P : value -> Prop.
Hypothesis P_undefined : P VUndefined.
Hypothesis P_null : P VNull.
Hypothesis P_bool : forall b, P (VBool b).
Hypothesis P_num : forall m e, P (VNum m e).
Hypothesis P_str : forall s, P (VStr s).
Hypothesis P_arr : forall l, Forall P l -> P (VArr l).
Hypothesis P_obj : forall ps, Forall (fun kv => P (snd kv)) ps -> P (VObj ps).

Fixpoint value_induction (v : value) : P v :=
  match v with
  | VUndefined => P_undefined
  | VNull => P_null
  | VBool b => P_bool b
  | VNum m e => P_num m e
  | VStr s => P_str s
  | VArr l =>
      P_arr l
        ((fix items (l : list value) : Forall P l :=
            match l with
            | [] => Forall_nil P
            | x :: r => Forall_cons x (value_induction x) (items r)
            end) l)
  | VObj ps =>
      P_obj ps
        ((fix props (ps : list (string * value))
            : Forall (fun kv => P (snd kv)) ps :=
            match ps with
            | [] => Forall_nil _
            | kv :: r =>
                Forall_cons (P := fun kv => P (snd kv)) kv
                  (value_induction (snd kv)) (props r)
            end) ps)
  end.
End ValueInduction.

(** A token that opens a value. *)
Definition opens_value (t : JSON.token) : Prop :=
  match t with
  | JSON.TRBrace | JSON.TRBracket | JSON.TColon | JSON.TComma => False
  | _ => True
  end.

(** [parse_value] reads back the tokens of a JSON value. *)
Definition reads_back (v : value) : Prop :=
  json_value v = true ->
  forall fuel r,
    (List.length (JSON.tokens_of v) <= fuel)%nat ->
    JSON.parse_value fuel (JSON.tokens_of v ++ r) = Some (v, r).

Definition keeps_apart (v : value) : Prop :=
  json_value v = true ->
  forall r, separated r -> starts_number r = false ->
            separated (JSON.tokens_of v ++ r).

(** The properties of an object that are written: those whose value is not
    [undefined]. *)
Fixpoint written (ps : list (string * value)) : list (string * value) :=
  match ps with
  | [] => []
  | (k, VUndefined) :: r => written r
  | kv :: r => kv :: written r
  end.

(** A [PaymentResult] as it arrives: the properties that were written. *)
Definition on_the_wire (r : PaymentResult) : value :=
  match Client.result_value r with
  | VObj ps => VObj (written ps)
  | v => v
  end.

(* ===================================================================== *)
(** ** Vocabulary of the further properties *)
(* ===================================================================== *)

(** The kinds of the two schemes the application serves. *)
Definition tip_kinds (kinds : list Kind) : list Kind :=
  filter X402.is_tip_scheme kinds.

(** The state with another answer in the supported-networks variable. *)
Definition with_supportedNetworks (st : state) (l : option (list string)) : state :=
  {| server_created := server_created st;
     supportedNetworks_cache := l;
     trace := trace st |}.

(** The recipient has none of the shapes the resolver knows: it is no
    address, does not end in [.eth], and is no label of three characters or
    more. *)
Definition unrecognised (env : Env) (to : string) : Prop :=
  isAddress env to = false /\ endsWith to ".eth" = false
  /\ (matches_label to = false \/ (String.length to < 3)%nat).

(** A label that the resolver completes with [.base.eth]. *)
Definition bare_label (env : Env) (to : string) : Prop :=
  matches_label to = true /\ (3 <= String.length to)%nat
  /\ isAddress env to = false /\ isAddress env (to ++ ".base.eth")%string = false.

(** The calls of a payment submission. *)
Definition payment_event (ev : event) : Prop :=
  match ev with
  | Preprocess _ | Verify _ _ | Settle _ _ => True
  | _ => False
  end.

(** The calls that build a challenge, the server's first use included. *)
Definition challenge_event (ev : event) : Prop :=
  match ev with
  | GetSupported | ServerInitialize | BuildExact _ | BuildEscrow _ => True
  | _ => False
  end.

(** The calls that fetch a quote. *)
Definition quote_event (ev : event) : Prop :=
  match ev with
  | BuildExact _ | BuildEscrow _ => True
  | _ => False
  end.

(** The request with another [network] parameter. *)
Definition with_network (request : Route.Request) (n : option string)
  : Route.Request :=
  {| Route.query_to := Route.query_to request;
     Route.query_amount := Route.query_amount request;
     Route.query_network := n;
     Route.header_payment_signature := Route.header_payment_signature request |}.

(** The module state once the server exists and the supported networks are
    known. *)
Definition warm (st : state) (nets : list string) : Prop :=
  server_created st = true /\ supportedNetworks_cache st = Some nets.

(** The request passes the checks made before any call. *)
Definition well_formed (request : Route.Request) (to amount : string) : Prop :=
  Route.present (Route.query_to request) = Some to
  /\ Route.present (Route.query_amount request) = Some amount
  /\ amount_accepted amount = true.

(** The handler from the supported-networks lookup on, once the recipient
    is resolved. *)
Definition after_resolution (env : Env) (request : Route.Request)
    (to amount recipientAddress : string) : M Route.Response :=
  nets <- X402.getSupportedNetworks env ;;
  match chosen_network request nets with
  | None =>
      ret (Route.NextResponse_json
             (VObj [("error", VStr "No networks supported by facilitator")]) 500)
  | Some network =>
      if negb (matches_eip155 network) then
        ret (Route.bad_request "Invalid network format. Use eip155:CHAINID")
      else if negb (existsb (String.eqb network) nets) then
        ret (Route.NextResponse_json
               (VObj [("error", VStr ("Network " ++ network ++ " not supported")%string);
                      ("supportedNetworks", VArr (map VStr nets))])
               400)
      else
        match Route.present (Route.header_payment_signature request) with
        | None => Route.handle402Response env to amount network recipientAddress
        | Some paymentSignature =>
            Route.handlePaymentSubmission env to amount network recipientAddress
              paymentSignature
        end
  end.

(** The answers of the handler after its lookups that do not depend on the
    payment header. *)
Definition no_networks : Route.Response :=
  Route.NextResponse_json
    (VObj [("error", VStr "No networks supported by facilitator")]) 500.

Definition unresolved (to : string) : Route.Response :=
  Route.bad_request ("Could not resolve recipient: " ++ to).

Definition bad_format : Route.Response :=
  Route.bad_request "Invalid network format. Use eip155:CHAINID".

Definition unsupported (network : string) (nets : list string) : Route.Response :=
  Route.NextResponse_json
    (VObj [("error", VStr ("Network " ++ network ++ " not supported"));
           ("supportedNetworks", VArr (map VStr nets))])
    400.

(** The name service cannot be reached. *)
Definition name_service_down (env : Env) : Prop :=
  forall h n, exists e, getEnsAddress env h n = Throw e.

(** The state once the supported networks [nets] are known, after the calls
    [sevs] of the lookup. *)
Definition looked_up (st : state) (sevs : list event) (nets : list string) : state :=
  with_supportedNetworks (add_events st sevs) (Some nets).

(** How the supported networks [nets] came to be known in [st]: they were
    stored, or the facilitator has just been asked (the calls [sevs]). *)
Definition networks_known (env : Env) (st : state) (nets : list string)
    (sevs : list event) : Prop :=
  (supportedNetworks_cache st = Some nets /\ sevs = [])
  \/ (supportedNetworks_cache st = None /\ sevs = [GetSupported]
      /\ exists kinds, getSupported env (trace st) = Ok kinds
                       /\ nets = X402.networks_of kinds).

(** The answers given for the network alone. *)
Definition network_rejected (request : Route.Request) (nets : list string)
    (resp : Route.Response) : Prop :=
  (nets = [] /\ resp = no_networks)
  \/ exists network,
       chosen_network request nets = Some network
       /\ (resp = bad_format \/ resp = unsupported network nets).

(** A challenge built from [st]: the calls [evs] hold the escrow quote, made
    before the server is initialized and the exact quote fetched, and are
    the two quote calls alone once the server exists. *)
Definition challenge_built (to amount network recipientAddress : string)
    (st : state) (evs : list event) (resp : Route.Response) : Prop :=
  let args := Route.build_args amount network recipientAddress in
  exists ex es,
    resp = challenge_answer to amount network ex es
    /\ Forall challenge_event evs
    /\ In (BuildEscrow args) evs
    /\ (server_created st = true -> evs = [BuildEscrow args; BuildExact args])
    /\ (exists pre post,
          evs = pre ++ BuildEscrow args :: post
          /\ (pre = [] \/ pre = [GetSupported])
          /\ Forall (fun ev => ev = ServerInitialize \/ ev = BuildExact args) post).

(** The example world with the name service out of reach. *)
Definition env_name_service_down : Env :=
  {| isAddress := isAddress Example.env;
     getAddress := getAddress Example.env;
     normalize := normalize Example.env;
     getEnsAddress := fun _ _ => Throw (Error "fetch failed");
     getSupported := getSupported Example.env;
     initialize := initialize Example.env;
     buildPaymentRequirements := buildPaymentRequirements Example.env;
     buildAcceptsResolved := buildAcceptsResolved Example.env;
     preprocessSwapPayload := preprocessSwapPayload Example.env;
     verify := verify Example.env;
     settle := settle Example.env;
     syntaxErrorMessage := syntaxErrorMessage Example.env |}.

(** A challenge request and a submission for one dollar to [alice]. *)
Definition challenge_request : Route.Request :=
  {| Route.query_to := Some Example.alice;
     Route.query_amount := Some "1.00";
     Route.query_network := None;
     Route.header_payment_signature := None |}.

Definition submission_request : Route.Request :=
  {| Route.query_to := Some Example.alice;
     Route.query_amount := Some "1.00";
     Route.query_network := Some Example.base;
     Route.header_payment_signature :=
       Some (Client.paymentSignature Example.escrow_payload) |}.

(** The module state of a process that has served a challenge. *)
Definition warmed_up : state :=
  {| server_created := true;
     supportedNetworks_cache := Some [Example.base];
     trace := [] |}.

(** Requirements whose [extra] JSON text can carry as it is. *)
Definition wire_ready (reqs : list PaymentRequirements) : Prop :=
  Forall (fun r => representable (extra r) = true) reqs.

(** An error answer of the route: a JSON body whose [error] is [message]. *)
Definition route_error (resp : Route.Response) (message : string) : Prop :=
  exists more code,
    resp = Route.NextResponse_json (VObj (("error", VStr message) :: more)) code
    /\ code <> 402
    /\ message <> EmptyString
    /\ representable (VObj (("error", VStr message) :: more)) = true.

(** The requirement quotes a swap from the token at [tokenAddress]: its
    [swapData.inputToken] is a string, and when that names the token the
    quote has a [maxInputAmount]; and it does not settle in that token. *)
Definition swap_quote_for (tokenAddress : string) (r : PaymentRequirements) : Prop :=
  (String.eqb (scheme r) "exact" = true \/ String.eqb (scheme r) "escrow" = true)
  /\ String.eqb (toLowerCase (asset r)) tokenAddress = false
  /\ match swap_input r with
     | VStr s =>
         String.eqb (toLowerCase s) tokenAddress = true ->
         truthy (get_opt "maxInputAmount" (get_opt "swapData" (extra r))) = true
     | VUndefined | VNull => True
     | _ => False
     end.

(** A character that ends no piece of a query string. *)
Definition plain (c : ascii) : bool :=
  negb (Ascii.eqb c "&"%char || Ascii.eqb c "="%char || Ascii.eqb c "#"%char
        || Ascii.eqb c "?"%char).

(** An escrow requirement that swaps from the token at [tokenAddress]. *)
Definition swaps_from (tokenAddress : string) (r : PaymentRequirements) : bool :=
  (String.eqb (scheme r) "escrow"
   && match swap_input r with
      | VStr s => str_truthy s && String.eqb (toLowerCase s) tokenAddress
      | _ => false
      end)%bool.

(** A token of the example world and the quotes for it. *)
Definition weth_token : TipForm.Token :=
  {| TipForm.address := Example.weth; TipForm.symbol := "WETH";
     TipForm.decimals := 18 |}.

Definition usdc_token : TipForm.Token :=
  {| TipForm.address := Example.usdc; TipForm.symbol := "USDC";
     TipForm.decimals := 6 |}.

Definition example_accepts : list PaymentRequirements :=
  let args := Route.build_args "1.00" Example.base Example.alice in
  [Route.normalize_exact (Example.exact_usdc args);
   Route.normalize_escrow (Example.escrow_weth args)].

(** The request the requirements hook sends, as the route reads it. *)
Definition hook_request (recipient amount network : string) : Route.Request :=
  Url.request ("/api/tip?" ++ Hooks.tip_params recipient amount network) None.

(** The last kind of a scheme that the facilitator lists for a network. *)
Definition last_kind (scheme n : string) (kinds : list Kind) : option Kind :=
  find (fun k => (String.eqb (kind_scheme k) scheme
                  && String.eqb (kind_network k) n)%bool)
       (rev kinds).

(** The asset of the last [exact] kind of a network, if it names one. *)
Definition exact_asset (n : string) (kinds : list Kind) : option string :=
  match last_kind "exact" n kinds with
  | Some k => Route.present (kind_asset k)
  | None => None
  end.

(** A token that carries this address, whatever the case of its letters. *)
Definition has_address (asset : string) (t : value) : Prop :=
  exists a, get_opt "address" t = VStr a /\ toLowerCase a = toLowerCase asset.

(** Some kind of the two schemes is listed for the network. *)
Definition listed (n : string) (kinds : list Kind) : bool :=
  existsb (fun k => (X402.is_tip_scheme k && String.eqb (kind_network k) n)%bool) kinds.

(** A facilitator answer in which the escrow scheme takes WETH. *)
Definition weth_value : value :=
  VObj [("address", VStr Example.weth); ("symbol", VStr "WETH");
        ("decimals", VNum 18 0)].

Definition listing_kinds : list Kind :=
  [ {| kind_scheme := "exact"; kind_network := Example.base;
       kind_asset := Some Example.usdc; kind_extra := VObj [] |};
    {| kind_scheme := "escrow"; kind_network := Example.base;
       kind_asset := None;
       kind_extra := VObj [("supportedInputTokens", VArr [weth_value])] |} ].

(** [networkMap.get(n)]. *)
Fixpoint get_entry (n : string) (m : list (string * Supported.Entry))
  : option Supported.Entry :=
  match m with
  | [] => None
  | (n0, entry) :: r => if String.eqb n0 n then Some entry else get_entry n r
  end.

(** The entry that the kinds of a network leave in [networkMap]. *)
Definition entry_of (n : string) (kinds : list Kind) : Supported.Entry :=
  {| Supported.exactAsset :=
       match last_kind "exact" n kinds with
       | Some k => kind_asset k
       | None => None
       end;
     Supported.exactExtra := option_map kind_extra (last_kind "exact" n kinds);
     Supported.escrowExtra := option_map kind_extra (last_kind "escrow" n kinds) |}.

(* ===================================================================== *)
(** * Properties *)
(* ===================================================================== *)


(** ** Running computations *)

Lemma add_events_nil st : add_events st [] = st.
Proof. destruct st; unfold add_events; simpl; now rewrite app_nil_r. Qed.

Lemma add_events_app st a b :
  add_events (add_events st a) b = add_events st (a ++ b).
Proof. unfold add_events; simpl; now rewrite app_assoc. Qed.

Lemma trace_add_events st evs : trace (add_events st evs) = trace st ++ evs.
Proof. reflexivity. Qed.

Lemma call_run {A} (ev : event) (answer : list event -> outcome A) st :
  call ev answer st = (answer (trace st), add_events st [ev]).
Proof. reflexivity. Qed.

(** ** The shape of a payment submission *)

Lemma accepted_of_run processed st :
  (processed = VNull \/ processed = VUndefined) /\
    Route.accepted_of processed st =
      (Throw (Error "Cannot read properties of undefined (reading 'accepted')"), st)
  \/ has_accepted processed /\
     Route.accepted_of processed st = (Ok (get_opt "accepted" processed), st).
Proof.
  destruct processed; unfold has_accepted; simpl;
    first [ left; split; [ auto | reflexivity ]
          | right; split; [ split; discriminate | reflexivity ] ].
Qed.

Lemma destructure_run pp st :
  (pp = VNull \/ pp = VUndefined) /\
    Route.destructure pp st =
      (Throw (Error "Cannot destructure property 'accepted' of 'paymentPayload' as it is null."), st)
  \/ (pp <> VNull /\ pp <> VUndefined) /\
     Route.destructure pp st = (Ok (get_opt "accepted" pp, get_opt "payload" pp), st).
Proof.
  destruct pp; simpl;
    first [ left; split; [ auto | reflexivity ]
          | right; split; [ split; discriminate | reflexivity ] ].
Qed.

(** [handlePaymentSubmission] always answers, and its run has one of the
    shapes above; only the trace of the state changes. *)
Lemma submission_run env to amount network recipientAddress paymentSignature st :
  exists evs resp,
    Route.handlePaymentSubmission env to amount network recipientAddress
      paymentSignature st = (Ok resp, add_events st evs)
    /\ submission_shape env to amount network recipientAddress paymentSignature
         (trace st) evs resp.
Proof.
  unfold Route.handlePaymentSubmission, try_catch, bind, Route.JSON_parse.
  destruct (JSON.parse (Base64.decode paymentSignature)) as [pp|] eqn:Hp.
  2:{ exists [], (internal_error (Error (syntaxErrorMessage env (Base64.decode paymentSignature)))).
      rewrite add_events_nil. split; [reflexivity|]. now apply shape_syntax_error. }
  unfold ret at 1.
  destruct (destructure_run pp st) as [[Hn Hd]|[[Hn1 Hn2] Hd]]; rewrite Hd.
  { eexists [], _. rewrite add_events_nil. split; [reflexivity|].
    eapply shape_not_an_object; eauto. }
  destruct (truthy (get_opt "accepted" pp)) eqn:Ha; cbn [negb orb].
  2:{ eexists [], _. rewrite add_events_nil. split; [reflexivity|].
      eapply shape_missing_field; eauto. }
  destruct (truthy (get_opt "payload" pp)) eqn:Hpl; cbn [negb orb].
  2:{ eexists [], _. rewrite add_events_nil. split; [reflexivity|].
      eapply shape_missing_field; eauto. }
  assert (Hc : complete pp) by (repeat split; assumption).
  rewrite call_run.
  fold (full_of to amount network pp).
  destruct (preprocessSwapPayload env (full_of to amount network pp)) as [processed|e] eqn:Hpre.
  2:{ eexists [_], _. split; [reflexivity|]. eapply shape_preprocess_throws; eauto. }
  destruct (accepted_of_run processed (add_events st [Preprocess (full_of to amount network pp)]))
    as [[Hn Hacc]|[Hn Hacc]]; rewrite Hacc.
  { eexists [_], _. split; [reflexivity|]. eapply shape_no_accepted; eauto. }
  rewrite call_run, add_events_app, trace_add_events. cbn [app].
  destruct (verify env (trace st ++ [Preprocess (full_of to amount network pp)]) processed
              (get_opt "accepted" processed)) as [vr|e] eqn:Hv.
  2:{ eexists [_; _], _. split; [reflexivity|]. eapply shape_verify_throws; eauto. }
  destruct (isValid vr) eqn:Hval; cbn [negb].
  2:{ eexists [_; _], _. split; [reflexivity|]. eapply shape_invalid; eauto. }
  rewrite call_run, add_events_app, trace_add_events. cbn [app].
  destruct (settle env _ processed (get_opt "accepted" processed)) as [sr|e] eqn:Hs.
  2:{ eexists [_; _; _], _. split; [reflexivity|]. eapply shape_settle_throws; eauto. }
  destruct (settle_success sr) eqn:Hss; cbn [negb].
  - eexists [_; _; _], _. split; [reflexivity|]. eapply shape_settled; eauto.
  - eexists [_; _; _], _. split; [reflexivity|]. eapply shape_settle_failed; eauto.
Qed.

(** ** Facts about [JSON.parse] used by the route *)

Lemma parse_value_not_undefined fuel ts v r :
  JSON.parse_value fuel ts = Some (v, r) -> v <> VUndefined.
Proof.
  destruct fuel as [|f]; [discriminate|]. simpl.
  destruct ts as [|t ts]; [discriminate|].
  destruct t; try discriminate;
    try (intros H; inversion H; subst; discriminate).
  - destruct ts as [|t' ts'].
    + destruct (JSON.parse_members f []) as [[ms r']|]; [|discriminate].
      intros H; inversion H; subst; discriminate.
    + destruct t'; try (intros H; inversion H; subst; discriminate);
        (destruct (JSON.parse_members f _) as [[ms r']|]; [|discriminate];
         intros H; inversion H; subst; discriminate).
  - destruct ts as [|t' ts'].
    + destruct (JSON.parse_elements f []) as [[ms r']|]; [|discriminate].
      intros H; inversion H; subst; discriminate.
    + destruct t'; try (intros H; inversion H; subst; discriminate);
        (destruct (JSON.parse_elements f _) as [[ms r']|]; [|discriminate];
         intros H; inversion H; subst; discriminate).
Qed.

Lemma parse_not_undefined text : JSON.parse text <> Some VUndefined.
Proof.
  unfold JSON.parse. destruct (JSON.lex _ text) as [ts|]; [|discriminate].
  destruct (JSON.parse_value _ ts) as [[v r]|] eqn:H; [|discriminate].
  destruct r; [|discriminate].
  intros E; inversion E; subst. now apply parse_value_not_undefined in H.
Qed.

(** ** Splitting a short trace around one of its events *)

Ltac split_trace H :=
  match type of H with
  | _ = ?pre ++ _ :: _ =>
      destruct pre as [|? [|? [|? [|? ?]]]]; simpl in H;
      try discriminate H; inversion H; subst; clear H
  end.

(** ** C2: settlement follows a successful verification *)

(** C2.  For every payment submission, [facilitator.settle] is called only
    after [facilitator.verify] has answered [isValid = true] for the same
    processed payload and accepted requirement.  When [verify] answers
    invalid, the route responds 402 with the error-shaped result built from
    [invalidReason] (or the default text when there is none) and [settle] is
    never called. *)
Theorem C2_settle_only_after_valid_verify
    env to amount network recipientAddress paymentSignature st :
  exists evs resp,
    Route.handlePaymentSubmission env to amount network recipientAddress
      paymentSignature st = (Ok resp, add_events st evs)
    /\ (forall pre p a post,
          evs = pre ++ Settle p a :: post ->
          exists pre1 pre2 vr,
            pre = pre1 ++ Verify p a :: pre2
            /\ verify env (trace st ++ pre1) p a = Ok vr
            /\ isValid vr = true)
    /\ (forall pre p a post vr,
          evs = pre ++ Verify p a :: post ->
          verify env (trace st ++ pre) p a = Ok vr ->
          isValid vr = false ->
          Route.status resp = 402
          /\ Route.body resp =
               JSON.stringify
                 (Route.error_result
                    (or_default (invalidReason vr) "Payment verification failed"))
          /\ Route.get_header "PAYMENT-RESPONSE" (Route.headers resp) =
               Some (Base64.encode (Route.body resp))
          /\ forall p' a', ~ In (Settle p' a') evs).
Proof.
  destruct (submission_run env to amount network recipientAddress paymentSignature st)
    as (evs & resp & Hrun & Hshape).
  exists evs, resp. split; [exact Hrun|].
  inversion Hshape; subst; clear Hshape; split.
  all: try (intros pre p a post Hs; split_trace Hs; fail).
  all: try (intros pre p a post vr0 Hs; split_trace Hs; fail).
  all: try (intros pre p a post Hs; split_trace Hs;
            eexists [_], [], _; repeat split; eauto; fail).
  all: intros pre p a post vr0 Hs Hv Hval; split_trace Hs; try congruence.
  assert (vr = vr0) by congruence; subst vr0.
  split; [reflexivity|]. split; [reflexivity|]. split; [reflexivity|].
  intros p' a' [E|[E|[]]]; discriminate.
Qed.

(** ** C4 and C5: the answers of a submission *)

Lemma payment_response_mirrored v code : mirrored (Route.payment_response v code).
Proof. split; reflexivity. Qed.

Lemma payment_response_status v code :
  Route.status (Route.payment_response v code) = code.
Proof. reflexivity. Qed.

Lemma complete_not_lacking paymentSignature pp :
  submitted paymentSignature = Some pp -> complete pp ->
  ~ lacks_field paymentSignature.
Proof.
  intros Hs (_ & _ & Ha & Hp) (pp' & Hs' & _ & [H|H]);
    rewrite Hs in Hs'; inversion Hs'; subst; congruence.
Qed.

(** C4 (as the code has it).  A [PAYMENT-SIGNATURE] header whose decoded
    value lacks [accepted] or [payload] is answered with HTTP 400
    (malformed payload) and no call is made.  A header whose value does not
    decode to JSON is answered with HTTP 500 and the error-shaped result of
    the internal-error branch, not with 400. *)
Theorem C4_malformed_payload
    env to amount network recipientAddress paymentSignature st :
  (lacks_field paymentSignature ->
     exists resp,
       Route.handlePaymentSubmission env to amount network recipientAddress
         paymentSignature st = (Ok resp, st)
       /\ Route.status resp = 400
       /\ Route.body resp =
            JSON.stringify
              (VObj [("error",
                      VStr "Invalid payment payload: missing accepted or payload")]))
  /\ (JSON.parse (Base64.decode paymentSignature) = None ->
     exists resp,
       Route.handlePaymentSubmission env to amount network recipientAddress
         paymentSignature st = (Ok resp, st)
       /\ Route.status resp = 500
       /\ Route.body resp =
            JSON.stringify
              (Route.error_result
                 ("Payment processing error: "
                  ++ syntaxErrorMessage env (Base64.decode paymentSignature))%string)).
Proof.
  destruct (submission_run env to amount network recipientAddress paymentSignature st)
    as (evs & resp & Hrun & Hshape).
  split.
  - intros Hl. exists resp.
    inversion Hshape; subst; clear Hshape;
      try (exfalso; eapply complete_not_lacking; eauto; fail).
    + destruct Hl as (pp & Hs & _); congruence.
    + destruct Hl as (pp' & Hs & Hn & _).
      assert (pp' = pp) by congruence; subst pp'.
      match goal with
      | Hor : pp = VNull \/ pp = VUndefined |- _ =>
          destruct Hor as [E|E]; [contradiction|]
      end.
      subst pp. exfalso. now apply (parse_not_undefined (Base64.decode paymentSignature)).
    + rewrite add_events_nil in Hrun. repeat split; auto.
  - intros Hnone. exists resp.
    inversion Hshape; subst; clear Hshape;
      try (unfold submitted in *; congruence).
    rewrite add_events_nil in Hrun. repeat split; auto.
Qed.

(** On the example world: [e30=] decodes to the empty object, which lacks
    both fields; [bm90IGpzb24=] decodes to text that is not JSON. *)
Lemma C4_malformed_payload_witness :
  lacks_field "e30=" /\ JSON.parse (Base64.decode "bm90IGpzb24=") = None
  /\ (exists resp,
        Route.handlePaymentSubmission Example.env Example.alice "1.00"
          Example.base Example.alice "e30=" initial = (Ok resp, initial)
        /\ Route.status resp = 400
        /\ Route.body resp =
             JSON.stringify
               (VObj [("error",
                       VStr "Invalid payment payload: missing accepted or payload")]))
  /\ (exists resp,
        Route.handlePaymentSubmission Example.env Example.alice "1.00"
          Example.base Example.alice "bm90IGpzb24=" initial = (Ok resp, initial)
        /\ Route.status resp = 500
        /\ Route.body resp =
             JSON.stringify
               (Route.error_result
                  ("Payment processing error: "
                   ++ syntaxErrorMessage Example.env (Base64.decode "bm90IGpzb24="))%string)).
Proof.
  assert (Hl : lacks_field "e30=").
  { exists (VObj []). split; [reflexivity|]. split; [discriminate|]. left; reflexivity. }
  assert (Hn : JSON.parse (Base64.decode "bm90IGpzb24=") = None) by reflexivity.
  split; [exact Hl|]. split; [exact Hn|]. split.
  - exact (proj1 (C4_malformed_payload Example.env Example.alice "1.00"
                    Example.base Example.alice "e30=" initial) Hl).
  - exact (proj2 (C4_malformed_payload Example.env Example.alice "1.00"
                    Example.base Example.alice "bm90IGpzb24=" initial) Hn).
Defined.

(** The specification's 400 for a decode failure does not hold: a header
    that does not decode is answered with 500.  The request below carries the
    base64 of the text [not json]. *)
Lemma C4_counterexample :
  JSON.parse (Base64.decode "bm90IGpzb24=") = None
  /\ exists resp st',
       Route.GET Example.env
         (Route.mkRequest (Some Example.alice) (Some "1.00") None
                          (Some "bm90IGpzb24=")) initial = (Ok resp, st')
       /\ Route.status resp = 500
       /\ Route.status resp <> 400.
Proof.
  split; [reflexivity|].
  eexists _, _. split; [vm_compute; reflexivity|]. split; [reflexivity|discriminate].
Qed.

(** C5 (as the code has it).  In the success, verification-failure,
    settlement-failure and internal-error branches of a submission the JSON
    body is mirrored, base64-encoded, in [PAYMENT-RESPONSE] and
    [Access-Control-Expose-Headers] names both payment headers; these are
    exactly the answers with status 200, 402 and 500.  The malformed-payload
    answer (status 400) carries neither header. *)
Theorem C5_response_headers
    env to amount network recipientAddress paymentSignature st :
  exists evs resp,
    Route.handlePaymentSubmission env to amount network recipientAddress
      paymentSignature st = (Ok resp, add_events st evs)
    /\ ((lacks_field paymentSignature
         /\ Route.status resp = 400
         /\ Route.get_header "PAYMENT-RESPONSE" (Route.headers resp) = None
         /\ Route.get_header "Access-Control-Expose-Headers" (Route.headers resp) = None)
        \/ (~ lacks_field paymentSignature
            /\ (Route.status resp = 200 \/ Route.status resp = 402
                \/ Route.status resp = 500)
            /\ mirrored resp)).
Proof.
  destruct (submission_run env to amount network recipientAddress paymentSignature st)
    as (evs & resp & Hrun & Hshape).
  exists evs, resp. split; [exact Hrun|].
  inversion Hshape; subst; clear Hshape;
    try (right; split; [eapply complete_not_lacking; eauto|];
         unfold internal_error;
         split; [rewrite payment_response_status; auto|apply payment_response_mirrored];
         fail).
  - right. split.
    + intros (pp & Hs & _). unfold submitted in *. congruence.
    + unfold internal_error.
      split; [rewrite payment_response_status; auto|apply payment_response_mirrored].
  - right. split.
    + intros (pp' & Hs & Hn & _). assert (pp' = pp) by congruence; subst pp'.
      match goal with
      | Hor : pp = VNull \/ pp = VUndefined |- _ =>
          destruct Hor as [E|E]; [contradiction|]
      end.
      subst pp. now apply (parse_not_undefined (Base64.decode paymentSignature)).
    + unfold internal_error.
      split; [rewrite payment_response_status; auto|apply payment_response_mirrored].
  - left. split; [exists pp; auto|]. repeat split; reflexivity.
Qed.

(** The specification's "every branch" does not hold in the
    malformed-payload branch: the request below carries the base64 of [{}]
    and its answer has no [PAYMENT-RESPONSE] header and exposes nothing. *)
Lemma C5_counterexample :
  exists resp st',
    Route.GET Example.env
      (Route.mkRequest (Some Example.alice) (Some "1.00") None (Some "e30="))
      initial = (Ok resp, st')
    /\ Route.status resp = 400
    /\ Route.get_header "PAYMENT-RESPONSE" (Route.headers resp) = None
    /\ Route.get_header "Access-Control-Expose-Headers" (Route.headers resp) = None.
Proof.
  eexists _, _. split; [vm_compute; reflexivity|]. repeat split; reflexivity.
Qed.

(** ** C1: the client's choice of a requirement *)

Lemma find_first {B} (f : B -> bool) (l : list B) x :
  find f l = Some x ->
  exists l1 l2, l = l1 ++ x :: l2 /\ f x = true /\ forall y, In y l1 -> f y = false.
Proof.
  induction l as [|b l IH]; simpl; [discriminate|].
  destruct (f b) eqn:Hb.
  - intros E; inversion E; subst. exists [], l. repeat split; auto.
    intros y [].
  - intros E. destruct (IH E) as (l1 & l2 & -> & Hx & Hl1).
    exists (b :: l1), l2. repeat split; auto.
    intros y [<-|Hy]; auto.
Qed.

(** The policy reads [swapData.inputToken] through its casts: a string, or
    nothing. *)
Lemma view_swap_input r :
  Client.swap_inputToken (Client.view_requirement r)
  = Client.string_prop (swap_input r).
Proof.
  unfold Client.swap_inputToken, Client.view_requirement, swap_input.
  cbn [Client.extra].
  destruct (extra r) as [| |b|m e|s|l|ps]; try reflexivity;
    cbn [Client.swapData];
    destruct (get_opt "swapData" _); reflexivity.
Qed.

Lemma kept_by_asset tok r :
  Client.asset_matches (Client.view_requirement r) (toLowerCase tok) = true
  <-> same_token (asset r) tok.
Proof.
  unfold Client.asset_matches, same_token, str_eqb. cbn [Client.view_requirement Client.asset].
  apply String.eqb_eq.
Qed.

(** C1.  The policy keeps the compatible requirements and drops the others,
    leaving what it keeps in the order of the accepts list: an [exact]
    requirement is kept iff its [asset] equals the chosen token
    case-insensitively; any other requirement (an [escrow] one) iff its
    [extra.swapData.inputToken], when that is a non-empty string, equals the
    chosen token case-insensitively, and iff its [asset] does when there is
    no [swapData.inputToken].  From what is kept the selector returns the
    first requirement with [scheme == "exact"] if there is one, and the
    first kept requirement otherwise. *)
Theorem C1_filter_then_prefer_exact
    (inputToken : string) (version : Z) (accepts : list PaymentRequirements) :
  let kept :=
    Client.createInputTokenPolicy Client.view_requirement inputToken version accepts in
  let selected :=
    Client.selectRequirement Client.view_requirement inputToken version accepts in
  selected = Client.preferExactSelector Client.view_requirement version kept
  /\ (exists keep, kept = filter keep accepts)
  /\ (forall r, In r accepts -> scheme r = "exact" ->
        (In r kept <-> same_token (asset r) inputToken))
  /\ (forall r t, In r accepts -> scheme r <> "exact" ->
        swap_input r = VStr t -> t <> EmptyString ->
        (In r kept <-> same_token t inputToken))
  /\ (forall r, In r accepts -> scheme r <> "exact" ->
        truthy (swap_input r) = false ->
        (In r kept <-> same_token (asset r) inputToken))
  /\ ((exists r, In r kept /\ scheme r = "exact") ->
        exists r l1 l2,
          selected = Some r
          /\ scheme r = "exact"
          /\ kept = l1 ++ r :: l2
          /\ forall x, In x l1 -> scheme x <> "exact")
  /\ ((forall r, In r kept -> scheme r <> "exact") -> selected = hd_error kept).
Proof.
  intros kept selected. unfold selected, Client.selectRequirement. fold kept.
  split; [reflexivity|].
  split; [eexists; reflexivity|].
  assert (Hin : forall r, In r kept <->
            In r accepts
            /\ Client.policy_keeps (toLowerCase inputToken) (Client.view_requirement r)
               = true).
  { intros r. unfold kept, Client.createInputTokenPolicy. apply filter_In. }
  assert (Hscheme : forall r, Client.scheme (Client.view_requirement r) = scheme r)
    by reflexivity.
  assert (Hnot : forall s, s <> "exact"%string -> String.eqb s "exact" = false).
  { intros s Hs. now apply String.eqb_neq. }
  split.
  { intros r Hr He. rewrite Hin. unfold Client.policy_keeps, str_eqb.
    rewrite Hscheme, He. cbn [String.eqb Ascii.eqb Bool.eqb].
    rewrite kept_by_asset. tauto. }
  split.
  { intros r t Hr He Ht Hne. rewrite Hin. unfold Client.policy_keeps, str_eqb.
    rewrite Hscheme, (Hnot _ He), view_swap_input, Ht. cbn [Client.string_prop].
    assert (Htr : str_truthy t = true).
    { unfold str_truthy. destruct (String.eqb t "") eqn:E; auto.
      apply String.eqb_eq in E. contradiction. }
    rewrite Htr, String.eqb_eq. unfold same_token. tauto. }
  split.
  { intros r Hr He Ht. rewrite Hin. unfold Client.policy_keeps, str_eqb.
    rewrite Hscheme, (Hnot _ He), view_swap_input.
    destruct (swap_input r) as [| |b|m e|s|l|ps]; cbn [Client.string_prop];
      try (rewrite kept_by_asset; tauto).
    cbn [truthy] in Ht. rewrite Ht, kept_by_asset. tauto. }
  split.
  - intros (r & Hr & He). unfold Client.preferExactSelector.
    destruct (find (fun r0 => str_eqb (Client.scheme (Client.view_requirement r0))
                                "exact") kept) as [x|] eqn:Hf.
    + destruct (find_first _ _ _ Hf) as (l1 & l2 & Hk & Hx & Hl1).
      exists x, l1, l2. split; [reflexivity|]. split.
      * now apply String.eqb_eq in Hx.
      * split; [exact Hk|]. intros y Hy Hey. specialize (Hl1 y Hy).
        unfold str_eqb in Hl1. rewrite Hscheme, Hey in Hl1. discriminate.
    + exfalso. pose proof (find_none _ _ Hf r Hr) as Hn. simpl in Hn.
      unfold str_eqb in Hn. rewrite He in Hn. discriminate.
  - intros Hnone. unfold Client.preferExactSelector.
    destruct (find (fun r0 => str_eqb (Client.scheme (Client.view_requirement r0))
                                "exact") kept) as [x|] eqn:Hf; [|reflexivity].
    exfalso. destruct (find_some _ _ Hf) as [Hx He].
    apply (Hnone x Hx). now apply String.eqb_eq in He.
Qed.

(** On the accepts list of the example world: USDC selects the exact
    requirement, WETH the escrow requirement, and another token nothing. *)
Example C1_on_example_accepts :
  let args := Route.build_args "1.00" Example.base Example.alice in
  let accepts := [Route.normalize_exact (Example.exact_usdc args);
                  Route.normalize_escrow (Example.escrow_weth args)] in
  option_map Types.scheme
    (Client.selectRequirement Client.view_requirement
       "0x833589FCD6EDB6E08F4C7C32D4F71B54BDA02913" 2 accepts) = Some "exact"
  /\ option_map Types.scheme
       (Client.selectRequirement Client.view_requirement Example.weth 2 accepts)
     = Some "escrow"
  /\ Client.selectRequirement Client.view_requirement Example.alice 2 accepts = None.
Proof. repeat split; reflexivity. Qed.

(** Of two quotes for the chosen token the first is selected. *)
Lemma C1_filter_then_prefer_exact_witness :
  let args := Route.build_args "1.00" Example.base Example.alice in
  let accepts := [Route.normalize_exact (Example.exact_usdc args);
                  Route.normalize_escrow (Example.escrow_weth args);
                  second_quote] in
  Client.createInputTokenPolicy Client.view_requirement Example.weth 2 accepts
  = [Route.normalize_escrow (Example.escrow_weth args); second_quote]
  /\ Client.selectRequirement Client.view_requirement Example.weth 2 accepts
     = Some (Route.normalize_escrow (Example.escrow_weth args)).
Proof.
  intros args accepts.
  destruct (C1_filter_then_prefer_exact Example.weth 2 accepts)
    as (_ & _ & _ & _ & _ & _ & Hfirst).
  split; [reflexivity|].
  rewrite Hfirst; [reflexivity|].
  intros r [<-|[<-|[]]]; discriminate.
Defined.

(** ** The header codec: base64 *)

Lemma sextet_in_range (n : N) :
  (n < 64)%N -> In n (map N.of_nat (seq 0 64)).
Proof.
  intros H. rewrite <- (N2Nat.id n). apply in_map. apply in_seq. lia.
Qed.

Lemma all_sextets_ok : forallb sextet_ok (map N.of_nat (seq 0 64)) = true.
Proof. vm_compute. reflexivity. Qed.

Lemma unbase64_char (n : N) :
  (n < 64)%N ->
  Base64.unbase64 (Base64.char_of_sextet n) = Some n
  /\ Ascii.eqb (Base64.char_of_sextet n) Base64.pad = false.
Proof.
  intros H. pose proof all_sextets_ok as Hall.
  rewrite forallb_forall in Hall. specialize (Hall n (sextet_in_range n H)).
  unfold sextet_ok in Hall. apply andb_true_iff in Hall. destruct Hall as [H1 H2].
  split.
  - destruct (Base64.unbase64 (Base64.char_of_sextet n)); [|discriminate].
    apply N.eqb_eq in H1. now subst.
  - now apply negb_true_iff in H2.
Qed.

Lemma sextets_char n rest :
  (n < 64)%N ->
  Base64.sextets (String (Base64.char_of_sextet n) rest) = n :: Base64.sextets rest.
Proof.
  intros H. destruct (unbase64_char n H) as [H1 H2]. simpl. now rewrite H2, H1.
Qed.

Lemma sextets_pad rest : Base64.sextets (String Base64.pad rest) = [].
Proof. reflexivity. Qed.

Lemma byte_bound (a : ascii) : (N_of_ascii a < 256)%N.
Proof. apply N_ascii_bounded. Qed.

Ltac byte_arith :=
  repeat match goal with
         | a : ascii |- _ =>
             lazymatch goal with
             | _ : (N_of_ascii a < 256)%N |- _ => fail
             | _ => pose proof (byte_bound a)
             end
         end;
  zify; Z.to_euclidean_division_equations; lia.

Lemma base64_group3 (a b c : ascii) :
  let x := N_of_ascii a in
  let y := N_of_ascii b in
  let z := N_of_ascii c in
  let s1 := (x / 4)%N in
  let s2 := ((x mod 4) * 16 + y / 16)%N in
  let s3 := ((y mod 16) * 4 + z / 64)%N in
  let s4 := (z mod 64)%N in
  (s1 < 64 /\ s2 < 64 /\ s3 < 64 /\ s4 < 64
   /\ s1 * 4 + s2 / 16 = x
   /\ (s2 mod 16) * 16 + s3 / 4 = y
   /\ (s3 mod 4) * 64 + s4 = z)%N.
Proof. intros x y z s1 s2 s3 s4. subst x y z s1 s2 s3 s4. repeat split; byte_arith. Qed.

Lemma base64_group2 (a b : ascii) :
  let x := N_of_ascii a in
  let y := N_of_ascii b in
  let s1 := (x / 4)%N in
  let s2 := ((x mod 4) * 16 + y / 16)%N in
  let s3 := ((y mod 16) * 4)%N in
  (s1 < 64 /\ s2 < 64 /\ s3 < 64
   /\ s1 * 4 + s2 / 16 = x
   /\ (s2 mod 16) * 16 + s3 / 4 = y)%N.
Proof. intros x y s1 s2 s3. subst x y s1 s2 s3. repeat split; byte_arith. Qed.

Lemma base64_group1 (a : ascii) :
  let x := N_of_ascii a in
  let s1 := (x / 4)%N in
  let s2 := ((x mod 4) * 16)%N in
  (s1 < 64 /\ s2 < 64 /\ s1 * 4 + s2 / 16 = x)%N.
Proof. intros x s1 s2. subst x s1 s2. repeat split; byte_arith. Qed.

(** Decoding what was encoded gives the bytes back, for a string and for
    the same string with one or two more bytes in front. *)
Lemma base64_decode_encode_aux (s : string) :
  Base64.decode (Base64.encode s) = s
  /\ (forall a, Base64.decode (Base64.encode (String a s)) = String a s)
  /\ (forall a b,
        Base64.decode (Base64.encode (String a (String b s))) = String a (String b s)).
Proof.
  unfold Base64.decode.
  assert (H1 : forall a,
            Base64.bytes_of_sextets
              (Base64.sextets (Base64.encode (String a EmptyString)))
            = String a EmptyString).
  { intros a. destruct (base64_group1 a) as (B1 & B2 & E1).
    cbn [Base64.encode]. cbv zeta.
    rewrite !sextets_char by assumption. rewrite sextets_pad.
    cbn [Base64.bytes_of_sextets]. rewrite E1. now rewrite ascii_N_embedding. }
  assert (H2 : forall a b,
            Base64.bytes_of_sextets
              (Base64.sextets (Base64.encode (String a (String b EmptyString))))
            = String a (String b EmptyString)).
  { intros a b. destruct (base64_group2 a b) as (B1 & B2 & B3 & E1 & E2).
    cbn [Base64.encode]. cbv zeta.
    rewrite !sextets_char by assumption. rewrite sextets_pad.
    cbn [Base64.bytes_of_sextets]. rewrite E1, E2. now rewrite !ascii_N_embedding. }
  assert (H3 : forall a b c r,
            Base64.bytes_of_sextets (Base64.sextets (Base64.encode r)) = r ->
            Base64.bytes_of_sextets
              (Base64.sextets (Base64.encode (String a (String b (String c r)))))
            = String a (String b (String c r))).
  { intros a b c r IH.
    destruct (base64_group3 a b c) as (B1 & B2 & B3 & B4 & E1 & E2 & E3).
    cbn [Base64.encode]. cbv zeta.
    rewrite !sextets_char by assumption.
    cbn [Base64.bytes_of_sextets]. rewrite E1, E2, E3, IH.
    now rewrite !ascii_N_embedding. }
  induction s as [|c s (IH0 & IH1 & IH2)].
  - split; [reflexivity|]. split; [exact H1|exact H2].
  - split; [apply IH1|]. split; [intros a; apply IH2|].
    intros a b. now apply H3.
Qed.

(** [Buffer.from(Buffer.from(s).toString("base64"), "base64").toString()]
    is [s]. *)
Lemma base64_decode_encode (s : string) : Base64.decode (Base64.encode s) = s.
Proof. apply base64_decode_encode_aux. Qed.

(** ** The header codec: JSON text *)

Local Open Scope string_scope.

Lemma str_app_assoc (a b c : string) : (a ++ b) ++ c = a ++ (b ++ c).
Proof. induction a; simpl; congruence. Qed.

Lemma str_app_nil_r (a : string) : a ++ EmptyString = a.
Proof. induction a; simpl; congruence. Qed.

Lemma str_length_app (a b : string) :
  String.length (a ++ b) = (String.length a + String.length b)%nat.
Proof. induction a; simpl; congruence. Qed.

Lemma substring_all (s : string) : substring 0 (String.length s) s = s.
Proof. induction s; simpl; congruence. Qed.

(** *** String literals *)

Lemma lex_string_char (c : ascii) (f : nat) (rest : string) :
  JSON.lex_string (S f) (JSON.escape_char c ++ rest)
  = JSON.push (String c EmptyString) (JSON.lex_string f rest).
Proof.
  destruct c as [[] [] [] [] [] [] [] []]; reflexivity.
Qed.

Lemma lex_string_escape (s : string) :
  forall fuel rest,
    (String.length s < fuel)%nat ->
    JSON.lex_string fuel (JSON.escape s ++ String dquote rest) = Some (s, rest).
Proof.
  induction s as [|c s IH]; intros fuel rest Hf.
  - destruct fuel as [|f]; [inversion Hf|]. reflexivity.
  - destruct fuel as [|f]; [inversion Hf|].
    cbn [JSON.escape]. rewrite str_app_assoc, lex_string_char.
    rewrite IH by (simpl in Hf; lia). reflexivity.
Qed.

Lemma escape_char_length (c : ascii) : (1 <= String.length (JSON.escape_char c))%nat.
Proof. destruct c as [[] [] [] [] [] [] [] []]; simpl; lia. Qed.

Lemma escape_length (s : string) :
  (String.length s <= String.length (JSON.escape s))%nat.
Proof.
  induction s as [|c s IH]; simpl; [lia|].
  rewrite str_length_app. pose proof (escape_char_length c). lia.
Qed.

(** *** Number literals *)

Lemma nzhead_no_D0 (d d' : Decimal.uint) : Decimal.nzhead d <> Decimal.D0 d'.
Proof. induction d; simpl; try discriminate; auto. Qed.

Lemma unorm_D0 (d d' : Decimal.uint) :
  Decimal.unorm d = Decimal.D0 d' -> d' = Decimal.Nil.
Proof.
  unfold Decimal.unorm. pose proof (nzhead_no_D0 d) as H.
  destruct (Decimal.nzhead d); try discriminate.
  - intros E; inversion E; reflexivity.
  - intros E. exfalso. now apply (H d').
Qed.

Lemma to_uint_normal (n : N) : Decimal.unorm (N.to_uint n) = N.to_uint n.
Proof.
  rewrite <- (DecimalN.Unsigned.to_of (N.to_uint n)).
  now rewrite DecimalN.Unsigned.of_to.
Qed.

Lemma to_uint_not_nil (n : N) : N.to_uint n <> Decimal.Nil.
Proof.
  destruct n; simpl; [discriminate|].
  apply DecimalPos.Unsigned.to_uint_nonnil.
Qed.

Lemma uint_digits (d : Decimal.uint) :
  all_chars is_digit (NilEmpty.string_of_uint d) = true.
Proof. induction d; simpl; auto. Qed.

Lemma span_digits_app (ds rest : string) :
  all_chars is_digit ds = true -> delimited rest ->
  span_digits (ds ++ rest) = (ds, rest).
Proof.
  induction ds as [|c ds IH]; simpl; intros Hd Hr.
  - destruct rest as [|c r]; [reflexivity|].
    destruct Hr as (Hc & _). simpl. now rewrite Hc.
  - apply andb_true_iff in Hd. destruct Hd as [Hc Hd].
    rewrite Hc, IH by assumption. reflexivity.
Qed.

Lemma lex_frac_none (rest : string) :
  delimited rest -> JSON.lex_frac rest = Some (EmptyString, rest).
Proof.
  destruct rest as [|c r]; [reflexivity|].
  intros (_ & Hp & _). unfold JSON.lex_frac. now rewrite Hp.
Qed.

Lemma lex_exp_none (rest : string) :
  delimited rest -> JSON.lex_exp rest = Some (0%Z, rest).
Proof.
  destruct rest as [|c r]; [reflexivity|].
  intros (_ & _ & He & HE). unfold JSON.lex_exp. now rewrite He, HE.
Qed.

Lemma digits_value_print (n : N) :
  digits_value (NilZero.string_of_uint (N.to_uint n)) = Z.of_N n.
Proof.
  unfold digits_value.
  rewrite NilZero.usu by apply to_uint_not_nil.
  now rewrite DecimalN.Unsigned.of_to.
Qed.

Lemma digit_not_minus (c : ascii) :
  is_digit c = true -> Ascii.eqb c "-"%char = false.
Proof. destruct c as [[] [] [] [] [] [] [] []]; try reflexivity; discriminate. Qed.

Lemma lex_digits (c : ascii) (ds rest : string) :
  is_digit c = true -> Ascii.eqb c "0"%char = false ->
  all_chars is_digit ds = true -> delimited rest ->
  JSON.lex_number (String c ds ++ rest)
  = Some (digits_value (String c ds), 0%Z, rest).
Proof.
  intros Hc H0 Hds Hr. unfold JSON.lex_number. cbn [append].
  rewrite (digit_not_minus c Hc), H0.
  change (String c (ds ++ rest)) with (String c ds ++ rest).
  rewrite span_digits_app; [|simpl; now rewrite Hc, Hds|assumption].
  rewrite lex_frac_none, lex_exp_none by assumption.
  now rewrite str_app_nil_r.
Qed.

Lemma lex_zero (rest : string) :
  delimited rest ->
  JSON.lex_number (String "0"%char EmptyString ++ rest) = Some (0%Z, 0%Z, rest).
Proof.
  intros Hr. unfold JSON.lex_number. cbn [append]. cbn [Ascii.eqb Bool.eqb].
  rewrite lex_frac_none, lex_exp_none by assumption. reflexivity.
Qed.

(** The digits of a natural number read back as that number. *)
Lemma lex_unsigned (n : N) (rest : string) :
  delimited rest ->
  exists c ds,
    NilZero.string_of_uint (N.to_uint n) = String c ds
    /\ is_digit c = true
    /\ JSON.lex_number (String c ds ++ rest) = Some (Z.of_N n, 0%Z, rest).
Proof.
  intros Hr.
  pose proof (digits_value_print n) as Hval.
  pose proof (to_uint_normal n) as Hnorm.
  pose proof (to_uint_not_nil n) as Hnil.
  pose proof (uint_digits (N.to_uint n)) as Hdig.
  assert (Hstr : NilZero.string_of_uint (N.to_uint n)
                 = NilEmpty.string_of_uint (N.to_uint n)).
  { destruct (N.to_uint n); try reflexivity. contradiction. }
  rewrite Hstr in *.
  destruct (N.to_uint n) as [|d|d|d|d|d|d|d|d|d|d] eqn:E; [contradiction| | | | | | | | | |].
  1:{ (* the number is 0, written as the single digit 0 *)
    apply unorm_D0 in Hnorm. subst d.
    exists "0"%char, EmptyString. split; [reflexivity|]. split; [reflexivity|].
    rewrite lex_zero by assumption.
    change (digits_value "0" = Z.of_N n) in Hval. 
    now rewrite <- Hval. }
  all: cbn [NilEmpty.string_of_uint] in *;
    eexists _, (NilEmpty.string_of_uint d); split; [reflexivity|];
    split; [reflexivity|];
    rewrite lex_digits;
      [ now rewrite Hval
      | reflexivity
      | reflexivity
      | cbn [all_chars] in Hdig; apply andb_true_iff in Hdig; apply Hdig
      | assumption ].
Qed.

Lemma lex_number_minus (c : ascii) (s : string) (m e : Z) (r : string) :
  Ascii.eqb c "-"%char = false ->
  JSON.lex_number (String c s) = Some (m, e, r) ->
  JSON.lex_number (String "-"%char (String c s)) = Some ((- m)%Z, e, r).
Proof.
  intros Hc. unfold JSON.lex_number. cbn [Ascii.eqb Bool.eqb]. rewrite Hc.
  match goal with
  | |- match ?x with _ => _ end = _ -> _ => destruct x as [[ds' s2]|]
  end; [|discriminate].
  destruct (JSON.lex_frac s2) as [[fs s3]|]; [|discriminate].
  destruct (JSON.lex_exp s3) as [[x s4]|]; [|discriminate].
  intros E; inversion E; subst. reflexivity.
Qed.

Lemma print_int_lex (m : Z) (rest : string) :
  delimited rest ->
  exists c ds,
    JSON.print_number m 0 = String c ds
    /\ (c = "-"%char \/ is_digit c = true)
    /\ JSON.lex_number (String c ds ++ rest) = Some (m, 0%Z, rest).
Proof.
  intros Hr. unfold JSON.print_number. cbn [Z.leb Z.compare Z.pow Z.pow_pos Pos.iter].
  rewrite Z.mul_1_r. unfold JSON.print_int, JSON.print_nat.
  destruct (Z.ltb_spec m 0) as [Hneg|Hpos].
  - destruct (lex_unsigned (Z.to_N (- m)) rest Hr) as (c & ds & Hs & Hc & Hl).
    rewrite Hs. exists "-"%char, (String c ds). split; [reflexivity|].
    split; [now left|].
    cbn [append] in *.
    rewrite (lex_number_minus c (ds ++ rest) _ _ _ (digit_not_minus c Hc) Hl).
    f_equal. f_equal. f_equal. lia.
  - destruct (lex_unsigned (Z.to_N m) rest Hr) as (c & ds & Hs & Hc & Hl).
    rewrite Hs. exists c, ds. split; [reflexivity|]. split; [now right|].
    rewrite Hl. f_equal. f_equal. f_equal. lia.
Qed.

(** *** Numbers that are not integers *)

Lemma delimited_stops (rest : string) : delimited rest -> stops rest.
Proof. destruct rest; simpl; tauto. Qed.

Lemma span_digits_stop (ds rest : string) :
  all_chars is_digit ds = true -> stops rest ->
  span_digits (ds ++ rest) = (ds, rest).
Proof.
  induction ds as [|c ds IH]; cbn [all_chars append span_digits]; intros Hd Hr.
  - destruct rest as [|c r]; [reflexivity|]. unfold stops in Hr.
    cbn [span_digits]. now rewrite Hr.
  - apply andb_true_iff in Hd. destruct Hd as [Hc Hd].
    rewrite Hc, IH by assumption. reflexivity.
Qed.

Lemma all_chars_app (p : ascii -> bool) (a b : string) :
  all_chars p (a ++ b) = (all_chars p a && all_chars p b)%bool.
Proof.
  induction a as [|c a IH]; simpl; [reflexivity|].
  now rewrite IH, andb_assoc.
Qed.

Lemma split_at_app (n : nat) (s : string) :
  forall a b,
    JSON.split_at n s = (a, b) ->
    s = a ++ b /\ String.length a = Nat.min n (String.length s).
Proof.
  revert s. induction n as [|n IH]; intros s a b H.
  - simpl in H. inversion H; subst. split; reflexivity.
  - destruct s as [|c s]; simpl in H.
    + inversion H; subst. split; reflexivity.
    + destruct (JSON.split_at n s) as [a' b'] eqn:E.
      inversion H; subst. destruct (IH s a' b E) as [-> Hl].
      split; [reflexivity|]. simpl. now rewrite Hl.
Qed.

Lemma zeros_digits (n : nat) : all_chars is_digit (JSON.zeros n) = true.
Proof. induction n; simpl; auto. Qed.

Lemma zeros_length (n : nat) : String.length (JSON.zeros n) = n.
Proof. induction n; simpl; auto. Qed.

(** Zeros in front of a numeral do not change what it denotes. *)
Lemma digits_value_zero (s : string) :
  digits_value (String "0"%char s) = digits_value s.
Proof.
  unfold digits_value, NilZero.uint_of_string.
  cbn [NilEmpty.uint_of_string].
  destruct s as [|c s]; [reflexivity|].
  destruct (NilEmpty.uint_of_string (String c s)); reflexivity.
Qed.

Lemma digits_value_zeros (n : nat) (s : string) :
  digits_value (JSON.zeros n ++ s) = digits_value s.
Proof.
  induction n as [|n IH]; [reflexivity|].
  cbn [JSON.zeros append]. now rewrite digits_value_zero.
Qed.

(** The digits of a positive number: the first is not 0. *)
Lemma positive_digits (n : N) :
  (0 < n)%N ->
  exists c ds,
    NilZero.string_of_uint (N.to_uint n) = String c ds
    /\ is_digit c = true
    /\ Ascii.eqb c "0"%char = false
    /\ all_chars is_digit ds = true
    /\ digits_value (String c ds) = Z.of_N n.
Proof.
  intros Hpos.
  pose proof (digits_value_print n) as Hval.
  pose proof (to_uint_normal n) as Hnorm.
  pose proof (to_uint_not_nil n) as Hnil.
  pose proof (uint_digits (N.to_uint n)) as Hdig.
  assert (Hstr : NilZero.string_of_uint (N.to_uint n)
                 = NilEmpty.string_of_uint (N.to_uint n)).
  { destruct (N.to_uint n); try reflexivity. contradiction. }
  rewrite Hstr in *.
  destruct (N.to_uint n) as [|d|d|d|d|d|d|d|d|d|d] eqn:E; [contradiction| | | | | | | | | |].
  1:{ exfalso. apply unorm_D0 in Hnorm. subst d.
      change (digits_value "0" = Z.of_N n) in Hval.
      change (digits_value "0") with 0%Z in Hval. lia. }
  all: cbn [NilEmpty.string_of_uint] in *;
    eexists _, (NilEmpty.string_of_uint d); split; [reflexivity|];
    split; [reflexivity|]; split; [reflexivity|];
    split; [cbn [all_chars] in Hdig; apply andb_true_iff in Hdig; apply Hdig
           |exact Hval].
Qed.

Lemma print_nat_digits (p : Z) :
  0 < p ->
  exists c ds,
    JSON.print_nat p = String c ds
    /\ is_digit c = true
    /\ Ascii.eqb c "0"%char = false
    /\ all_chars is_digit ds = true
    /\ digits_value (String c ds) = p.
Proof.
  intros Hp. unfold JSON.print_nat.
  destruct (positive_digits (Z.to_N p) ltac:(lia)) as (c & ds & Hs & Hc & H0 & Hd & Hv).
  exists c, ds. repeat split; try assumption. rewrite Hv. lia.
Qed.

(** The exponent [e-x] of a printed number. *)
Lemma lex_exp_minus (x : Z) (rest : string) :
  0 < x -> delimited rest ->
  JSON.lex_exp (String "e"%char (String "-"%char (JSON.print_nat x ++ rest)))
  = Some (- x, rest).
Proof.
  intros Hx Hr.
  destruct (print_nat_digits x Hx) as (c & ds & Hs & Hc & _ & Hd & Hv).
  unfold JSON.lex_exp. cbn [Ascii.eqb Bool.eqb orb].
  rewrite Hs.
  rewrite span_digits_stop;
    [|cbn [all_chars]; now rewrite Hc, Hd|now apply delimited_stops].
  now rewrite Hv.
Qed.

Lemma lex_frac_digits (fs rest : string) (c : ascii) :
  all_chars is_digit (String c fs) = true -> stops rest ->
  JSON.lex_frac (String "."%char (String c fs ++ rest))
  = Some (String c fs, rest).
Proof.
  intros Hd Hr. unfold JSON.lex_frac. cbn [Ascii.eqb Bool.eqb].
  rewrite span_digits_stop by assumption. reflexivity.
Qed.

Lemma lex_frac_absent (c : ascii) (r : string) :
  Ascii.eqb c "."%char = false ->
  JSON.lex_frac (String c r) = Some (EmptyString, String c r).
Proof. intros H. unfold JSON.lex_frac. now rewrite H. Qed.

(** A number literal whose integer part does not start with 0. *)
Lemma lex_number_parts (c : ascii) (ds s2 fs s3 : string) (x : Z) (rest : string) :
  is_digit c = true -> Ascii.eqb c "0"%char = false ->
  all_chars is_digit ds = true -> stops s2 ->
  JSON.lex_frac s2 = Some (fs, s3) ->
  JSON.lex_exp s3 = Some (x, rest) ->
  JSON.lex_number (String c ds ++ s2)
  = Some (digits_value (String c ds ++ fs), x - Z.of_nat (String.length fs), rest).
Proof.
  intros Hc H0 Hds Hs2 Hf He. unfold JSON.lex_number. cbn [append].
  rewrite (digit_not_minus c Hc), H0.
  change (String c (ds ++ s2)) with (String c ds ++ s2).
  rewrite span_digits_stop; [|cbn [all_chars]; now rewrite Hc, Hds|assumption].
  rewrite Hf, He. reflexivity.
Qed.

(** A number literal whose integer part is 0. *)
Lemma lex_number_zero_parts (s2 fs s3 : string) (x : Z) (rest : string) :
  JSON.lex_frac s2 = Some (fs, s3) ->
  JSON.lex_exp s3 = Some (x, rest) ->
  JSON.lex_number (String "0"%char s2)
  = Some (digits_value (String "0"%char fs), x - Z.of_nat (String.length fs), rest).
Proof.
  intros Hf He. unfold JSON.lex_number. cbn [Ascii.eqb Bool.eqb].
  rewrite Hf, He. reflexivity.
Qed.

(** The text of a number that is not an integer reads back as the number:
    [ds] are the digits of its mantissa and [e] its exponent. *)
Lemma print_fraction_lex (c : ascii) (ds : string) (e : Z) (rest : string) :
  is_digit c = true -> Ascii.eqb c "0"%char = false ->
  all_chars is_digit ds = true -> e < 0 -> delimited rest ->
  exists c' ds',
    JSON.print_fraction (String c ds) e = String c' ds'
    /\ is_digit c' = true
    /\ JSON.lex_number (String c' ds' ++ rest)
       = Some (digits_value (String c ds), e, rest).
Proof.
  intros Hc H0 Hds He Hr. unfold JSON.print_fraction.
  set (k := String.length (String c ds)).
  set (n := Z.of_nat k + e).
  assert (Hk : (1 <= k)%nat) by (unfold k; simpl; lia).
  assert (Hall : all_chars is_digit (String c ds) = true)
    by (cbn [all_chars]; now rewrite Hc, Hds).
  destruct (Z.ltb_spec 0 n) as [Hn|Hn].
  - (* the point is inside the digits *)
    destruct (JSON.split_at (Z.to_nat n) (String c ds)) as [a b] eqn:Hsplit.
    destruct (split_at_app _ _ _ _ Hsplit) as [Hab Hlen].
    fold k in Hlen. rewrite Nat.min_l in Hlen by lia.
    assert (Hlb : String.length b = Z.to_nat (- e)).
    { assert (E : String.length (a ++ b) = k) by (now rewrite <- Hab).
      rewrite str_length_app in E. lia. }
    destruct a as [|c1 a]; [simpl in Hlen; lia|].
    cbn [append] in Hab. inversion Hab as [[Hc1 Hds']]. subst c1.
    destruct b as [|c2 b]; [simpl in Hlb; lia|].
    assert (Hparts : all_chars is_digit a = true
                     /\ all_chars is_digit (String c2 b) = true).
    { rewrite Hds', all_chars_app in Hds. now apply andb_true_iff in Hds. }
    destruct Hparts as [Ha Hb].
    exists c, (a ++ String "."%char (String c2 b)).
    split; [reflexivity|]. split; [exact Hc|].
    cbn [append]. rewrite str_app_assoc. cbn [append].
    change (String c (a ++ String "."%char (String c2 (b ++ rest))))
      with (String c a ++ String "."%char (String c2 b ++ rest)).
    rewrite (lex_number_parts c a _ (String c2 b) rest 0 rest Hc H0 Ha);
      [ | reflexivity
        | apply lex_frac_digits; [exact Hb|now apply delimited_stops]
        | now apply lex_exp_none ].
    cbn [append]. rewrite <- Hds'. f_equal. f_equal. f_equal. lia.
  - destruct (Z.ltb_spec (-6) n) as [Hn6|Hn6].
    + (* zeros in front *)
      exists "0"%char, (String "."%char (JSON.zeros (Z.to_nat (- n)) ++ String c ds)).
      split; [reflexivity|]. split; [reflexivity|].
      cbn [append]. rewrite str_app_assoc.
      assert (Hfrac : exists c3 fs,
                 JSON.zeros (Z.to_nat (- n)) ++ String c ds = String c3 fs).
      { destruct (Z.to_nat (- n)); cbn [JSON.zeros append]; eauto. }
      destruct Hfrac as (c3 & fs & Hfs).
      assert (Hfd : all_chars is_digit (String c3 fs) = true).
      { rewrite <- Hfs, all_chars_app, zeros_digits. exact Hall. }
      assert (Hfl : String.length (String c3 fs) = (Z.to_nat (- n) + k)%nat).
      { rewrite <- Hfs, str_length_app, zeros_length. reflexivity. }
      rewrite <- str_app_assoc, Hfs.
      rewrite (lex_number_zero_parts _ (String c3 fs) rest 0 rest);
        [ | apply lex_frac_digits; [exact Hfd|now apply delimited_stops]
          | now apply lex_exp_none ].
      rewrite digits_value_zero, Hfl, <- Hfs, digits_value_zeros.
      f_equal. f_equal. f_equal. lia.
    + (* the exponent form *)
      assert (Hx : 0 < 1 - n) by lia.
      destruct ds as [|d ds].
      * exists c, (String "e"%char (String "-"%char (JSON.print_nat (1 - n)))).
        split; [reflexivity|]. split; [exact Hc|].
        cbn [append].
        change (String c (String "e"%char
                  (String "-"%char (JSON.print_nat (1 - n) ++ rest))))
          with (String c EmptyString ++
                String "e"%char (String "-"%char (JSON.print_nat (1 - n) ++ rest))).
        rewrite (lex_number_parts c EmptyString _ EmptyString
                   (String "e"%char (String "-"%char (JSON.print_nat (1 - n) ++ rest)))
                   (- (1 - n)) rest Hc H0 eq_refl);
          [ | reflexivity
            | now apply lex_frac_absent
            | now apply lex_exp_minus ].
        rewrite str_app_nil_r. f_equal. f_equal. f_equal.
        unfold n, k. simpl String.length. lia.
      * exists c, (String "."%char (String d ds)
                   ++ String "e"%char (String "-"%char (JSON.print_nat (1 - n)))).
        split; [reflexivity|]. split; [exact Hc|].
        cbn [append]. rewrite str_app_assoc. cbn [append].
        change (String c (String "."%char (String d
                  (ds ++ String "e"%char
                     (String "-"%char (JSON.print_nat (1 - n) ++ rest))))))
          with (String c EmptyString ++
                String "."%char
                  (String d ds ++
                   String "e"%char (String "-"%char (JSON.print_nat (1 - n) ++ rest)))).
        rewrite (lex_number_parts c EmptyString _ (String d ds)
                   (String "e"%char (String "-"%char (JSON.print_nat (1 - n) ++ rest)))
                   (- (1 - n)) rest Hc H0 eq_refl);
          [ | reflexivity
            | apply lex_frac_digits; [exact Hds|reflexivity]
            | now apply lex_exp_minus ].
        cbn [append]. f_equal. f_equal. f_equal.
        unfold n, k. cbn [String.length]. lia.
Qed.

Lemma strip_canonical (m e : Z) :
  e < 0 -> m mod 10 <> 0 ->
  JSON.strip_zeros (Z.to_nat (- e)) m e = (m, e).
Proof.
  intros He Hm. destruct (Z.to_nat (- e)) as [|f]; [reflexivity|].
  cbn [JSON.strip_zeros].
  destruct (Z.ltb_spec e 0); [|lia].
  destruct (Z.eqb_spec (m mod 10) 0); [contradiction|reflexivity].
Qed.

Lemma canonical_cases (m e : Z) :
  canonical m e = true -> e = 0 \/ (e < 0 /\ m mod 10 <> 0).
Proof.
  unfold canonical. intros H. apply orb_true_iff in H. destruct H as [H|H].
  - left. now apply Z.eqb_eq.
  - right. apply andb_true_iff in H. destruct H as [He Hm].
    split; [now apply Z.ltb_lt|].
    apply negb_true_iff in Hm. now apply Z.eqb_neq.
Qed.

(** The text of a number reads back as the number. *)
Lemma print_number_lex (m e : Z) (rest : string) :
  canonical m e = true -> delimited rest ->
  exists c ds,
    JSON.print_number m e = String c ds
    /\ (c = "-"%char \/ is_digit c = true)
    /\ JSON.lex_number (String c ds ++ rest) = Some (m, e, rest).
Proof.
  intros Hcan Hr.
  destruct (canonical_cases m e Hcan) as [->|[He Hm]];
    [now apply print_int_lex|].
  unfold JSON.print_number.
  destruct (Z.leb_spec 0 e); [lia|].
  rewrite strip_canonical by assumption.
  destruct (Z.eqb_spec e 0); [lia|].
  assert (Hm0 : m <> 0) by (intros ->; now apply Hm).
  destruct (Z.ltb_spec m 0) as [Hneg|Hpos].
  - destruct (print_nat_digits (- m) ltac:(lia)) as (c & ds & Hs & Hc & H0 & Hd & Hv).
    rewrite Hs.
    destruct (print_fraction_lex c ds e rest Hc H0 Hd He Hr)
      as (c' & ds' & Hp & Hc' & Hl).
    rewrite Hp. exists "-"%char, (String c' ds').
    split; [reflexivity|]. split; [now left|].
    cbn [append] in *.
    rewrite (lex_number_minus c' (ds' ++ rest) _ _ _ (digit_not_minus c' Hc') Hl).
    rewrite Hv. f_equal. f_equal. f_equal. f_equal. lia.
  - destruct (print_nat_digits m ltac:(lia)) as (c & ds & Hs & Hc & H0 & Hd & Hv).
    rewrite Hs.
    destruct (print_fraction_lex c ds e rest Hc H0 Hd He Hr)
      as (c' & ds' & Hp & Hc' & Hl).
    rewrite Hp. exists c', ds'.
    split; [reflexivity|]. split; [now right|].
    rewrite Hl, Hv. reflexivity.
Qed.

(** *** Token sequences *)

Lemma drop_app (p rest : string) : drop (String.length p) (p ++ rest) = rest.
Proof.
  induction p as [|a p IH]; unfold drop in *; simpl.
  - rewrite Nat.sub_0_r. apply substring_all.
  - exact IH.
Qed.

Lemma delimited_print (ts : list JSON.token) :
  starts_number ts = false -> delimited (JSON.print_tokens ts).
Proof.
  destruct ts as [|t r]; [intros _; exact I|].
  destruct t; simpl; intros H; try discriminate; repeat split; reflexivity.
Qed.

Lemma number_start (c : ascii) :
  c = "-"%char \/ is_digit c = true ->
  JSON.is_ws c = false
  /\ Ascii.eqb c "{"%char = false /\ Ascii.eqb c "}"%char = false
  /\ Ascii.eqb c "["%char = false /\ Ascii.eqb c "]"%char = false
  /\ Ascii.eqb c ":"%char = false /\ Ascii.eqb c ","%char = false
  /\ Ascii.eqb c dquote = false
  /\ (Ascii.eqb c "-"%char || is_digit c)%bool = true.
Proof.
  intros [->|H]; [repeat split; reflexivity|].
  destruct c as [[] [] [] [] [] [] [] []]; try discriminate H; repeat split; reflexivity.
Qed.

Lemma lex_tokens (ts : list JSON.token) :
  forall fuel,
    separated ts -> (List.length ts < fuel)%nat ->
    JSON.lex fuel (JSON.print_tokens ts) = Some ts.
Proof.
  induction ts as [|t r IH]; intros fuel Hsep Hf.
  - destruct fuel; [inversion Hf|reflexivity].
  - destruct fuel as [|f]; [inversion Hf|].
    assert (Hf' : (List.length r < f)%nat) by (simpl in Hf; lia).
    cbn [JSON.print_tokens].
    destruct t.
    1-6: cbn [separated] in Hsep; cbn; rewrite (IH f Hsep Hf'); reflexivity.
    + (* a string *)
      cbn [separated] in Hsep. cbn [JSON.print_token]. unfold JSON.quote.
      cbn [append]. rewrite str_app_assoc. cbn [append].
      cbn [JSON.lex].
      replace (JSON.is_ws dquote) with false by reflexivity.
      replace (Ascii.eqb dquote "{"%char) with false by reflexivity.
      replace (Ascii.eqb dquote "}"%char) with false by reflexivity.
      replace (Ascii.eqb dquote "["%char) with false by reflexivity.
      replace (Ascii.eqb dquote "]"%char) with false by reflexivity.
      replace (Ascii.eqb dquote ":"%char) with false by reflexivity.
      replace (Ascii.eqb dquote ","%char) with false by reflexivity.
      replace (Ascii.eqb dquote dquote) with true by reflexivity.
      rewrite lex_string_escape.
      * rewrite (IH f Hsep Hf'). reflexivity.
      * cbn [String.length]. rewrite str_length_app.
        pose proof (escape_length s). lia.
    + (* a number *)
      cbn [separated] in Hsep. destruct Hsep as (Hcan & Hnext & Hsep).
      cbn [JSON.print_token].
      destruct (print_number_lex m e (JSON.print_tokens r) Hcan
                  (delimited_print r Hnext))
        as (c & ds & Hp & Hc & Hl).
      rewrite Hp.
      destruct (number_start c Hc) as (W & B1 & B2 & B3 & B4 & B5 & B6 & B7 & B8).
      cbn [append]. cbn [JSON.lex].
      rewrite W, B1, B2, B3, B4, B5, B6, B7, B8.
      change (String c (ds ++ JSON.print_tokens r))
        with (String c ds ++ JSON.print_tokens r).
      rewrite Hl, (IH f Hsep Hf'). reflexivity.
    + cbn [separated] in Hsep. cbn [JSON.print_token].
      change (JSON.lex (S f) ("true" ++ JSON.print_tokens r))
        with (JSON.cons_tok JSON.TTrue
                (JSON.lex f (drop (String.length "true")
                                  ("true" ++ JSON.print_tokens r)))).
      rewrite drop_app, (IH f Hsep Hf'). reflexivity.
    + cbn [separated] in Hsep. cbn [JSON.print_token].
      change (JSON.lex (S f) ("false" ++ JSON.print_tokens r))
        with (JSON.cons_tok JSON.TFalse
                (JSON.lex f (drop (String.length "false")
                                  ("false" ++ JSON.print_tokens r)))).
      rewrite drop_app, (IH f Hsep Hf'). reflexivity.
    + cbn [separated] in Hsep. cbn [JSON.print_token].
      change (JSON.lex (S f) ("null" ++ JSON.print_tokens r))
        with (JSON.cons_tok JSON.TNull
                (JSON.lex f (drop (String.length "null")
                                  ("null" ++ JSON.print_tokens r)))).
      rewrite drop_app, (IH f Hsep Hf'). reflexivity.
Qed.

Lemma print_token_length (t : JSON.token) :
  separated [t] -> (1 <= String.length (JSON.print_token t))%nat.
Proof.
  destruct t; try (simpl; lia).
  intros (Hcan & _). cbn [JSON.print_token].
  destruct (print_number_lex m e EmptyString Hcan I) as (c & ds & Hp & _).
  rewrite Hp. simpl. lia.
Qed.

Lemma separated_head (t : JSON.token) (r : list JSON.token) :
  separated (t :: r) -> separated [t] /\ separated r.
Proof. destruct t; simpl; tauto. Qed.

Lemma print_tokens_length (ts : list JSON.token) :
  separated ts -> (List.length ts <= String.length (JSON.print_tokens ts))%nat.
Proof.
  induction ts as [|t r IH]; intros Hs; [simpl; lia|].
  apply separated_head in Hs. destruct Hs as [Ht Hr].
  cbn [JSON.print_tokens List.length]. rewrite str_length_app.
  pose proof (print_token_length t Ht). specialize (IH Hr). lia.
Qed.

(** *** Values *)

Local Open Scope list_scope.

Lemma tokens_of_head (v : value) :
  exists t r, JSON.tokens_of v = t :: r /\ opens_value t
              /\ (starts_number (t :: r) = true -> exists m e, v = VNum m e).
Proof.
  destruct v as [| |b|m e|s|l|ps]; try destruct b;
    eexists _, _; (split; [reflexivity|]); (split; [exact I|]);
    simpl; intros H; try discriminate H; eauto.
Qed.

Lemma members_cons f k v r :
  v <> VUndefined ->
  JSON.members_tokens f ((k, v) :: r)
  = JSON.TString k :: JSON.TColon :: f v ++
      match JSON.members_tokens f r with
      | [] => []
      | rest => JSON.TComma :: rest
      end.
Proof. destruct v; intros H; try reflexivity. contradiction. Qed.

Lemma json_value_defined v : json_value v = true -> v <> VUndefined.
Proof. intros H E; subst; discriminate. Qed.

Lemma representable_defined v : representable v = true -> v <> VUndefined.
Proof. intros H E; subst; discriminate. Qed.

Lemma members_head f k v r :
  v <> VUndefined ->
  exists rest, JSON.members_tokens f ((k, v) :: r) = JSON.TString k :: rest.
Proof. intros H. rewrite members_cons by assumption. eauto. Qed.

Lemma elements_cons f v v2 l :
  JSON.elements_tokens f (v :: v2 :: l)
  = f v ++ JSON.TComma :: JSON.elements_tokens f (v2 :: l).
Proof. reflexivity. Qed.

Lemma elements_read_back (l : list value) :
  Forall reads_back l -> forallb json_value l = true -> l <> [] ->
  forall fuel r,
    (List.length (JSON.elements_tokens JSON.tokens_of l) < fuel)%nat ->
    JSON.parse_elements fuel
      (JSON.elements_tokens JSON.tokens_of l ++ JSON.TRBracket :: r)
    = Some (l, r).
Proof.
  induction l as [|v l IH]; intros HP Hwf Hne fuel r Hf; [contradiction|].
  inversion HP as [|? ? Hv Hl]; subst.
  cbn [forallb] in Hwf. apply andb_true_iff in Hwf. destruct Hwf as [Hwv Hwl].
  destruct fuel as [|f]; [inversion Hf|].
  destruct l as [|v2 l'].
  - cbn [JSON.elements_tokens] in *. cbn [JSON.parse_elements].
    rewrite (Hv Hwv f (JSON.TRBracket :: r)) by lia. reflexivity.
  - rewrite elements_cons in Hf |- *.
    rewrite length_app in Hf. cbn [List.length] in Hf.
    rewrite <- app_assoc. cbn [app]. cbn [JSON.parse_elements].
    rewrite (Hv Hwv f) by lia.
    rewrite (IH Hl Hwl ltac:(discriminate) f r) by lia. reflexivity.
Qed.

Lemma members_read_back (ps : list (string * value)) :
  Forall (fun kv => reads_back (snd kv)) ps ->
  forallb (fun kv => json_value (snd kv)) ps = true -> ps <> [] ->
  forall fuel r,
    (List.length (JSON.members_tokens JSON.tokens_of ps) < fuel)%nat ->
    JSON.parse_members fuel
      (JSON.members_tokens JSON.tokens_of ps ++ JSON.TRBrace :: r)
    = Some (ps, r).
Proof.
  induction ps as [|[k v] ps IH]; intros HP Hwf Hne fuel r Hf; [contradiction|].
  inversion HP as [|? ? Hv Hl]; subst. cbn [snd] in Hv.
  cbn [forallb snd] in Hwf. apply andb_true_iff in Hwf. destruct Hwf as [Hwv Hwl].
  pose proof (json_value_defined v Hwv) as Hdef.
  destruct fuel as [|f]; [inversion Hf|].
  rewrite members_cons in Hf |- * by assumption.
  cbn [List.length] in Hf. rewrite length_app in Hf.
  destruct ps as [|[k2 v2] ps'].
  - cbn [JSON.members_tokens] in *. rewrite app_nil_r in *.
    cbn [app]. cbn [JSON.parse_members].
    rewrite (Hv Hwv f (JSON.TRBrace :: r)) by lia. reflexivity.
  - assert (Hdef2 : v2 <> VUndefined).
    { cbn [forallb snd] in Hwl. apply andb_true_iff in Hwl.
      apply json_value_defined, Hwl. }
    destruct (members_head JSON.tokens_of k2 v2 ps' Hdef2) as (rest & Hrest).
    rewrite Hrest in Hf |- *. cbn [List.length] in Hf.
    cbn [app]. rewrite <- app_assoc. cbn [app]. cbn [JSON.parse_members].
    rewrite (Hv Hwv f) by lia.
    change (JSON.TString k2 :: rest ++ JSON.TRBrace :: r)
      with ((JSON.TString k2 :: rest) ++ JSON.TRBrace :: r).
    rewrite <- Hrest.
    rewrite (IH Hl Hwl ltac:(discriminate) f r) by (rewrite Hrest; simpl; lia).
    reflexivity.
Qed.

Lemma obj_set_fresh (acc : list (string * value)) k v :
  existsb (String.eqb k) (map fst acc) = false ->
  JSON.obj_set acc k v = acc ++ [(k, v)].
Proof.
  induction acc as [|[k' v'] acc IH]; simpl; [reflexivity|].
  intros H. apply orb_false_iff in H. destruct H as [Hk Hr].
  rewrite Hk, IH by assumption. reflexivity.
Qed.

Lemma existsb_app_false {X} (f : X -> bool) a b :
  existsb f a = false -> existsb f b = false -> existsb f (a ++ b) = false.
Proof. intros Ha Hb. rewrite existsb_app, Ha, Hb. reflexivity. Qed.

Lemma members_fold (ps acc : list (string * value)) :
  distinct (map fst ps) = true ->
  (forall k, In k (map fst ps) -> existsb (String.eqb k) (map fst acc) = false) ->
  fold_left (fun a kv => JSON.obj_set a (fst kv) (snd kv)) ps acc = acc ++ ps.
Proof.
  revert acc. induction ps as [|[k v] ps IH]; intros acc Hd Hfresh.
  - simpl. now rewrite app_nil_r.
  - cbn [map fst distinct] in Hd. apply andb_true_iff in Hd. destruct Hd as [Hk Hd].
    apply negb_true_iff in Hk.
    cbn [fold_left fst snd].
    rewrite obj_set_fresh by (apply Hfresh; left; reflexivity).
    rewrite IH; [now rewrite <- app_assoc|assumption|].
    intros k' Hin. rewrite map_app. apply existsb_app_false.
    + apply Hfresh. right. exact Hin.
    + cbn [map fst existsb]. rewrite orb_false_r.
      destruct (String.eqb k' k) eqn:E; [|reflexivity].
      apply String.eqb_eq in E. subst k'.
      exfalso. rewrite <- not_true_iff_false in Hk. apply Hk.
      apply existsb_exists. exists k. split; [exact Hin|apply String.eqb_refl].
Qed.

Lemma obj_of_distinct_members (ps : list (string * value)) :
  distinct (map fst ps) = true -> JSON.obj_of_members ps = VObj ps.
Proof.
  intros H. unfold JSON.obj_of_members. rewrite members_fold; auto.
Qed.

Lemma value_reads_back (v : value) : reads_back v.
Proof.
  induction v using value_induction; unfold reads_back; intros Hwf fuel r Hf.
  - discriminate Hwf.
  - destruct fuel; [inversion Hf|reflexivity].
  - destruct b; (destruct fuel; [inversion Hf|reflexivity]).
  - destruct fuel; [inversion Hf|reflexivity].
  - destruct fuel; [inversion Hf|reflexivity].
  - (* an array *)
    cbn [json_value] in Hwf. cbn [JSON.tokens_of] in Hf |- *.
    destruct fuel as [|f]; [inversion Hf|].
    destruct l as [|v l].
    + reflexivity.
    + cbn [List.length] in Hf. rewrite length_app in Hf. cbn [List.length] in Hf.
      cbn [app]. rewrite <- app_assoc. cbn [app].
      assert (Hv : json_value v = true).
      { cbn [forallb] in Hwf. now apply andb_true_iff in Hwf. }
      assert (Hhead : exists t rest,
                 JSON.elements_tokens JSON.tokens_of (v :: l) = t :: rest
                 /\ opens_value t).
      { destruct (tokens_of_head v) as (t & rest & Ht & Ho & _).
        destruct l as [|v2 l'].
        - cbn [JSON.elements_tokens]. rewrite Ht. eauto.
        - rewrite elements_cons, Ht. cbn [app]. eauto. }
      destruct Hhead as (t & rest & Ht & Ho).
      pose proof (elements_read_back (v :: l) H Hwf ltac:(discriminate) f r
                    ltac:(lia)) as Hel.
      rewrite Ht in Hel |- *. cbn [app] in Hel |- *.
      cbn [JSON.parse_value].
      destruct t; try contradiction; rewrite Hel; reflexivity.
  - (* an object *)
    cbn [json_value] in Hwf. apply andb_true_iff in Hwf.
    destruct Hwf as [Hwf Hd].
    cbn [JSON.tokens_of] in Hf |- *.
    destruct fuel as [|f]; [inversion Hf|].
    destruct ps as [|[k v] ps].
    + reflexivity.
    + cbn [List.length] in Hf. rewrite length_app in Hf. cbn [List.length] in Hf.
      cbn [app]. rewrite <- app_assoc. cbn [app].
      assert (Hv : v <> VUndefined).
      { cbn [forallb snd] in Hwf. apply andb_true_iff in Hwf.
        apply json_value_defined, Hwf. }
      destruct (members_head JSON.tokens_of k v ps Hv) as (rest & Hrest).
      pose proof (members_read_back ((k, v) :: ps) H Hwf ltac:(discriminate) f r
                    ltac:(lia)) as Hm.
      rewrite Hrest in Hm |- *. cbn [app] in Hm |- *.
      cbn [JSON.parse_value]. rewrite Hm.
      now rewrite obj_of_distinct_members.
Qed.

Lemma separated_cons (t : JSON.token) (r : list JSON.token) :
  starts_number [t] = false -> separated r -> separated (t :: r).
Proof. destruct t; simpl; auto; discriminate. Qed.

Lemma elements_keep_apart (l : list value) :
  Forall keeps_apart l -> forallb json_value l = true ->
  forall r, separated r ->
            separated (JSON.elements_tokens JSON.tokens_of l ++ JSON.TRBracket :: r).
Proof.
  induction l as [|v l IH]; intros HP Hwf r Hr; [exact Hr|].
  inversion HP as [|? ? Hv Hl]; subst.
  cbn [forallb] in Hwf. apply andb_true_iff in Hwf. destruct Hwf as [Hwv Hwl].
  destruct l as [|v2 l'].
  - cbn [JSON.elements_tokens]. apply (Hv Hwv); [exact Hr|reflexivity].
  - rewrite elements_cons, <- app_assoc. cbn [app].
    apply (Hv Hwv); [|reflexivity].
    apply separated_cons; [reflexivity|]. now apply IH.
Qed.

Lemma members_keep_apart (ps : list (string * value)) :
  Forall (fun kv => keeps_apart (snd kv)) ps ->
  forallb (fun kv => json_value (snd kv)) ps = true ->
  forall r, separated r ->
            separated (JSON.members_tokens JSON.tokens_of ps ++ JSON.TRBrace :: r).
Proof.
  induction ps as [|[k v] ps IH]; intros HP Hwf r Hr; [exact Hr|].
  inversion HP as [|? ? Hv Hl]; subst. cbn [snd] in Hv.
  cbn [forallb snd] in Hwf. apply andb_true_iff in Hwf. destruct Hwf as [Hwv Hwl].
  rewrite members_cons by now apply json_value_defined.
  cbn [app]. apply separated_cons; [reflexivity|].
  apply separated_cons; [reflexivity|].
  rewrite <- app_assoc.
  specialize (IH Hl Hwl r Hr).
  destruct (JSON.members_tokens JSON.tokens_of ps) as [|t rest].
  - cbn [app]. apply (Hv Hwv); [exact Hr|reflexivity].
  - apply (Hv Hwv); [|reflexivity].
    cbn [app]. apply separated_cons; [reflexivity|]. exact IH.
Qed.

Lemma value_keeps_apart (v : value) : keeps_apart v.
Proof.
  induction v using value_induction; unfold keeps_apart; intros Hwf r Hr Hn.
  - discriminate Hwf.
  - exact Hr.
  - destruct b; exact Hr.
  - cbn [json_value] in Hwf. cbn [JSON.tokens_of app separated]. auto.
  - exact Hr.
  - cbn [json_value] in Hwf. cbn [JSON.tokens_of app].
    apply separated_cons; [reflexivity|].
    rewrite <- app_assoc. cbn [app]. now apply elements_keep_apart.
  - cbn [json_value] in Hwf. apply andb_true_iff in Hwf. destruct Hwf as [Hwf _].
    cbn [JSON.tokens_of app].
    apply separated_cons; [reflexivity|].
    rewrite <- app_assoc. cbn [app]. now apply members_keep_apart.
Qed.

(** [JSON.parse(JSON.stringify(v))] is [v] for every JSON value. *)
Lemma parse_stringify_value (v : value) :
  json_value v = true -> JSON.parse (JSON.stringify v) = Some v.
Proof.
  intros Hwf. unfold JSON.parse, JSON.stringify.
  assert (Hsep : separated (JSON.tokens_of v)).
  { rewrite <- (app_nil_r (JSON.tokens_of v)).
    apply (value_keeps_apart v Hwf); [exact I|reflexivity]. }
  rewrite lex_tokens; [|exact Hsep|].
  2:{ pose proof (print_tokens_length _ Hsep). lia. }
  rewrite <- (app_nil_r (JSON.tokens_of v)) at 2.
  rewrite (value_reads_back v Hwf) by lia. reflexivity.
Qed.

Lemma forallb_weaken {X} (p q : X -> bool) (l : list X) :
  Forall (fun x => p x = true -> q x = true) l ->
  forallb p l = true -> forallb q l = true.
Proof.
  induction 1 as [|x l Hx _ IH]; [reflexivity|]. cbn [forallb].
  intros H. apply andb_true_iff in H. destruct H as [Hp Hl].
  now rewrite (Hx Hp), (IH Hl).
Qed.

(** Numbers that are not integers are written as JavaScript writes them,
    and read back. *)
Example fractions_round_trip :
  map JSON.stringify [VNum 5 (-1); VNum 125 (-2); VNum (-15) (-8); VNum 1 (-6)]
  = ["0.5"; "1.25"; "-1.5e-7"; "0.000001"]%string
  /\ JSON.parse (JSON.stringify (VArr [VNum 5 (-1); VNum (-15) (-8)]))
     = Some (VArr [VNum 5 (-1); VNum (-15) (-8)]).
Proof. split; [reflexivity|]. now apply parse_stringify_value. Qed.

(** A representable value is a JSON value whose numbers are integers. *)
Lemma representable_json_value (v : value) :
  representable v = true -> json_value v = true.
Proof.
  induction v using value_induction; cbn [representable json_value]; auto.
  - intros He. unfold canonical. now rewrite He.
  - now apply forallb_weaken.
  - intros Hwf. apply andb_true_iff in Hwf. destruct Hwf as [Hwf Hd].
    rewrite Hd, andb_true_r.
    revert Hwf. apply (forallb_weaken (fun kv => representable (snd kv))
                         (fun kv => json_value (snd kv))).
    exact H.
Qed.

(** [JSON.parse(JSON.stringify(v))] is [v] for every representable value. *)
Lemma parse_stringify (v : value) :
  representable v = true -> JSON.parse (JSON.stringify v) = Some v.
Proof. intros H. now apply parse_stringify_value, representable_json_value. Qed.


(** The header codec: decoding an encoded representable value gives it
    back. *)
Lemma header_round_trip (v : value) :
  representable v = true ->
  JSON.parse (Base64.decode (Route.encode_header v)) = Some v.
Proof.
  intros Hwf. unfold Route.encode_header.
  rewrite base64_decode_encode. now apply parse_stringify.
Qed.

Lemma members_written f (ps : list (string * value)) :
  JSON.members_tokens f (written ps) = JSON.members_tokens f ps.
Proof.
  induction ps as [|[k v] ps IH]; [reflexivity|].
  destruct v; cbn [written JSON.members_tokens]; rewrite ?IH; reflexivity.
Qed.

Lemma stringify_written (ps : list (string * value)) :
  JSON.stringify (VObj (written ps)) = JSON.stringify (VObj ps).
Proof.
  unfold JSON.stringify. cbn [JSON.tokens_of]. now rewrite members_written.
Qed.

Lemma object_round_trip (ps : list (string * value)) :
  representable (VObj (written ps)) = true ->
  JSON.parse (Base64.decode (Route.encode_header (VObj ps)))
  = Some (VObj (written ps)).
Proof.
  intros Hwf. unfold Route.encode_header.
  rewrite base64_decode_encode, <- stringify_written.
  now apply parse_stringify.
Qed.

(** ** C3: building the challenge *)

Lemma after_nil st : after st false [] = st.
Proof.
  destruct st; unfold after; simpl. now rewrite orb_false_r, app_nil_r.
Qed.

Lemma after_events st evs : after st false evs = add_events st evs.
Proof. destruct st; unfold after, add_events; simpl. now rewrite orb_false_r. Qed.

Lemma after_after st c evs c' evs' :
  after (after st c evs) c' evs' = after st (c || c') (evs ++ evs').
Proof. unfold after; simpl. now rewrite orb_assoc, app_assoc. Qed.

Lemma add_events_after st c evs evs' :
  add_events (after st c evs) evs' = after st c (evs ++ evs').
Proof. unfold after, add_events; simpl. now rewrite app_assoc. Qed.

Lemma settle_one_ok {A} (m : M A) st :
  exists r st', settle_one m st = (Ok r, st').
Proof.
  unfold settle_one. destruct (m st) as [[a|e] st']; eauto.
Qed.

(** [getServer] is its start followed by its resumption. *)
Lemma getServer_split env st :
  X402.getServer env st
  = (started <- X402.getServer_start env ;; X402.getServer_resume env started) st.
Proof.
  unfold X402.getServer, X402.getServer_start, X402.getServer_resume, bind, get_state.
  destruct (server_created st); [reflexivity|].
  unfold set_server_created, X402.facilitator_getSupported. rewrite !call_run.
  unfold lift. destruct (getSupported env _); reflexivity.
Qed.

(** The first promise, run on its own, is its start followed by its
    resumption. *)
Lemma build_exact_split env args st :
  Route.build_exact env args st
  = (started <- X402.getServer_start env ;; Route.build_exact_resume env args started) st.
Proof.
  unfold Route.build_exact, Route.build_exact_resume. unfold bind at 1.
  rewrite getServer_split. unfold bind.
  destruct (X402.getServer_start env st) as [[s|e] st1]; reflexivity.
Qed.

(** The escrow promise always makes its call, and settles by its answer. *)
Lemma build_escrow_settles env args st :
  settle_one (Route.build_escrow env args) st =
    (Ok (settled_of (buildAcceptsResolved env (trace st) args)),
     add_events st [BuildEscrow args]).
Proof.
  unfold settle_one, Route.build_escrow. rewrite call_run.
  destruct (buildAcceptsResolved env (trace st) args); reflexivity.
Qed.

(** The two promises: their calls, in order, and how they settle. *)
Lemma promises_run env args st :
  exists evs ex es,
    challenge_shape env args st evs ex es
    /\ allSettled2 (X402.getServer_start env) (Route.build_exact_resume env args)
         (Route.build_escrow env args) st
       = (Ok (ex, es), after st true evs).
Proof.
  unfold allSettled2, X402.getServer_start. unfold bind at 1, get_state.
  destruct (server_created st) eqn:Hc.
  - (* the server exists *)
    unfold ret at 1. unfold bind at 1. rewrite build_escrow_settles.
    unfold bind at 1, settle_one, Route.build_exact_resume, X402.getServer_resume.
    unfold bind at 1, ret at 1. rewrite call_run. cbn [trace add_events].
    eexists _, _, _. split; [apply shape_server_exists; exact Hc|].
    unfold after, add_events, settled_of, ret. rewrite Hc. cbn.
    rewrite <- app_assoc.
    destruct (buildPaymentRequirements env _ args); reflexivity.
  - unfold bind at 1, set_server_created, X402.facilitator_getSupported.
    rewrite call_run. cbn [trace].
    unfold bind at 1. rewrite build_escrow_settles. cbn [trace add_events].
    unfold bind at 1, settle_one, Route.build_exact_resume, X402.getServer_resume.
    destruct (getSupported env (trace st)) as [kinds|e] eqn:Hs.
    + unfold bind at 1. unfold bind at 1, lift. rewrite call_run. cbn [trace add_events].
      rewrite <- app_assoc. cbn [app].
      destruct (initialize env (trace st ++ [GetSupported; BuildEscrow args]))
        as [[]|e] eqn:Hi.
      * rewrite call_run. cbn [trace add_events].
        rewrite <- app_assoc. cbn [app].
        eexists _, _, _. split; [eapply shape_server_created; eassumption|].
        unfold after, add_events, settled_of, ret. cbn.
        rewrite orb_true_r, <- ?app_assoc. cbn [app].
        destruct (buildPaymentRequirements env _ args); reflexivity.
      * eexists _, _, _. split; [eapply shape_initialize_fails; eassumption|].
        unfold after, add_events, ret. cbn. rewrite orb_true_r, <- ?app_assoc.
        reflexivity.
    + unfold bind at 1. unfold bind at 1, lift.
      eexists _, _, _. split; [eapply shape_facilitator_fails; eassumption|].
      unfold after, add_events, ret. cbn. rewrite orb_true_r, <- ?app_assoc.
      reflexivity.
Qed.

(** The run of the challenge handler: its calls and its answer. *)
Lemma challenge_run env to amount network recipientAddress st :
  let args := Route.build_args amount network recipientAddress in
  exists evs ex es,
    challenge_shape env args st evs ex es
    /\ Route.handle402Response env to amount network recipientAddress st
       = (Ok (challenge_answer to amount network ex es), after st true evs).
Proof.
  intros args.
  destruct (promises_run env args st) as (evs & ex & es & Hshape & Hrun).
  exists evs, ex, es. split; [exact Hshape|].
  unfold Route.handle402Response, try_catch, Route.getCachedRequirements.
  unfold bind at 1. unfold ret at 1. fold args.
  unfold bind at 1. rewrite Hrun.
  unfold challenge_answer.
  destruct (Route.from_exact ex ++ Route.from_escrow es) eqn:E; reflexivity.
Qed.

Lemma challenge_answer_status to amount network ex es :
  (Route.from_exact ex ++ Route.from_escrow es = []
   /\ challenge_answer to amount network ex es = Route.no_options)
  \/ (Route.from_exact ex ++ Route.from_escrow es <> []
      /\ challenge_answer to amount network ex es
         = Route.challenge "Payment required" to amount network
             (Route.from_exact ex ++ Route.from_escrow es)).
Proof.
  unfold challenge_answer.
  destruct (Route.from_exact ex ++ Route.from_escrow es) eqn:E.
  - left; auto.
  - right; split; [discriminate|reflexivity].
Qed.

Lemma map_not_nil {X Y} (f : X -> Y) l : l <> [] -> map f l <> [].
Proof. destruct l; [contradiction|discriminate]. Qed.

Lemma challenge_carries messageText to amount network reqs :
  carries (Route.challenge messageText to amount network reqs) reqs.
Proof. reflexivity. Qed.

(** The text of a non-empty list of requirements is not the text of the
    empty list. *)
Lemma carried_text_not_empty resp r l h :
  carries resp (r :: l) ->
  Route.get_header "PAYMENT-REQUIRED" (Route.headers resp) = Some h ->
  Base64.decode h <> "[]"%string.
Proof.
  unfold carries. intros Hc Hh.
  assert (E : h = Base64.encode
                    (JSON.stringify (VArr (map Route.requirement_value (r :: l)))))
    by congruence.
  rewrite E, base64_decode_encode. unfold JSON.stringify.
  cbn [map Route.requirement_value JSON.tokens_of JSON.elements_tokens app].
  destruct l; cbn; discriminate.
Qed.

(** The calls of a challenge: the escrow call is always made, after at most
    the [getSupported] of a server that is being created, and before
    [initialize] and the exact call; without the exact call the exact
    promise is rejected. *)
Lemma challenge_calls env args st evs ex es :
  challenge_shape env args st evs ex es ->
  (exists pre post,
     evs = pre ++ BuildEscrow args :: post
     /\ (pre = [] \/ pre = [GetSupported])
     /\ Forall (fun ev => ev = ServerInitialize \/ ev = BuildExact args) post)
  /\ es = settled_of
            (buildAcceptsResolved env
               (trace st ++ if server_created st then [] else [GetSupported]) args)
  /\ (In (BuildExact args) evs ->
      exists h, ex = settled_of (buildPaymentRequirements env h args))
  /\ (~ In (BuildExact args) evs -> exists e, ex = Rejected e)
  /\ (server_created st = true -> In (BuildExact args) evs).
Proof.
  intros H; inversion H as [Hc|e Hc|kinds e Hc|kinds Hc]; subst; rewrite Hc.
  - split; [exists [], [BuildExact args]; split; [reflexivity|];
            split; [now left|repeat constructor; now right]|].
    split; [now rewrite app_nil_r|]. split; [eauto|].
    split; [intros Hn; exfalso; apply Hn; simpl; auto|simpl; auto].
  - split; [exists [GetSupported], []; split; [reflexivity|];
            split; [now right|constructor]|].
    split; [reflexivity|].
    split; [intros [E|[E|[]]]; discriminate E|].
    split; [eauto|discriminate].
  - split; [exists [GetSupported], [ServerInitialize]; split; [reflexivity|];
            split; [now right|repeat constructor; now left]|].
    split; [reflexivity|].
    split; [intros [E|[E|[E|[]]]]; discriminate E|].
    split; [eauto|discriminate].
  - split; [exists [GetSupported], [ServerInitialize; BuildExact args];
            split; [reflexivity|]; split; [now right|]|].
    { constructor; [now left|]. constructor; [now right|constructor]. }
    split; [reflexivity|]. split; [eauto|].
    split; [intros Hn; exfalso; apply Hn; simpl; auto|discriminate].
Qed.

(** A fulfilled exact promise holds an answer of the exact source. *)
Lemma exact_fulfilled env args st evs ex es v :
  challenge_shape env args st evs ex es ->
  ex = Fulfilled v ->
  exists h, buildPaymentRequirements env h args = Ok v.
Proof.
  intros H E; inversion H; subst; try discriminate;
    match goal with
    | H1 : settled_of (buildPaymentRequirements env ?h args) = Fulfilled v |- _ =>
        exists h; destruct (buildPaymentRequirements env h args);
        inversion H1; reflexivity
    end.
Qed.

(** C3 (as the code has it).  The escrow building call is always made, and
    before the exact promise has got past [getServer]; the exact building
    call is made once [getServer] has succeeded, and when it is not made the
    exact promise is rejected.  A failure of either promise is contained:
    when exactly one of them is rejected and the other returns at least one
    result, the response is a 402 whose [PAYMENT-REQUIRED] header carries the
    other's normalized results.  The route answers 500 with
    [No payment options available] exactly when the combined normalized list
    is empty, and a 402 never carries an empty list. *)
Theorem C3_partial_results env to amount network recipientAddress st :
  let args := Route.build_args amount network recipientAddress in
  exists evs exactResult escrowResult resp,
    challenge_shape env args st evs exactResult escrowResult
    /\ Route.handle402Response env to amount network recipientAddress st
       = (Ok resp, after st true evs)
    /\ (exists pre post,
          evs = pre ++ BuildEscrow args :: post
          /\ (pre = [] \/ pre = [GetSupported])
          /\ Forall (fun ev => ev = ServerInitialize \/ ev = BuildExact args) post)
    /\ (~ In (BuildExact args) evs -> exists e, exactResult = Rejected e)
    /\ (forall e v,
          exactResult = Rejected e -> escrowResult = Fulfilled v -> v <> [] ->
          Route.status resp = 402
          /\ carries resp (map Route.normalize_escrow v))
    /\ (forall e v,
          escrowResult = Rejected e -> exactResult = Fulfilled v -> v <> [] ->
          Route.status resp = 402
          /\ carries resp (map Route.normalize_exact v))
    /\ (Route.status resp = 402 \/ Route.status resp = 500)
    /\ (Route.status resp = 500
        /\ Route.body resp
           = JSON.stringify (VObj [("error", VStr "No payment options available")])
        <-> Route.from_exact exactResult ++ Route.from_escrow escrowResult = [])
    /\ (Route.status resp = 402 ->
        Route.from_exact exactResult ++ Route.from_escrow escrowResult <> []
        /\ carries resp (Route.from_exact exactResult ++ Route.from_escrow escrowResult)
        /\ forall h,
             Route.get_header "PAYMENT-REQUIRED" (Route.headers resp) = Some h ->
             Base64.decode h <> "[]"%string).
Proof.
  intros args.
  destruct (challenge_run env to amount network recipientAddress st)
    as (evs & ex & es & Hshape & Hrun).
  fold args in Hshape, Hrun.
  exists evs, ex, es, (challenge_answer to amount network ex es).
  split; [exact Hshape|]. split; [exact Hrun|].
  destruct (challenge_calls _ _ _ _ _ _ Hshape) as (Hord & _ & _ & Hrej & _).
  split; [exact Hord|]. split; [exact Hrej|].
  destruct (challenge_answer_status to amount network ex es) as [[Hnil Ha]|[Hne Ha]];
    rewrite Ha.
  - split.
    { intros e v -> -> Hv. simpl in Hnil. exfalso.
      now apply (map_not_nil Route.normalize_escrow v Hv). }
    split.
    { intros e v -> -> Hv. simpl in Hnil. rewrite app_nil_r in Hnil. exfalso.
      now apply (map_not_nil Route.normalize_exact v Hv). }
    split; [now right|].
    split; [split; [intros _; exact Hnil|intros _; split; reflexivity]|].
    intros H; discriminate H.
  - split.
    { intros e v -> -> Hv. split; [reflexivity|apply challenge_carries]. }
    split.
    { intros e v -> -> Hv. split; [reflexivity|].
      cbn [Route.from_exact Route.from_escrow]. rewrite app_nil_r.
      apply challenge_carries. }
    split; [now left|].
    split; [split; [intros [H _]; discriminate H|intros H; contradiction]|].
    intros _. split; [exact Hne|]. split; [apply challenge_carries|].
    intros h Hh.
    destruct (Route.from_exact ex ++ Route.from_escrow es) as [|r l] eqn:E;
      [contradiction|].
    eapply carried_text_not_empty; [apply challenge_carries|exact Hh].
Qed.

(** "Exactly one call fails" does not give a 402 when the call that did not
    fail has nothing to offer: the exact source is down, the escrow source
    returns an empty list, and the answer is the 500 of the empty case.  Nor
    are both building calls always made: with the facilitator out of reach
    [getServer] fails, the exact building call is never made, and the answer
    is a 402 with the escrow results. *)
Lemma C3_counterexample :
  let args := Route.build_args "1.00" Example.base Example.alice in
  let evs := [GetSupported; BuildEscrow args; ServerInitialize; BuildExact args] in
  (challenge_shape Example.env_no_quotes args initial evs
     (Rejected (Error "exact scheme unavailable")) (Fulfilled [])
   /\ Route.handle402Response Example.env_no_quotes Example.alice "1.00"
        Example.base Example.alice initial
      = (Ok Route.no_options, after initial true evs)
   /\ Route.status Route.no_options = 500
   /\ Route.status Route.no_options <> 402)
  /\ (exists resp,
        Route.handle402Response env_facilitator_down Example.alice "1.00"
          Example.base Example.alice initial
        = (Ok resp, after initial true [GetSupported; BuildEscrow args])
        /\ Route.status resp = 402
        /\ carries resp [Route.normalize_escrow (Example.escrow_weth args)]
        /\ ~ In (BuildExact args) [GetSupported; BuildEscrow args]).
Proof.
  intros args evs. split.
  - split.
    + exact (shape_server_created Example.env_no_quotes args initial Example.kinds
               eq_refl eq_refl eq_refl).
    + split; [vm_compute; reflexivity|]. split; [reflexivity|discriminate].
  - eexists. split; [vm_compute; reflexivity|].
    split; [reflexivity|]. split; [vm_compute; reflexivity|].
    intros [H|[H|[]]]; discriminate H.
Qed.

(** On a world whose exact source is down the escrow results are still
    served. *)
Lemma C3_partial_results_witness :
  let args := Route.build_args "1.00" Example.base Example.alice in
  exists resp st',
    Route.handle402Response Example.env_exact_down Example.alice "1.00"
      Example.base Example.alice initial = (Ok resp, st')
    /\ Route.status resp = 402
    /\ carries resp (map Route.normalize_escrow [Example.escrow_weth args]).
Proof.
  intros args.
  destruct (C3_partial_results Example.env_exact_down Example.alice "1.00"
              Example.base Example.alice initial)
    as (evs & ex & es & resp & Hshape & Hrun & _ & _ & Hone & _).
  fold args in Hshape, Hrun.
  exists resp, (after initial true evs).
  split; [exact Hrun|].
  assert (E : ex = Rejected (Error "exact scheme unavailable")
              /\ es = Fulfilled [Example.escrow_weth args]).
  { inversion Hshape; subst; try discriminate; split; reflexivity. }
  destruct E as [-> ->].
  apply (Hone (Error "exact scheme unavailable") [Example.escrow_weth args]);
    [reflexivity|reflexivity|discriminate].
Defined.

(** ** C8: the requirements cache is a pass-through *)

Lemma handle402_without_cache env to amount network recipientAddress st :
  Route.handle402Response env to amount network recipientAddress st
  = RouteWithoutCache.handle402Response env to amount network recipientAddress st.
Proof. reflexivity. Qed.

Lemma app_not_nil_r {X} (a b : list X) : b <> [] -> a ++ b <> [].
Proof. destruct a; [auto|discriminate]. Qed.

Lemma answer_non_empty to amount network ex es :
  Route.from_exact ex ++ Route.from_escrow es <> [] ->
  non_empty_challenge (challenge_answer to amount network ex es).
Proof.
  intros Hne. unfold challenge_answer.
  destruct (Route.from_exact ex ++ Route.from_escrow es) as [|r l];
    [contradiction|].
  split; [reflexivity|]. exists r, l. apply challenge_carries.
Qed.

Lemma answer_cases to amount network ex es :
  (non_empty_challenge (challenge_answer to amount network ex es)
   /\ Route.from_exact ex ++ Route.from_escrow es <> [])
  \/ (challenge_answer to amount network ex es = Route.no_options
      /\ Route.from_exact ex ++ Route.from_escrow es = []).
Proof.
  destruct (challenge_answer_status to amount network ex es) as [[Hnil Ha]|[Hne Ha]].
  - right. auto.
  - left. split; [now apply answer_non_empty|exact Hne].
Qed.

Lemma non_empty_combined to amount network ex es :
  non_empty_challenge (challenge_answer to amount network ex es) ->
  Route.from_exact ex ++ Route.from_escrow es <> [].
Proof.
  intros [Hst _].
  destruct (challenge_answer_status to amount network ex es) as [[_ E]|[Hne _]];
    [rewrite E in Hst; discriminate Hst|exact Hne].
Qed.

(** C8 (as the code has it).  [getCachedRequirements] returns [null] for
    every key and [cacheRequirements] changes no state; the challenge handler
    and the route are equal, run for run, to the route written without the
    cache, so the cache-hit branch is never taken.  Of two consecutive
    challenge requests with the same parameters each makes the escrow
    building call again, and the second, for which the server exists, makes
    the exact building call too.  Each of them returns 402 with non-empty
    accepts or, when its own combined list is empty, the 500 of no payment
    options: both are 402 when the escrow source has an offer, and, when the
    quote sources answer the second request as they answered the first, the
    second is a 402 if the first was. *)
Theorem C8_cache_is_pass_through env :
  (forall key st, Route.getCachedRequirements key st = (Ok None, st))
  /\ (forall key reqs st, Route.cacheRequirements key reqs st = (Ok tt, st))
  /\ (forall to amount network recipientAddress st,
        Route.handle402Response env to amount network recipientAddress st
        = RouteWithoutCache.handle402Response env to amount network
            recipientAddress st)
  /\ (forall request st,
        Route.GET env request st = RouteWithoutCache.GET env request st)
  /\ (forall to amount network recipientAddress st,
        let args := Route.build_args amount network recipientAddress in
        exists first second evs1 evs2,
          two_challenges env to amount network recipientAddress st
            = (Ok (first, second), after st true (evs1 ++ evs2))
          /\ Route.handle402Response env to amount network recipientAddress st
             = (Ok first, after st true evs1)
          /\ Route.handle402Response env to amount network recipientAddress
               (after st true evs1)
             = (Ok second, after st true (evs1 ++ evs2))
          /\ In (BuildEscrow args) evs1
          /\ evs2 = [BuildEscrow args; BuildExact args]
          /\ (non_empty_challenge first \/ first = Route.no_options)
          /\ (non_empty_challenge second \/ second = Route.no_options)
          /\ (escrow_offers env ->
              non_empty_challenge first /\ non_empty_challenge second)
          /\ (steady_quotes env ->
              non_empty_challenge first -> non_empty_challenge second)).
Proof.
  split; [reflexivity|]. split; [reflexivity|].
  split; [intros; apply handle402_without_cache|].
  split; [reflexivity|].
  intros to amount network recipientAddress st args.
  destruct (challenge_run env to amount network recipientAddress st)
    as (evs1 & ex1 & es1 & Hshape1 & Hrun1).
  destruct (challenge_run env to amount network recipientAddress (after st true evs1))
    as (evs2 & ex2 & es2 & Hshape2 & Hrun2).
  fold args in Hshape1, Hrun1, Hshape2, Hrun2.
  rewrite after_after in Hrun2. cbn [orb] in Hrun2.
  exists (challenge_answer to amount network ex1 es1),
         (challenge_answer to amount network ex2 es2), evs1, evs2.
  assert (Hcreated : server_created (after st true evs1) = true).
  { unfold after. cbn. apply orb_true_r. }
  destruct (challenge_calls _ _ _ _ _ _ Hshape1)
    as ((pre & post & Hevs1 & _ & _) & Hes1 & Hex1 & _ & _).
  destruct (challenge_calls _ _ _ _ _ _ Hshape2) as (_ & Hes2 & _ & _ & _).
  assert (Hevs2 : evs2 = [BuildEscrow args; BuildExact args]
                  /\ ex2 = settled_of
                             (buildPaymentRequirements env
                                (trace (after st true evs1) ++ [BuildEscrow args]) args)).
  { inversion Hshape2; subst; try congruence. split; reflexivity. }
  destruct Hevs2 as [Hevs2 Hex2].
  split.
  { unfold two_challenges. unfold bind at 1. rewrite Hrun1.
    unfold bind at 1. rewrite Hrun2. reflexivity. }
  split; [exact Hrun1|]. split; [exact Hrun2|].
  split; [rewrite Hevs1; apply in_or_app; right; now left|].
  split; [exact Hevs2|].
  split; [destruct (answer_cases to amount network ex1 es1) as [[H _]|[H _]]; auto|].
  split; [destruct (answer_cases to amount network ex2 es2) as [[H _]|[H _]]; auto|].
  split.
  { intros Hoff. split; apply answer_non_empty, app_not_nil_r.
    - rewrite Hes1. destruct (Hoff (trace st ++ if server_created st then []
                                                 else [GetSupported]) args)
        as (a & l & Ha). rewrite Ha. discriminate.
    - rewrite Hes2. destruct (Hoff (trace (after st true evs1)
                                    ++ if server_created (after st true evs1)
                                       then [] else [GetSupported]) args)
        as (a & l & Ha). rewrite Ha. discriminate. }
  intros [Hsteady_exact Hsteady_escrow] Hfirst.
  apply answer_non_empty. apply non_empty_combined in Hfirst.
  assert (Hes : es2 = es1).
  { rewrite Hes1, Hes2. f_equal. apply Hsteady_escrow. }
  rewrite Hes.
  destruct ex1 as [v|e].
  - destruct (exact_fulfilled _ _ _ _ _ _ _ Hshape1 eq_refl) as (h & Hh).
    rewrite Hex2, (Hsteady_exact _ h), Hh. exact Hfirst.
  - apply app_not_nil_r. exact Hfirst.
Qed.

Lemma example_escrow_offers : escrow_offers Example.env.
Proof. intros h args. eexists _, _. reflexivity. Qed.

(** In the example world both requests are answered with a non-empty
    challenge. *)
Lemma C8_cache_is_pass_through_witness :
  escrow_offers Example.env
  /\ exists first second st',
       two_challenges Example.env Example.alice "1.00" Example.base Example.alice
         initial = (Ok (first, second), st')
       /\ non_empty_challenge first /\ non_empty_challenge second.
Proof.
  split; [exact example_escrow_offers|].
  destruct (C8_cache_is_pass_through Example.env) as (_ & _ & _ & _ & H).
  destruct (H Example.alice "1.00" Example.base Example.alice initial)
    as (first & second & evs1 & evs2 & Htwo & _ & _ & _ & _ & _ & _ & Hne & _).
  eexists first, second, _. split; [exact Htwo|].
  exact (Hne example_escrow_offers).
Defined.

(** "Both return 402 with non-empty accepts" does not hold when the quote
    sources have nothing to offer: in a world whose exact source is down and
    whose escrow source returns no route, both requests are answered 500. *)
Lemma C8_counterexample :
  exists st',
    two_challenges Example.env_no_quotes Example.alice "1.00" Example.base
      Example.alice initial
    = (Ok (Route.no_options, Route.no_options), st')
    /\ Route.status Route.no_options = 500
    /\ ~ non_empty_challenge Route.no_options.
Proof.
  eexists. split; [vm_compute; reflexivity|]. split; [reflexivity|].
  intros [H _]. discriminate H.
Qed.

(** ** The handler before it dispatches *)




(** The handler up to the dispatch, when the first two checks pass and the
    recipient resolves. *)
Lemma GET_validated env request st to amount r st1 recipientAddress nets st2 network :
  Route.present (Route.query_to request) = Some to ->
  Route.present (Route.query_amount request) = Some amount ->
  amount_accepted amount = true ->
  Ens.resolveRecipient env to st = (Ok r, st1) ->
  Route.present r = Some recipientAddress ->
  X402.getSupportedNetworks env st1 = (Ok nets, st2) ->
  chosen_network request nets = Some network ->
  Route.GET env request st =
    if negb (matches_eip155 network) then
      (Ok (Route.bad_request "Invalid network format. Use eip155:CHAINID"), st2)
    else if negb (existsb (String.eqb network) nets) then
      (Ok (Route.NextResponse_json
             (VObj [("error", VStr ("Network " ++ network ++ " not supported")%string);
                    ("supportedNetworks", VArr (map VStr nets))])
             400), st2)
    else
      match Route.present (Route.header_payment_signature request) with
      | None => Route.handle402Response env to amount network recipientAddress st2
      | Some paymentSignature =>
          Route.handlePaymentSubmission env to amount network recipientAddress
            paymentSignature st2
      end.
Proof.
  intros Hto Ham Hok Hres Hr Hsup Hnet.
  unfold Route.GET. rewrite Hto, Ham.
  unfold amount_accepted in Hok. apply negb_true_iff in Hok. rewrite Hok.
  unfold bind at 1. rewrite Hres, Hr.
  unfold bind at 1. rewrite Hsup.
  destruct nets as [|first rest]; [discriminate|].
  simpl in Hnet. inversion Hnet; subst network; clear Hnet.
  destruct (negb (matches_eip155 _)); [reflexivity|].
  destruct (negb (existsb _ _)); [reflexivity|].
  destruct (Route.present (Route.header_payment_signature request)); reflexivity.
Qed.

(** ** C6: validation errors *)




(** ** C10: amounts that are not numerals *)

(** C10.  The strings [5abc], [1.00xyz] and [Infinity] are not decimal
    numerals, yet [parseFloat] reads each of them as a number greater than
    zero, so the amount check passes: a request carrying one of them is not
    answered with the 400 for an invalid amount but goes on to recipient
    resolution and, when the remaining checks pass and no payment header is
    present, to the building of quotes for the price made of that string. *)
Theorem C10_lenient_amounts :
  Forall (fun amount => decimal_numeral amount = false
                        /\ amount_accepted amount = true)
         ["5abc"; "1.00xyz"; "Infinity"]
  /\ forall env request st to amount r st1 recipientAddress nets st2 network,
       In amount ["5abc"; "1.00xyz"; "Infinity"] ->
       Route.present (Route.query_to request) = Some to ->
       Route.present (Route.query_amount request) = Some amount ->
       Ens.resolveRecipient env to st = (Ok r, st1) ->
       Route.present r = Some recipientAddress ->
       X402.getSupportedNetworks env st1 = (Ok nets, st2) ->
       chosen_network request nets = Some network ->
       matches_eip155 network = true ->
       existsb (String.eqb network) nets = true ->
       Route.present (Route.header_payment_signature request) = None ->
       exists resp evs,
         Route.GET env request st = (Ok resp, after st2 true evs)
         /\ In (BuildEscrow {| arg_network := network;
                               arg_price := ("$" ++ amount)%string;
                               arg_payTo := recipientAddress |}) evs
         /\ Route.GET env request st
            = Route.handle402Response env to amount network recipientAddress st2
         /\ resp <> Route.bad_request "Invalid amount. Must be a positive number.".
Proof.
  split.
  { repeat constructor. }
  intros env request st to amount r st1 recipientAddress nets st2 network
         Hin Hto Ham Hres Hr Hsup Hnet Hm Hex Hsig.
  assert (Hok : amount_accepted amount = true).
  { destruct Hin as [<-|[<-|[<-|[]]]]; reflexivity. }
  pose proof (GET_validated env request st to amount r st1 recipientAddress nets
                st2 network Hto Ham Hok Hres Hr Hsup Hnet) as HG.
  rewrite Hm, Hex, Hsig in HG. simpl in HG.
  destruct (challenge_run env to amount network recipientAddress st2)
    as (evs & ex & es & Hshape & Hrun).
  exists (challenge_answer to amount network ex es), evs.
  split; [rewrite HG; exact Hrun|].
  split.
  { destruct (challenge_calls _ _ _ _ _ _ Hshape) as ((pre & post & -> & _) & _).
    apply in_or_app. right. now left. }
  split; [exact HG|].
  destruct (challenge_answer_status to amount network ex es) as [[_ E]|[_ E]];
    rewrite E; intros H; apply (f_equal Route.status) in H; discriminate H.
Qed.

(** In the example world the amount [5abc] is quoted at the price [$5abc]. *)
Lemma C10_lenient_amounts_witness :
  let request := Route.mkRequest (Some Example.alice) (Some "5abc") None None in
  let st2 := {| server_created := false;
                supportedNetworks_cache := Some [Example.base];
                trace := [GetSupported] |} in
  exists resp evs,
    Route.GET Example.env request initial = (Ok resp, after st2 true evs)
    /\ In (BuildEscrow {| arg_network := Example.base;
                          arg_price := "$5abc";
                          arg_payTo := Example.alice |}) evs
    /\ Route.GET Example.env request initial
       = Route.handle402Response Example.env Example.alice "5abc" Example.base
           Example.alice st2
    /\ resp <> Route.bad_request "Invalid amount. Must be a positive number.".
Proof.
  intros request st2.
  exact (proj2 C10_lenient_amounts Example.env request initial Example.alice "5abc"
           (Some Example.alice) initial Example.alice [Example.base] st2
           Example.base
           (or_introl eq_refl) eq_refl eq_refl eq_refl eq_refl eq_refl eq_refl
           eq_refl eq_refl eq_refl).
Defined.

(** ** C9: the PAYMENT-RESPONSE codec *)

Lemma wire_representable (r : PaymentResult) :
  representable (on_the_wire r) = true.
Proof.
  destruct r as [s [t|] [n|] [rc|] [a|] [m|] [e|]]; reflexivity.
Qed.

Lemma wire_as_result (r : PaymentResult) :
  Client.as_PaymentResult (on_the_wire r) = r.
Proof.
  destruct r as [[] [t|] [n|] [rc|] [a|] [m|] [e|]]; reflexivity.
Qed.

Lemma mirrored_readResult v code :
  Client.readResult (Route.payment_response v code)
  = JSON.parse (Base64.decode (Route.encode_header v)).
Proof.
  unfold Client.readResult.
  assert (H : Route.get_header "PAYMENT-RESPONSE"
                (Route.headers (Route.payment_response v code))
              = Some (Route.encode_header v)) by reflexivity.
  rewrite H. unfold Route.present.
  destruct (str_truthy (Route.encode_header v)) eqn:E; [reflexivity|].
  (* an empty header would be read from the body, which is the same text *)
  unfold Route.encode_header in *. rewrite base64_decode_encode. reflexivity.
Qed.

(** C9.  For every [PaymentResult], of the success shape or of the failure
    shape, the base64 of its JSON serialization decodes and parses to the
    object holding exactly its defined properties, which read as
    [PaymentResult] is the original.  The same holds for the two bodies the
    route builds: what the client reads from [PAYMENT-RESPONSE] is the
    error result, and the success result without its undefined
    properties. *)
Theorem C9_payment_result_round_trip :
  (forall r : PaymentResult,
     JSON.parse (Base64.decode (Route.encode_header (Client.result_value r)))
     = Some (on_the_wire r)
     /\ Client.as_PaymentResult (on_the_wire r) = r)
  /\ (forall reason code,
        Client.readResult (Route.payment_response (Route.error_result reason) code)
        = Some (Route.error_result reason)
        /\ Client.as_PaymentResult (Route.error_result reason)
           = {| success := false; transaction := None; result_network := None;
                recipient := None; result_amount := None; message := None;
                errorReason := Some reason |})
  /\ (forall to amount network recipientAddress sr,
        exists ps,
          Route.successResponse to amount network recipientAddress sr = VObj ps
          /\ Client.readResult
               (Route.payment_response
                  (Route.successResponse to amount network recipientAddress sr) 200)
             = Some (VObj (written ps))
          /\ Client.as_PaymentResult (VObj (written ps))
             = {| success := true;
                  transaction := settle_transaction sr;
                  result_network := Some (or_default (settle_network sr) network);
                  recipient := Some recipientAddress;
                  result_amount := Some amount;
                  message := Some ("Tip of $" ++ amount ++ " received by " ++ to)%string;
                  errorReason := None |}).
Proof.
  split; [|split].
  - intros r. split; [|apply wire_as_result].
    pose proof (wire_representable r) as Hw. unfold on_the_wire in *.
    unfold Client.result_value in *. now apply object_round_trip.
  - intros reason code. split; [|reflexivity].
    rewrite mirrored_readResult. now apply header_round_trip.
  - intros to amount network recipientAddress sr.
    eexists. split; [reflexivity|]. split.
    + rewrite mirrored_readResult. apply object_round_trip.
      destruct (settle_transaction sr); reflexivity.
    + destruct (settle_transaction sr); reflexivity.
Qed.

(** ** C7: the payload between challenge, client and facilitator *)






(* ===================================================================== *)
(** * Further properties of the code *)
(* ===================================================================== *)

Lemma set_add_in l n x : In x (X402.set_add l n) <-> In x l \/ x = n.
Proof.
  unfold X402.set_add. destruct (existsb (String.eqb n) l) eqn:E.
  - split; [auto|]. intros [H | ->]; [exact H|].
    apply existsb_exists in E. destruct E as (y & Hy & Ey).
    apply String.eqb_eq in Ey. now subst.
  - rewrite in_app_iff. simpl. intuition.
Qed.

Lemma set_add_NoDup l n : NoDup l -> NoDup (X402.set_add l n).
Proof.
  intros Hl. unfold X402.set_add. destruct (existsb (String.eqb n) l) eqn:E; [exact Hl|].
  apply NoDup_app; [exact Hl|repeat constructor; intros []|].
  intros x Hx [Ex|[]]. subst x.
  assert (existsb (String.eqb n) l = true) as Hc.
  { apply existsb_exists. exists n. split; [exact Hx|apply String.eqb_refl]. }
  congruence.
Qed.

Lemma set_add_hd l n a : hd_error l = Some a -> hd_error (X402.set_add l n) = Some a.
Proof.
  unfold X402.set_add. destruct (existsb _ l); [auto|].
  destruct l; [discriminate|auto].
Qed.

Lemma networks_fold kinds : forall acc,
  let l := fold_left
             (fun acc k => if X402.is_tip_scheme k
                           then X402.set_add acc (kind_network k) else acc)
             kinds acc in
  (NoDup acc -> NoDup l)
  /\ (forall n, In n l <->
        In n acc \/ exists k, In k kinds /\ X402.is_tip_scheme k = true
                              /\ kind_network k = n)
  /\ (forall a, hd_error acc = Some a -> hd_error l = Some a)
  /\ (acc = [] ->
      hd_error l = option_map kind_network (hd_error (tip_kinds kinds))).
Proof.
  induction kinds as [|k kinds IH]; intros acc; cbn [fold_left].
  - split; [auto|]. split.
    + intros n. split; [auto|]. intros [H|(k & [] & _)]. exact H.
    + split; [auto|]. intros ->. reflexivity.
  - destruct (IH (if X402.is_tip_scheme k
                  then X402.set_add acc (kind_network k) else acc))
      as (Hnd & Hin & Hhd & Hnil).
    unfold tip_kinds. cbn [filter].
    destruct (X402.is_tip_scheme k) eqn:Hk.
    + split; [intros H; apply Hnd; now apply set_add_NoDup|].
      split.
      * intros n. rewrite Hin, set_add_in. split.
        -- intros [[H | ->] |(k' & Hk' & Ht & En)]; auto.
           ++ right. exists k. simpl. auto.
           ++ right. exists k'. simpl. auto.
        -- intros [H|(k' & [<-|Hk'] & Ht & En)]; auto.
           right. exists k'. auto.
      * split.
        -- intros a Ha. apply Hhd. now apply set_add_hd.
        -- intros ->. cbn [hd_error option_map]. apply Hhd. reflexivity.
    + split; [exact Hnd|]. split.
      * intros n. rewrite Hin. split.
        -- intros [H|(k' & Hk' & Ht & En)]; auto.
           right. exists k'. simpl. auto.
        -- intros [H|(k' & [<-|Hk'] & Ht & En)]; auto; [congruence|].
           right. exists k'. auto.
      * split; [exact Hhd|exact Hnil].
Qed.

(** X1.  the supported networks.  On its first call [getSupportedNetworks]
    asks the facilitator once and returns, without repetition, exactly the
    networks of the kinds whose scheme is [exact] or [escrow]; the first of
    them, which the route takes as the default network, is the network of
    the first such kind.  The answer is stored. *)
Theorem supported_networks_listed env st kinds :
  supportedNetworks_cache st = None ->
  getSupported env (trace st) = Ok kinds ->
  exists l,
    X402.getSupportedNetworks env st
    = (Ok l, with_supportedNetworks (add_events st [GetSupported]) (Some l))
    /\ NoDup l
    /\ (forall n, In n l <->
          exists k, In k kinds /\ X402.is_tip_scheme k = true /\ kind_network k = n)
    /\ hd_error l = option_map kind_network (hd_error (tip_kinds kinds)).
Proof.
  intros Hc Hs.
  exists (X402.networks_of kinds). split.
  - unfold X402.getSupportedNetworks, bind, get_state. rewrite Hc.
    unfold X402.facilitator_getSupported. rewrite call_run, Hs. reflexivity.
  - destruct (networks_fold kinds []) as (Hnd & Hin & _ & Hhd).
    split; [apply Hnd; constructor|]. split.
    + intros n. unfold X402.networks_of. rewrite Hin. simpl. intuition.
    + now apply Hhd.
Qed.

Lemma supported_networks_listed_witness :
  exists l,
    X402.getSupportedNetworks Example.env initial
    = (Ok l, with_supportedNetworks (add_events initial [GetSupported]) (Some l))
    /\ hd_error l = Some Example.base.
Proof.
  destruct (supported_networks_listed Example.env initial Example.kinds
              eq_refl eq_refl) as (l & Hrun & _ & _ & Hhd).
  exists l. split; [exact Hrun|exact Hhd].
Defined.

(** X2.  the stored answer.  Once [getSupportedNetworks] has answered, every
    later call in a state that still holds the answer (also an empty one)
    returns it without asking the facilitator.  A call that failed stores
    nothing, and after [clearCache] the next call asks the facilitator
    again. *)
Theorem supported_networks_remembered env :
  (forall st l st1,
     X402.getSupportedNetworks env st = (Ok l, st1) ->
     supportedNetworks_cache st1 = Some l
     /\ forall st2, supportedNetworks_cache st2 = Some l ->
                    X402.getSupportedNetworks env st2 = (Ok l, st2))
  /\ (forall st e st1,
        X402.getSupportedNetworks env st = (Throw e, st1) ->
        supportedNetworks_cache st = None
        /\ st1 = add_events st [GetSupported]
        /\ getSupported env (trace st) = Throw e)
  /\ (forall st st1,
        X402.clearCache st = (Ok tt, st1) ->
        X402.getSupportedNetworks env st1
        = match getSupported env (trace st) with
          | Ok kinds =>
              (Ok (X402.networks_of kinds),
               with_supportedNetworks (add_events st [GetSupported])
                 (Some (X402.networks_of kinds)))
          | Throw e =>
              (Throw e, with_supportedNetworks (add_events st [GetSupported]) None)
          end).
Proof.
  split; [|split].
  - intros st l st1. unfold X402.getSupportedNetworks at 1, bind, get_state.
    destruct (supportedNetworks_cache st) as [l0|] eqn:Hc.
    + unfold ret. intros E; inversion E; subst. split; [exact Hc|].
      intros st2 H2. unfold X402.getSupportedNetworks, bind, get_state.
      now rewrite H2.
    + unfold X402.facilitator_getSupported. rewrite call_run.
      destruct (getSupported env (trace st)); [|discriminate].
      unfold set_supportedNetworks, ret. intros E; inversion E; subst.
      split; [reflexivity|].
      intros st2 H2. unfold X402.getSupportedNetworks, bind, get_state.
      now rewrite H2.
  - intros st e st1. unfold X402.getSupportedNetworks, bind, get_state.
    destruct (supportedNetworks_cache st) as [l0|] eqn:Hc; [discriminate|].
    unfold X402.facilitator_getSupported. rewrite call_run.
    destruct (getSupported env (trace st)); [discriminate|].
    intros E; inversion E; subst. auto.
  - intros st st1. unfold X402.clearCache, set_supportedNetworks.
    intros E; inversion E; subst.
    unfold X402.getSupportedNetworks, bind, get_state. cbn [supportedNetworks_cache].
    unfold X402.facilitator_getSupported. rewrite call_run. cbn [trace].
    destruct (getSupported env (trace st)); reflexivity.
Qed.

(** X3.  the server object.  Whatever its outcome, a call of [getServer]
    leaves the server created, and every later call returns it at once:
    the facilitator is not asked and [initialize] is not called again.
    In particular, when the first call fails because the facilitator cannot
    be reached, [initialize] has not been called and never will be; and
    [clearCache] does not undo this. *)
Theorem server_created_once env st :
  exists out evs,
    X402.getServer env st
    = (out, {| server_created := true;
               supportedNetworks_cache := supportedNetworks_cache st;
               trace := trace st ++ evs |})
    /\ (forall st2, server_created st2 = true ->
                    X402.getServer env st2 = (Ok tt, st2))
    /\ (forall st2 st3, server_created st2 = true ->
                        X402.clearCache st2 = (Ok tt, st3) ->
                        server_created st3 = true)
    /\ (server_created st = false ->
        forall e, getSupported env (trace st) = Throw e ->
                  out = Throw e /\ evs = [GetSupported]).
Proof.
  assert (Hlater : forall st2, server_created st2 = true ->
                               X402.getServer env st2 = (Ok tt, st2)).
  { intros st2 H2. unfold X402.getServer, bind, get_state. now rewrite H2. }
  assert (Hclear : forall st2 st3, server_created st2 = true ->
                     X402.clearCache st2 = (Ok tt, st3) -> server_created st3 = true).
  { intros st2 st3 H2 E. unfold X402.clearCache, set_supportedNetworks in E.
    inversion E; subst. exact H2. }
  unfold X402.getServer, bind, get_state.
  destruct (server_created st) eqn:Hc.
  - exists (Ok tt), []. rewrite app_nil_r. split.
    + unfold ret. destruct st; simpl in *; subst; reflexivity.
    + split; [exact Hlater|]. split; [exact Hclear|discriminate].
  - unfold set_server_created, X402.facilitator_getSupported.
    rewrite call_run. cbn [trace].
    destruct (getSupported env (trace st)) as [kinds|e] eqn:Hs.
    + rewrite call_run. eexists _, [GetSupported; ServerInitialize].
      split; [unfold add_events; cbn; rewrite <- app_assoc; reflexivity|].
      split; [exact Hlater|]. split; [exact Hclear|]. intros _ e E; discriminate E.
    + exists (Throw e), [GetSupported].
      split; [reflexivity|]. split; [exact Hlater|]. split; [exact Hclear|].
      intros _ e' E; inversion E; subst. auto.
Qed.

Lemma all_chars_substring p s : forall n m,
  all_chars p s = true -> all_chars p (substring n m s) = true.
Proof.
  induction s as [|c s IH]; intros n m H.
  - destruct n, m; reflexivity.
  - simpl in H. apply andb_true_iff in H. destruct H as [Hc Hs].
    destruct n as [|n]; destruct m as [|m]; simpl; auto.
    rewrite Hc. simpl. apply (IH 0%nat m Hs).
Qed.

Lemma label_has_no_suffix to suffix :
  matches_label to = true ->
  all_chars is_name_char suffix = false ->
  endsWith to suffix = false.
Proof.
  intros Hl Hs. unfold endsWith.
  destruct (Nat.leb _ _); [|reflexivity]. simpl.
  destruct (String.eqb _ suffix) eqn:E; [|reflexivity].
  apply String.eqb_eq in E.
  unfold matches_label in Hl. apply andb_true_iff in Hl. destruct Hl as [_ Hl].
  pose proof (all_chars_substring is_name_char to
                (String.length to - String.length suffix) (String.length suffix) Hl) as H.
  rewrite E in H. congruence.
Qed.

Lemma substring_suffix a b :
  substring (String.length a) (String.length b) (a ++ b)%string = b.
Proof.
  induction a as [|c a IH]; simpl.
  - induction b as [|d b IHb]; simpl; [reflexivity|]. now rewrite IHb.
  - exact IH.
Qed.

Lemma str_length_append a b :
  String.length (a ++ b)%string = (String.length a + String.length b)%nat.
Proof. induction a; simpl; auto. Qed.

Lemma endsWith_append a b : endsWith (a ++ b)%string b = true.
Proof.
  unfold endsWith. rewrite str_length_append.
  replace (String.length a + String.length b - String.length b)%nat
    with (String.length a) by lia.
  rewrite substring_suffix, String.eqb_refl.
  replace (Nat.leb _ _) with true; [reflexivity|].
  symmetry. apply Nat.leb_le. lia.
Qed.

Lemma lookupName_cases env name st :
  exists r evs,
    Ens.lookupName env name st = (Ok r, add_events st evs)
    /\ (evs = [] \/ exists n, normalize env name = Ok n /\ evs = [EnsAddress n])
    /\ (forall a, r = Some a -> exists x, a = getAddress env x).
Proof.
  unfold Ens.lookupName, try_catch, bind, lift.
  destruct (normalize env name) as [n|e].
  - rewrite call_run.
    destruct (getEnsAddress env (trace st) n) as [[a|]|e].
    + eexists _, [_]. split; [reflexivity|]. split; [right; eauto|].
      unfold ret. destruct (str_truthy a); intros a' E; inversion E; eauto.
    + eexists _, [_]. split; [reflexivity|]. split; [right; eauto|].
      intros a' E; discriminate E.
    + eexists _, [_]. split; [reflexivity|]. split; [right; eauto|].
      intros a' E; discriminate E.
  - eexists _, []. rewrite add_events_nil. split; [reflexivity|].
    split; [auto|]. intros a' E; discriminate E.
Qed.

(** X4.  resolving a recipient.  [resolveRecipient] never throws and changes
    nothing but the trace, where it leaves at most one name-service call,
    for the normalized recipient or the normalized recipient completed with
    [.base.eth].  An address is answered without any call; a recipient of no
    known shape is answered [null] without any call; and whatever is found
    has passed through [getAddress]. *)
Theorem recipient_resolution env to st :
  exists r evs,
    Ens.resolveRecipient env to st = (Ok r, add_events st evs)
    /\ (evs = []
        \/ exists n, evs = [EnsAddress n]
                     /\ (normalize env to = Ok n
                         \/ normalize env (to ++ ".base.eth")%string = Ok n))
    /\ (isAddress env to = true -> evs = [] /\ r = Some (getAddress env to))
    /\ (unrecognised env to -> evs = [] /\ r = None)
    /\ (forall a, r = Some a -> exists x, a = getAddress env x).
Proof.
  unfold Ens.resolveRecipient, unrecognised.
  destruct (isAddress env to) eqn:Ha.
  { eexists _, []. rewrite add_events_nil. split; [reflexivity|].
    split; [auto|]. split; [auto|]. split.
    - intros (E & _); discriminate E.
    - intros a E; inversion E; eauto. }
  assert (Hname : forall name,
            name = to \/ name = (to ++ ".base.eth")%string ->
            (endsWith to ".eth" = false /\
             (matches_label to = false \/ (String.length to < 3)%nat) -> False) ->
            exists r evs,
              Ens.lookupName env name st = (Ok r, add_events st evs)
              /\ (evs = []
                  \/ exists n, evs = [EnsAddress n]
                               /\ (normalize env to = Ok n
                                   \/ normalize env (to ++ ".base.eth")%string = Ok n))
              /\ (false = true -> evs = [] /\ r = Some (getAddress env to))
              /\ (false = false /\ endsWith to ".eth" = false
                  /\ (matches_label to = false \/ (String.length to < 3)%nat) ->
                  evs = [] /\ r = None)
              /\ (forall a, r = Some a -> exists x, a = getAddress env x)).
  { intros name Hn Hshape.
    destruct (lookupName_cases env name st) as (r & evs & Hrun & Hev & Hr).
    exists r, evs. split; [exact Hrun|]. split.
    - destruct Hev as [->|(n & Hnorm & ->)]; [auto|].
      right. exists n. split; [reflexivity|].
      destruct Hn as [->| ->]; auto.
    - split; [discriminate|]. split; [|exact Hr].
      intros (_ & H). exfalso. now apply Hshape. }
  destruct (endsWith to ".base.eth") eqn:Hb.
  { apply Hname; [auto|]. intros (He & Hl).
    (* a name that ends in .base.eth ends in .eth *)
    unfold endsWith in Hb, He.
    apply andb_true_iff in Hb. destruct Hb as [Hlen Hb].
    apply Nat.leb_le in Hlen. apply String.eqb_eq in Hb.
    simpl String.length in *.
    assert (Hle : Nat.leb 4 (String.length to) = true) by (apply Nat.leb_le; lia).
    rewrite Hle in He. simpl in He.
    assert (Hs : substring (String.length to - 4) 4 to = ".eth").
    { assert (H : substring 5 4 (substring (String.length to - 9) 9 to) = ".eth")
        by now rewrite Hb.
      rewrite <- H. clear -Hlen.
      remember (String.length to - 9)%nat as k.
      replace (String.length to - 4)%nat with (k + 5)%nat by lia.
      assert (Hk : (k + 9 <= String.length to)%nat) by lia. clear Heqk Hlen.
      revert k Hk. induction to as [|c to IH]; intros k Hk; simpl in Hk; [lia|].
      destruct k as [|k].
      - simpl Nat.add. clear IH.
        do 8 (destruct to as [|? to]; [simpl in Hk; lia|]). destruct to; reflexivity.
      - simpl. apply IH. lia. }
    rewrite Hs in He. discriminate He. }
  destruct (endsWith to ".eth") eqn:He.
  { apply Hname; [auto|]. intros (E & _); discriminate E. }
  destruct (matches_label to) eqn:Hl; cbn [andb].
  2:{ eexists _, []. rewrite add_events_nil. split; [reflexivity|].
      split; [auto|]. split; [discriminate|]. split; [auto|].
      intros a E; discriminate E. }
  destruct (Nat.leb 3 (String.length to)) eqn:Hlen.
  { apply Hname; [auto|]. apply Nat.leb_le in Hlen.
    intros (_ & [E|E]); [discriminate E|lia]. }
  eexists _, []. rewrite add_events_nil. split; [reflexivity|].
  split; [auto|]. split; [discriminate|]. split; [auto|].
  intros a E; discriminate E.
Qed.

(** X5.  a bare label.  A label of three or more name characters that is not
    an address is resolved exactly as the same label followed by
    [.base.eth]: same call, same answer, same state. *)
Theorem bare_label_is_basename env to st :
  bare_label env to ->
  Ens.resolveRecipient env to st
  = Ens.resolveRecipient env (to ++ ".base.eth")%string st.
Proof.
  intros (Hl & Hlen & Ha & Hb).
  unfold Ens.resolveRecipient. rewrite Ha, Hb.
  rewrite (label_has_no_suffix to ".base.eth" Hl eq_refl).
  rewrite (label_has_no_suffix to ".eth" Hl eq_refl).
  rewrite Hl. apply Nat.leb_le in Hlen. rewrite Hlen. cbn [andb].
  now rewrite endsWith_append.
Qed.

Lemma bare_label_is_basename_witness :
  Ens.resolveRecipient Example.env "jesse" initial
  = Ens.resolveRecipient Example.env "jesse.base.eth" initial.
Proof.
  apply (bare_label_is_basename Example.env "jesse" initial).
  repeat split; try reflexivity. simpl. lia.
Defined.

(** The run of the challenge handler: its calls and its answer. *)
Lemma handle402_run env to amount network recipientAddress st :
  let args := Route.build_args amount network recipientAddress in
  exists ex es evs,
    Route.handle402Response env to amount network recipientAddress st
    = (Ok (challenge_answer to amount network ex es), after st true evs)
    /\ Forall challenge_event evs
    /\ In (BuildEscrow args) evs
    /\ (server_created st = true -> evs = [BuildEscrow args; BuildExact args])
    /\ (exists pre post,
          evs = pre ++ BuildEscrow args :: post
          /\ (pre = [] \/ pre = [GetSupported])
          /\ Forall (fun ev => ev = ServerInitialize \/ ev = BuildExact args) post).
Proof.
  intros args.
  destruct (challenge_run env to amount network recipientAddress st)
    as (evs & ex & es & Hshape & Hrun).
  fold args in Hshape, Hrun.
  exists ex, es, evs. split; [exact Hrun|].
  destruct (challenge_calls _ _ _ _ _ _ Hshape) as (Hord & _).
  inversion Hshape; subst; (split; [repeat constructor|]);
    (split; [simpl; auto|]); (split; [intros Hc; congruence|exact Hord]).
Qed.

Lemma submission_events env to amount network recipientAddress sig h evs resp :
  submission_shape env to amount network recipientAddress sig h evs resp ->
  Forall payment_event evs.
Proof. intros H; inversion H; subst; repeat constructor. Qed.

Lemma submission_status env to amount network recipientAddress sig h evs resp :
  submission_shape env to amount network recipientAddress sig h evs resp ->
  Route.status resp = 200 \/ Route.status resp = 400
  \/ Route.status resp = 402 \/ Route.status resp = 500.
Proof. intros H; inversion H; subst; cbn; auto. Qed.

Lemma lookupName_calls env name st :
  exists r evs,
    Ens.lookupName env name st = (Ok r, add_events st evs)
    /\ (evs = [] \/ exists n, evs = [EnsAddress n]).
Proof.
  unfold Ens.lookupName, try_catch, bind, lift.
  destruct (normalize env name) as [n|e].
  - rewrite call_run.
    destruct (getEnsAddress env (trace st) n) as [a|e];
      (eexists _, [_]; split; [reflexivity|right; eauto]).
  - eexists _, []. rewrite add_events_nil. split; [reflexivity|auto].
Qed.

Lemma resolveRecipient_calls env to st :
  exists r evs,
    Ens.resolveRecipient env to st = (Ok r, add_events st evs)
    /\ (evs = [] \/ exists n, evs = [EnsAddress n]).
Proof.
  unfold Ens.resolveRecipient.
  destruct (isAddress env to).
  { eexists _, []. rewrite add_events_nil. split; [reflexivity|auto]. }
  destruct (endsWith to ".base.eth"); [apply lookupName_calls|].
  destruct (endsWith to ".eth"); [apply lookupName_calls|].
  destruct (matches_label to && Nat.leb 3 (String.length to))%bool;
    [apply lookupName_calls|].
  eexists _, []. rewrite add_events_nil. split; [reflexivity|auto].
Qed.

(** The handler, case by case, up to the dispatch. *)
Lemma GET_cases env request st :
  ((Route.present (Route.query_to request) = None
    \/ Route.present (Route.query_amount request) = None)
   /\ Route.GET env request st
      = (Ok (Route.bad_request "Missing required parameters: to, amount"), st))
  \/ exists to amount,
       Route.present (Route.query_to request) = Some to
       /\ Route.present (Route.query_amount request) = Some amount
       /\ ((amount_accepted amount = false
            /\ Route.GET env request st
               = (Ok (Route.bad_request "Invalid amount. Must be a positive number."), st))
           \/ amount_accepted amount = true
              /\ exists r levs,
                   Ens.resolveRecipient env to st = (Ok r, add_events st levs)
                   /\ (levs = [] \/ exists n, levs = [EnsAddress n])
                   /\ ((Route.present r = None
                        /\ Route.GET env request st
                           = (Ok (Route.bad_request
                                    ("Could not resolve recipient: " ++ to)%string),
                              add_events st levs))
                       \/ exists recipientAddress,
                            Route.present r = Some recipientAddress
                            /\ Route.GET env request st
                               = after_resolution env request to amount
                                   recipientAddress (add_events st levs))).
Proof.
  unfold Route.GET.
  destruct (Route.present (Route.query_to request)) as [to|]; [|left; auto].
  destruct (Route.present (Route.query_amount request)) as [amount|]; [|left; auto].
  right. exists to, amount. split; [reflexivity|]. split; [reflexivity|].
  unfold amount_accepted.
  destruct (isNaN (parseFloat amount) || le_zero (parseFloat amount))%bool;
    [left; auto|right].
  split; [reflexivity|].
  destruct (resolveRecipient_calls env to st) as (r & levs & Hres & Hev).
  exists r, levs. split; [exact Hres|]. split; [exact Hev|].
  unfold after_resolution, bind. rewrite Hres.
  destruct (Route.present r) as [recipientAddress|]; [right|left; auto].
  exists recipientAddress. split; [reflexivity|].
  destruct (X402.getSupportedNetworks env (add_events st levs)) as [[nets|e] st2];
    [|reflexivity].
  destruct nets as [|first rest]; [reflexivity|].
  unfold chosen_network.
  destruct (negb (matches_eip155 _)); [reflexivity|].
  destruct (negb (existsb _ _)); [reflexivity|].
  destruct (Route.present (Route.header_payment_signature request)); reflexivity.
Qed.

(** X6.  a submission is always answered.  [handlePaymentSubmission] never
    throws, whatever the header holds and whatever the escrow library and
    the facilitator do: it answers with status 200, 400, 402 or 500, after at
    most three calls (preprocess, verify, settle, in this order), and
    changes nothing but the trace.  The 400 is given before any call. *)
Theorem submission_always_answers
    env to amount network recipientAddress paymentSignature st :
  exists evs resp,
    Route.handlePaymentSubmission env to amount network recipientAddress
      paymentSignature st = (Ok resp, add_events st evs)
    /\ (Route.status resp = 200 \/ Route.status resp = 400
        \/ Route.status resp = 402 \/ Route.status resp = 500)
    /\ (exists pl v a,
          firstn (List.length evs) [Preprocess pl; Verify v a; Settle v a] = evs)
    /\ (Route.status resp = 400 -> evs = []).
Proof.
  destruct (submission_run env to amount network recipientAddress paymentSignature st)
    as (evs & resp & Hrun & Hshape).
  exists evs, resp. split; [exact Hrun|].
  split; [eapply submission_status; eauto|].
  inversion Hshape; subst; (split; [|try (intros _; reflexivity); cbn; discriminate]);
    try (exists VNull, VNull, VNull; reflexivity);
    try (eexists _, VNull, VNull; reflexivity);
    eexists _, _, _; reflexivity.
Qed.

(** X7.  a receipt is a settled payment.  The route answers a submission with
    status 200 only when the facilitator has verified the processed payload
    as valid and has then settled it with success; the body is then the
    receipt, which carries the amount of the request, the resolved recipient,
    and the network the facilitator settled on (the requested one when the
    facilitator names none). *)
Theorem receipt_is_settled
    env to amount network recipientAddress paymentSignature st resp st' :
  Route.handlePaymentSubmission env to amount network recipientAddress
    paymentSignature st = (Ok resp, st') ->
  Route.status resp = 200 ->
  exists pp processed vr sr,
    let accepted := get_opt "accepted" processed in
    let full := full_of to amount network pp in
    st' = add_events st [Preprocess full; Verify processed accepted;
                         Settle processed accepted]
    /\ preprocessSwapPayload env full = Ok processed
    /\ verify env (trace st ++ [Preprocess full]) processed accepted = Ok vr
    /\ isValid vr = true
    /\ settle env (trace st ++ [Preprocess full; Verify processed accepted])
         processed accepted = Ok sr
    /\ settle_success sr = true
    /\ resp = Route.payment_response
                (Route.successResponse to amount network recipientAddress sr) 200
    /\ get_opt "amount" (Route.successResponse to amount network recipientAddress sr)
       = VStr amount
    /\ get_opt "recipient" (Route.successResponse to amount network recipientAddress sr)
       = VStr recipientAddress
    /\ get_opt "network" (Route.successResponse to amount network recipientAddress sr)
       = VStr (or_default (settle_network sr) network).
Proof.
  intros Hrun H200.
  destruct (submission_run env to amount network recipientAddress paymentSignature st)
    as (evs & resp' & Hrun' & Hshape).
  rewrite Hrun in Hrun'. inversion Hrun'; subst resp' st'. clear Hrun'.
  inversion Hshape; subst; cbn in H200; try discriminate H200.
  exists pp, processed, vr, sr. cbn zeta.
  repeat (split; [first [reflexivity | assumption]|]). reflexivity.
Qed.

Lemma receipt_is_settled_witness :
  exists sr,
    fst (Route.handlePaymentSubmission Example.env Example.alice "1.00" Example.base
           Example.alice (Client.paymentSignature Example.escrow_payload) initial)
    = Ok (Route.payment_response
            (Route.successResponse Example.alice "1.00" Example.base Example.alice sr)
            200)
    /\ settle_success sr = true.
Proof.
  destruct (Route.handlePaymentSubmission Example.env Example.alice "1.00" Example.base
              Example.alice (Client.paymentSignature Example.escrow_payload) initial)
    as [out st'] eqn:Hrun.
  assert (Hout : exists resp, out = Ok resp /\ Route.status resp = 200).
  { vm_compute in Hrun. inversion Hrun; subst. eexists; split; reflexivity. }
  destruct Hout as (resp & -> & H200).
  destruct (receipt_is_settled _ _ _ _ _ _ _ _ _ Hrun H200)
    as (pp & processed & vr & sr & _ & _ & _ & _ & _ & Hs & Hresp & _).
  exists sr. split; [simpl; now rewrite Hresp|exact Hs].
Defined.

(** X8.  the resolved recipient only labels the receipt.  Two submissions that
    differ in nothing but the resolved recipient make the same calls with
    the same arguments and get the same status; unless that status is 200
    they get the same response.  The requirement that is verified and
    settled is the one the client sent, whoever it pays. *)
Theorem recipient_only_labels_receipt
    env to amount network recipient1 recipient2 paymentSignature st :
  exists evs resp1 resp2,
    Route.handlePaymentSubmission env to amount network recipient1
      paymentSignature st = (Ok resp1, add_events st evs)
    /\ Route.handlePaymentSubmission env to amount network recipient2
         paymentSignature st = (Ok resp2, add_events st evs)
    /\ Route.status resp1 = Route.status resp2
    /\ (Route.status resp1 <> 200 -> resp1 = resp2).
Proof.
  destruct (submission_run env to amount network recipient1 paymentSignature st)
    as (evs & resp1 & Hrun1 & Hshape1).
  destruct (submission_run env to amount network recipient2 paymentSignature st)
    as (evs2 & resp2 & Hrun2 & Hshape2).
  assert (H : evs2 = evs /\ Route.status resp1 = Route.status resp2
              /\ (Route.status resp1 <> 200 -> resp1 = resp2)).
  { unfold submitted, full_of in *.
    inversion Hshape1; subst; inversion Hshape2; subst;
      unfold submitted, complete, has_accepted, full_of in *;
      repeat match goal with
             | H1 : ?x = Some _, H2 : ?x = Some _ |- _ =>
                 rewrite H1 in H2; inversion H2; subst; clear H2
             | H1 : ?x = Ok _, H2 : ?x = Ok _ |- _ =>
                 rewrite H1 in H2; inversion H2; subst; clear H2
             | H1 : ?x = Throw _, H2 : ?x = Throw _ |- _ =>
                 rewrite H1 in H2; inversion H2; subst; clear H2
             end;
      try congruence; try tauto;
      try (split; [reflexivity|]; split; [reflexivity|]; intros Hn; try reflexivity;
           exfalso; apply Hn; reflexivity).
    all: exfalso; intuition congruence. }
  destruct H as (-> & Hst & Heq).
  exists evs, resp1, resp2. auto.
Qed.

Lemma getSupportedNetworks_cases env st :
  (supportedNetworks_cache st = None
   /\ exists e, getSupported env (trace st) = Throw e
                /\ X402.getSupportedNetworks env st
                   = (Throw e, add_events st [GetSupported]))
  \/ exists nets sevs,
       X402.getSupportedNetworks env st = (Ok nets, looked_up st sevs nets)
       /\ networks_known env st nets sevs.
Proof.
  unfold X402.getSupportedNetworks, bind, get_state, networks_known.
  destruct (supportedNetworks_cache st) as [l|] eqn:Hc.
  - right. exists l, []. split; [|auto].
    unfold ret, looked_up, with_supportedNetworks. rewrite add_events_nil.
    destruct st; simpl in *; subst; reflexivity.
  - unfold X402.facilitator_getSupported. rewrite call_run.
    destruct (getSupported env (trace st)) as [kinds|e] eqn:Hs.
    + right. exists (X402.networks_of kinds), [GetSupported].
      split; [reflexivity|]. right. eauto.
    + left. split; [reflexivity|]. exists e. auto.
Qed.

(** The handler after the recipient is resolved: it throws what the
    facilitator's lookup throws, and otherwise answers. *)
Lemma after_resolution_run env request to amount recipientAddress st :
  (supportedNetworks_cache st = None
   /\ exists e, getSupported env (trace st) = Throw e
                /\ after_resolution env request to amount recipientAddress st
                   = (Throw e, add_events st [GetSupported]))
  \/ exists nets sevs resp created evs,
       networks_known env st nets sevs
       /\ after_resolution env request to amount recipientAddress st
          = (Ok resp, after (looked_up st sevs nets) created evs)
       /\ ((created = false /\ evs = [] /\ network_rejected request nets resp)
           \/ exists network,
                chosen_network request nets = Some network
                /\ ((Route.present (Route.header_payment_signature request) = None
                     /\ created = true
                     /\ challenge_built to amount network recipientAddress st evs resp)
                    \/ exists paymentSignature,
                         Route.present (Route.header_payment_signature request)
                         = Some paymentSignature
                         /\ created = false
                         /\ submission_shape env to amount network recipientAddress
                              paymentSignature (trace st ++ sevs) evs resp)).
Proof.
  unfold after_resolution, bind.
  destruct (getSupportedNetworks_cases env st)
    as [(Hc & e & Hs & Hrun)|(nets & sevs & Hrun & Hhow)]; rewrite Hrun.
  { left. eauto. }
  right. exists nets, sevs.
  assert (Hexit : forall resp,
            network_rejected request nets resp ->
            exists resp0 created evs,
              networks_known env st nets sevs
              /\ ret resp (looked_up st sevs nets)
                 = (Ok resp0, after (looked_up st sevs nets) created evs)
              /\ ((created = false /\ evs = [] /\ network_rejected request nets resp0)
                  \/ exists network,
                       chosen_network request nets = Some network
                       /\ ((Route.present (Route.header_payment_signature request) = None
                            /\ created = true
                            /\ challenge_built to amount network recipientAddress
                                 st evs resp0)
                           \/ exists paymentSignature,
                                Route.present (Route.header_payment_signature request)
                                = Some paymentSignature
                                /\ created = false
                                /\ submission_shape env to amount network
                                     recipientAddress paymentSignature
                                     (trace st ++ sevs) evs resp0))).
  { intros resp Hresp. exists resp, false, [].
    split; [exact Hhow|]. split; [now rewrite after_nil|]. left. auto. }
  destruct (chosen_network request nets) as [network|] eqn:Hn.
  2:{ apply Hexit. left. split; [|reflexivity].
      destruct nets; [reflexivity|discriminate Hn]. }
  destruct (negb (matches_eip155 network));
    [apply Hexit; right; exists network; auto|].
  destruct (negb (existsb (String.eqb network) nets));
    [apply Hexit; right; exists network; auto|].
  destruct (Route.present (Route.header_payment_signature request)) as [sig|] eqn:Hh.
  - destruct (submission_run env to amount network recipientAddress sig
                (looked_up st sevs nets)) as (evs & resp & Hsub & Hshape).
    exists resp, false, evs. split; [exact Hhow|].
    split; [now rewrite Hsub, after_events|].
    right. exists network. split; [reflexivity|]. right. exists sig. auto.
  - destruct (handle402_run env to amount network recipientAddress
                (looked_up st sevs nets)) as (ex & es & cevs & Hch & Hev & Hin & Hw & Hord).
    eexists _, true, _. split; [exact Hhow|]. split; [exact Hch|].
    right. exists network. split; [reflexivity|]. left.
    split; [reflexivity|]. split; [reflexivity|]. exists ex, es. auto.
Qed.

Lemma looked_up_same st nets :
  supportedNetworks_cache st = Some nets -> looked_up st [] nets = st.
Proof.
  intros H. unfold looked_up, with_supportedNetworks. rewrite add_events_nil.
  destruct st; simpl in *; subst; reflexivity.
Qed.

Lemma Forall_lookups (P : event -> Prop) levs :
  (forall n, P (EnsAddress n)) ->
  levs = [] \/ (exists n, levs = [EnsAddress n]) -> Forall P levs.
Proof. intros HP [->|(n & ->)]; repeat constructor. apply HP. Qed.

(** X9.  what escapes the handler.  [GET] throws in one situation only: the
    supported networks are not yet known and the facilitator's
    [getSupported] throws when asked for them.  The exception is the
    facilitator's, it comes after the recipient has been resolved, and
    nothing is stored, so the next request asks again. *)
Theorem GET_throws_only_from_facilitator env request st e st' :
  Route.GET env request st = (Throw e, st') ->
  supportedNetworks_cache st = None
  /\ supportedNetworks_cache st' = None
  /\ exists levs,
       (levs = [] \/ exists n, levs = [EnsAddress n])
       /\ getSupported env (trace st ++ levs) = Throw e
       /\ st' = add_events st (levs ++ [GetSupported]).
Proof.
  intros Hrun.
  destruct (GET_cases env request st)
    as [(_ & H)|(to & amount & _ & _ & [(_ & H)|(_ & r & levs & _ & Hlevs & H)])];
    try (rewrite H in Hrun; discriminate Hrun).
  destruct H as [(_ & H)|(recipientAddress & _ & H)];
    [rewrite H in Hrun; discriminate Hrun|].
  rewrite H in Hrun. clear H.
  destruct (after_resolution_run env request to amount recipientAddress
              (add_events st levs))
    as [(Hc & e' & Hs & H)|(nets & sevs & resp & created & evs & _ & H & _)];
    rewrite H in Hrun; [|discriminate Hrun].
  inversion Hrun; subst e' st'. split; [exact Hc|]. split; [exact Hc|].
  exists levs. split; [exact Hlevs|]. split; [exact Hs|].
  now rewrite add_events_app.
Qed.

Lemma GET_throws_only_from_facilitator_witness :
  exists e st',
    Route.GET env_facilitator_down challenge_request initial = (Throw e, st')
    /\ supportedNetworks_cache st' = None.
Proof.
  destruct (Route.GET env_facilitator_down challenge_request initial)
    as [out st'] eqn:Hrun.
  assert (Hout : exists e, out = Throw e).
  { vm_compute in Hrun. inversion Hrun; subst. eexists; reflexivity. }
  destruct Hout as (e & ->).
  exists e, st'. split; [reflexivity|].
  exact (proj1 (proj2 (GET_throws_only_from_facilitator _ _ _ _ _ Hrun))).
Defined.

(** X10.  a warmed-up process.  Once the server exists and the supported
    networks are known, [GET] always answers (it cannot throw), leaves both
    as they are, and asks the facilitator neither for its supported kinds
    nor to initialize again: the list of networks a process validates
    against is the one it fetched first. *)
Theorem warm_route_asks_no_more env request st nets :
  warm st nets ->
  exists resp evs,
    Route.GET env request st = (Ok resp, add_events st evs)
    /\ warm (add_events st evs) nets
    /\ ~ In GetSupported evs
    /\ ~ In ServerInitialize evs.
Proof.
  intros (Hs & Hc).
  assert (Hwarm : forall evs, warm (add_events st evs) nets) by (intros; split; assumption).
  assert (Hlook : forall levs,
            levs = [] \/ (exists n, levs = [EnsAddress n]) ->
            ~ In GetSupported levs /\ ~ In ServerInitialize levs).
  { intros levs [->|(n & ->)]; split; simpl; intuition discriminate. }
  destruct (GET_cases env request st)
    as [(_ & H)|(to & amount & _ & _ & [(_ & H)|(_ & r & levs & _ & Hlevs & H)])].
  1,2: eexists _, []; rewrite add_events_nil; split; [exact H|];
       split; [rewrite <- (add_events_nil st) at 1; apply Hwarm|]; simpl; tauto.
  destruct (Hlook levs Hlevs) as (Hl1 & Hl2).
  destruct H as [(_ & H)|(recipientAddress & _ & H)].
  { eexists _, levs. split; [exact H|]. auto. }
  rewrite H. clear H.
  destruct (after_resolution_run env request to amount recipientAddress
              (add_events st levs))
    as [(Hc' & _)|(nets' & sevs & resp & created & evs & Hhow & H & Hwhat)].
  { cbn in Hc'. congruence. }
  destruct Hhow as [(Hc' & ->)|(Hc' & _)]; [|cbn in Hc'; congruence].
  cbn in Hc'. assert (nets' = nets) by congruence. subst nets'.
  rewrite looked_up_same in H by exact Hc'.
  assert (Hst : after (add_events st levs) created evs = add_events st (levs ++ evs)).
  { unfold after, add_events. cbn. rewrite Hs, app_assoc. reflexivity. }
  rewrite Hst in H. exists resp, (levs ++ evs). split; [exact H|].
  split; [apply Hwarm|].
  assert (Hevs : ~ In GetSupported evs /\ ~ In ServerInitialize evs).
  { destruct Hwhat as [(_ & -> & _)|(network & _ & [(_ & _ & ex & es & _ & _ & _ & Hw & _)
                                                   |(sig & _ & _ & Hshape)])].
    - simpl; tauto.
    - rewrite (Hw Hs). simpl. intuition discriminate.
    - apply submission_events in Hshape. rewrite Forall_forall in Hshape.
      split; intros Hin; apply Hshape in Hin; exact Hin. }
  rewrite !in_app_iff. tauto.
Qed.

Lemma warm_route_asks_no_more_witness :
  exists resp evs,
    Route.GET Example.env challenge_request warmed_up
    = (Ok resp, add_events warmed_up evs)
    /\ ~ In GetSupported evs.
Proof.
  destruct (warm_route_asks_no_more Example.env challenge_request warmed_up
              [Example.base]) as (resp & evs & Hrun & _ & Hn & _).
  - split; reflexivity.
  - exists resp, evs. split; [exact Hrun|exact Hn].
Defined.

(** X11.  the payment header decides which calls are made.  A request without
    a (non-empty) [PAYMENT-SIGNATURE] header never reaches the escrow
    library's preprocessing, [verify] or [settle]; a request with one never
    asks for a quote and never creates or initializes the server. *)
Theorem dispatch_by_header env request st out st' :
  Route.GET env request st = (out, st') ->
  exists evs,
    trace st' = trace st ++ evs
    /\ (Route.present (Route.header_payment_signature request) = None ->
        Forall (fun ev => ~ payment_event ev) evs)
    /\ (Route.present (Route.header_payment_signature request) <> None ->
        Forall (fun ev => ~ quote_event ev /\ ev <> ServerInitialize) evs
        /\ server_created st' = server_created st).
Proof.
  intros Hrun.
  assert (Hnil : exists evs,
            trace st = trace st ++ evs
            /\ (Route.present (Route.header_payment_signature request) = None ->
                Forall (fun ev => ~ payment_event ev) evs)
            /\ (Route.present (Route.header_payment_signature request) <> None ->
                Forall (fun ev => ~ quote_event ev /\ ev <> ServerInitialize) evs
                /\ server_created st = server_created st)).
  { exists []. rewrite app_nil_r. repeat split; constructor. }
  destruct (GET_cases env request st)
    as [(_ & H)|(to & amount & _ & _ & [(_ & H)|(_ & r & levs & _ & Hlevs & H)])].
  1,2: rewrite H in Hrun; inversion Hrun; subst; exact Hnil.
  assert (Hl1 : Forall (fun ev => ~ payment_event ev) levs)
    by (apply Forall_lookups; [intros n []|exact Hlevs]).
  assert (Hl2 : Forall (fun ev => ~ quote_event ev /\ ev <> ServerInitialize) levs).
  { apply Forall_lookups; [|exact Hlevs]. intros n. split; [intros []|discriminate]. }
  destruct H as [(_ & H)|(recipientAddress & _ & H)].
  { rewrite H in Hrun; inversion Hrun; subst. exists levs. auto. }
  rewrite H in Hrun. clear H.
  destruct (after_resolution_run env request to amount recipientAddress
              (add_events st levs))
    as [(Hc & e' & Hs & H)|(nets & sevs & resp & created & evs & Hhow & H & Hwhat)];
    rewrite H in Hrun; inversion Hrun; subst; clear Hrun.
  { exists (levs ++ [GetSupported]). cbn. rewrite app_assoc. split; [reflexivity|].
    split; [intros _|intros _; split; [|reflexivity]];
      (apply Forall_app; split; [assumption|]); repeat constructor.
    - intros [].
    - intros [].
    - discriminate. }
  assert (Hs1 : Forall (fun ev => ~ payment_event ev) sevs
                /\ Forall (fun ev => ~ quote_event ev /\ ev <> ServerInitialize) sevs).
  { destruct Hhow as [(_ & ->)|(_ & -> & _)]; split;
      first [ apply Forall_nil
            | apply Forall_cons; [|apply Forall_nil];
              first [ intros [] | split; [intros []|discriminate] ] ]. }
  destruct Hs1 as (Hs1 & Hs2).
  exists (levs ++ sevs ++ evs). cbn. rewrite <- !app_assoc. split; [reflexivity|].
  destruct Hwhat as [(-> & -> & _)|(network & _ & [(Hh & -> & ex & es & _ & Hev & _ & _)
                                                   |(sig & Hh & -> & Hshape)])].
  - rewrite orb_false_r. split; [intros _|intros _; split; [|reflexivity]];
      repeat (apply Forall_app; split); auto.
  - split; [intros _|intros Hn; contradiction].
    repeat (apply Forall_app; split); auto.
    eapply Forall_impl; [|exact Hev]. intros ev Hc Hp.
    destruct ev; simpl in *; contradiction.
  - rewrite orb_false_r. split; [intros Hn; congruence|].
    intros _. split; [|reflexivity].
    repeat (apply Forall_app; split); auto.
    apply submission_events in Hshape.
    eapply Forall_impl; [|exact Hshape]. intros ev Hp.
    destruct ev; simpl in *; try contradiction; (split; [intros []|discriminate]).
Qed.

Lemma dispatch_by_header_witness :
  exists evs,
    trace (snd (Route.GET Example.env submission_request initial)) = [] ++ evs
    /\ Forall (fun ev => ~ quote_event ev /\ ev <> ServerInitialize) evs.
Proof.
  destruct (dispatch_by_header Example.env submission_request initial _ _
              (surjective_pairing _)) as (evs & Htr & _ & Hq).
  exists evs. split; [exact Htr|]. apply Hq. discriminate.
Defined.

(** X12.  an empty list of networks is kept.  When the facilitator's answer
    holds no [exact] or [escrow] kind, the list that is stored is empty; and
    with an empty list stored, every well-formed request is answered with
    the 400 of an unresolved recipient or with the 500
    [No networks supported by facilitator], and the facilitator is not asked
    again. *)
Theorem empty_supported_list_is_kept env :
  (forall st kinds,
     supportedNetworks_cache st = None ->
     getSupported env (trace st) = Ok kinds ->
     tip_kinds kinds = [] ->
     X402.getSupportedNetworks env st
     = (Ok [], with_supportedNetworks (add_events st [GetSupported]) (Some [])))
  /\ (forall request st to amount,
        supportedNetworks_cache st = Some [] ->
        well_formed request to amount ->
        exists resp levs,
          Route.GET env request st = (Ok resp, add_events st levs)
          /\ (levs = [] \/ exists n, levs = [EnsAddress n])
          /\ (resp = unresolved to \/ resp = no_networks)).
Proof.
  split.
  - intros st kinds Hc Hs Ht.
    assert (Hn : X402.networks_of kinds = []).
    { destruct (networks_fold kinds []) as (_ & Hin & _ & _).
      destruct (X402.networks_of kinds) as [|n l] eqn:E; [reflexivity|].
      exfalso. assert (Hn : In n (n :: l)) by now left.
      unfold X402.networks_of in E. rewrite E in Hin.
      apply Hin in Hn. destruct Hn as [[]|(k & Hk & Hs' & _)].
      assert (Hf : In k (tip_kinds kinds)) by (apply filter_In; auto).
      rewrite Ht in Hf. exact Hf. }
    unfold X402.getSupportedNetworks, bind, get_state. rewrite Hc.
    unfold X402.facilitator_getSupported. rewrite call_run, Hs, Hn. reflexivity.
  - intros request st to amount Hc (Hto & Ham & Hok).
    destruct (GET_cases env request st)
      as [([H|H] & _)|(to' & amount' & Hto' & Ham' & [(Hno & _)|(_ & r & levs & _ & Hlevs & H)])];
      try congruence.
    assert (to' = to) by congruence. assert (amount' = amount) by congruence.
    subst to' amount'.
    destruct H as [(_ & H)|(recipientAddress & _ & H)].
    { eexists _, levs. split; [exact H|]. split; [exact Hlevs|]. left. reflexivity. }
    rewrite H. clear H.
    destruct (after_resolution_run env request to amount recipientAddress
                (add_events st levs))
      as [(Hc' & _)|(nets & sevs & resp & created & evs & Hhow & H & Hwhat)].
    { cbn in Hc'. congruence. }
    destruct Hhow as [(Hc' & ->)|(Hc' & _)]; [|cbn in Hc'; congruence].
    cbn in Hc'. assert (nets = []) by congruence. subst nets.
    rewrite looked_up_same in H by exact Hc'.
    destruct Hwhat as [(-> & -> & [(_ & ->)|(network & Hn & _)])|(network & Hn & _)].
    + rewrite after_nil in H. exists no_networks, levs. auto.
    + discriminate Hn.
    + discriminate Hn.
Qed.

(** X13.  the default network.  With the supported networks known, a request
    that names no network (or an empty one) is handled exactly as the same
    request naming the first supported network. *)
Theorem default_network_is_first env request st first rest :
  supportedNetworks_cache st = Some (first :: rest) ->
  Route.present (Route.query_network request) = None ->
  Route.GET env request st
  = Route.GET env (with_network request (Some first)) st.
Proof.
  intros Hc Hnone. unfold Route.GET. cbn [with_network Route.query_to Route.query_amount
    Route.query_network Route.header_payment_signature].
  destruct (Route.present (Route.query_to request)) as [to|]; [|reflexivity].
  destruct (Route.present (Route.query_amount request)) as [amount|]; [|reflexivity].
  destruct (isNaN (parseFloat amount) || le_zero (parseFloat amount))%bool; [reflexivity|].
  destruct (resolveRecipient_calls env to st) as (r & levs & Hres & _).
  unfold bind at 1 3. rewrite Hres.
  destruct (Route.present r) as [recipientAddress|]; [|reflexivity].
  assert (Hsup : X402.getSupportedNetworks env (add_events st levs)
                 = (Ok (first :: rest), add_events st levs)).
  { unfold X402.getSupportedNetworks, bind, get_state.
    change (supportedNetworks_cache (add_events st levs))
      with (supportedNetworks_cache st). now rewrite Hc. }
  unfold bind. rewrite Hsup, Hnone.
  assert (Hf : match Route.present (Some first) with
               | Some n => n
               | None => first
               end = first).
  { unfold Route.present. destruct (str_truthy first); reflexivity. }
  rewrite Hf. reflexivity.
Qed.

Lemma default_network_is_first_witness :
  Route.GET Example.env challenge_request warmed_up
  = Route.GET Example.env (with_network challenge_request (Some Example.base)) warmed_up.
Proof.
  apply (default_network_is_first Example.env challenge_request warmed_up
           Example.base []); reflexivity.
Defined.

Lemma lookupName_down env name st :
  name_service_down env ->
  exists levs,
    Ens.lookupName env name st = (Ok None, add_events st levs)
    /\ (levs = [] \/ exists n, levs = [EnsAddress n]).
Proof.
  intros Hdown. unfold Ens.lookupName, try_catch, bind, lift.
  destruct (normalize env name) as [n|e].
  - rewrite call_run. destruct (Hdown (trace st) n) as (e & ->).
    exists [EnsAddress n]. split; [reflexivity|eauto].
  - exists []. rewrite add_events_nil. auto.
Qed.

(** X14.  a name service out of reach.  When the name service cannot be
    reached, a well-formed request whose recipient is not an address is
    answered 400 [Could not resolve recipient], as for a name that does not
    exist; the failure is not reported as such, and the facilitator is not
    called. *)
Theorem name_service_outage env request st to amount :
  name_service_down env ->
  isAddress env to = false ->
  well_formed request to amount ->
  exists levs,
    Route.GET env request st = (Ok (unresolved to), add_events st levs)
    /\ (levs = [] \/ exists n, levs = [EnsAddress n]).
Proof.
  intros Hdown Ha (Hto & Ham & Hok).
  assert (Hres : exists levs,
            Ens.resolveRecipient env to st = (Ok None, add_events st levs)
            /\ (levs = [] \/ exists n, levs = [EnsAddress n])).
  { unfold Ens.resolveRecipient. rewrite Ha.
    destruct (endsWith to ".base.eth"); [now apply lookupName_down|].
    destruct (endsWith to ".eth"); [now apply lookupName_down|].
    destruct (matches_label to && Nat.leb 3 (String.length to))%bool;
      [now apply lookupName_down|].
    exists []. rewrite add_events_nil. auto. }
  destruct Hres as (levs & Hres & Hlevs).
  exists levs. split; [|exact Hlevs].
  unfold Route.GET. rewrite Hto, Ham.
  unfold amount_accepted in Hok. apply negb_true_iff in Hok. rewrite Hok.
  unfold bind. rewrite Hres. reflexivity.
Qed.

Lemma name_service_outage_witness :
  exists levs,
    Route.GET env_name_service_down
      (with_network
         {| Route.query_to := Some "alice.eth";
            Route.query_amount := Some "1.00";
            Route.query_network := None;
            Route.header_payment_signature := None |} None) initial
    = (Ok (unresolved "alice.eth"), add_events initial levs).
Proof.
  destruct (name_service_outage env_name_service_down
              (with_network
                 {| Route.query_to := Some "alice.eth";
                    Route.query_amount := Some "1.00";
                    Route.query_network := None;
                    Route.header_payment_signature := None |} None)
              initial "alice.eth" "1.00") as (levs & Hrun & _).
  - intros h n. eexists. reflexivity.
  - reflexivity.
  - repeat split; reflexivity.
  - exists levs. exact Hrun.
Defined.

Lemma encode_not_empty s : s <> EmptyString -> Base64.encode s <> EmptyString.
Proof.
  destruct s as [|a [|b [|c r]]]; [contradiction| | |]; intros _; discriminate.
Qed.

Lemma representable_strings l : forallb representable (map VStr l) = true.
Proof. induction l; simpl; auto. Qed.

Lemma representable_requirements reqs :
  wire_ready reqs -> representable (Route.requirements_value reqs) = true.
Proof.
  unfold Route.requirements_value. cbn [representable].
  induction 1 as [|r reqs Hr _ IH]; [reflexivity|].
  cbn [map forallb]. rewrite IH, andb_true_r.
  unfold Route.requirement_value. cbn. now rewrite Hr.
Qed.

Section HookPlatform.
Variable numberText : Z -> Z -> string.
Variable syntaxErrorMessage : string -> string.

Lemma hook_on_challenge messageText to amount network reqs :
  wire_ready reqs ->
  Hooks.readRequirements numberText syntaxErrorMessage
    (Route.challenge messageText to amount network reqs)
  = Ok (Route.requirements_value reqs).
Proof.
  intros Hw. unfold Hooks.readRequirements.
  change (Route.status (Route.challenge messageText to amount network reqs)) with 402.
  cbn [Z.eqb Pos.eqb negb].
  change (Route.get_header "PAYMENT-REQUIRED"
            (Route.headers (Route.challenge messageText to amount network reqs)))
    with (Some (Route.encode_header (Route.requirements_value reqs))).
  unfold Route.present.
  assert (Hne : str_truthy (Route.encode_header (Route.requirements_value reqs)) = true).
  { unfold str_truthy. apply negb_true_iff.
    destruct (String.eqb _ "") eqn:E; [|reflexivity].
    apply String.eqb_eq in E. exfalso. revert E.
    apply encode_not_empty. unfold JSON.stringify, Route.requirements_value.
    cbn [JSON.tokens_of JSON.print_tokens JSON.print_token]. discriminate. }
  rewrite Hne, header_round_trip; [reflexivity|].
  now apply representable_requirements.
Qed.

Lemma hook_on_error resp message :
  route_error resp message ->
  Hooks.readRequirements numberText syntaxErrorMessage resp = Throw (Error message).
Proof.
  intros (more & code & -> & Hcode & Hne & Hrep).
  unfold Hooks.readRequirements. cbn [Route.status Route.NextResponse_json Route.body].
  destruct (Z.eqb code 402) eqn:E; [apply Z.eqb_eq in E; contradiction|].
  cbn [negb]. rewrite parse_stringify by exact Hrep.
  cbn [get_opt lookup String.eqb Ascii.eqb Bool.eqb truthy Hooks.toText].
  unfold str_truthy. destruct (String.eqb message "") eqn:Em; [|reflexivity].
  apply String.eqb_eq in Em. contradiction.
Qed.
End HookPlatform.

Lemma simple_error message code :
  code <> 402 -> message <> EmptyString ->
  route_error (Route.NextResponse_json (VObj [("error", VStr message)]) code) message.
Proof. intros Hc Hm. exists [], code. repeat split; auto. Qed.

(** X15.  the hook reads what the route answers.  Whatever [GET] answers to a
    request without payment header, [usePaymentRequirements] makes of it
    what the route meant: from a 402 it returns the list of requirements the
    route built (when their [extra] survives JSON), which is never empty;
    from every other answer it throws an [Error] whose message is the text
    of the route's [error]. *)
Theorem hook_reads_route_answer
    env numberText syntaxErrorMessage request st resp st' :
  Route.GET env request st = (Ok resp, st') ->
  Route.present (Route.header_payment_signature request) = None ->
  (exists to amount network reqs,
     reqs <> []
     /\ resp = Route.challenge "Payment required" to amount network reqs
     /\ (wire_ready reqs ->
         Hooks.readRequirements numberText syntaxErrorMessage resp
         = Ok (Route.requirements_value reqs)))
  \/ (exists message,
        route_error resp message
        /\ Hooks.readRequirements numberText syntaxErrorMessage resp
           = Throw (Error message)).
Proof.
  intros Hrun Hh.
  assert (Herr : forall message,
            route_error resp message ->
            (exists to amount network reqs,
               reqs <> []
               /\ resp = Route.challenge "Payment required" to amount network reqs
               /\ (wire_ready reqs ->
                   Hooks.readRequirements numberText syntaxErrorMessage resp
                   = Ok (Route.requirements_value reqs)))
            \/ (exists message,
                  route_error resp message
                  /\ Hooks.readRequirements numberText syntaxErrorMessage resp
                     = Throw (Error message))).
  { intros message He. right. exists message. split; [exact He|].
    now apply hook_on_error. }
  destruct (GET_cases env request st)
    as [(_ & H)|(to & amount & _ & _ & [(_ & H)|(_ & r & levs & _ & Hlevs & H)])].
  1,2: rewrite H in Hrun; inversion Hrun; subst;
       eapply Herr; apply simple_error; discriminate.
  destruct H as [(_ & H)|(recipientAddress & _ & H)].
  { rewrite H in Hrun; inversion Hrun; subst.
    eapply Herr. apply simple_error; discriminate. }
  rewrite H in Hrun. clear H.
  destruct (after_resolution_run env request to amount recipientAddress
              (add_events st levs))
    as [(Hc & e' & Hs & H)|(nets & sevs & resp0 & created & evs & Hhow & H & Hwhat)];
    rewrite H in Hrun; inversion Hrun; subst; clear Hrun.
  destruct Hwhat as [(_ & _ & [(_ & ->)|(network & _ & [->| ->])])
                    |(network & _ & [(_ & _ & ex & es & -> & _)
                                    |(sig & Hsig & _)])].
  - eapply Herr. apply simple_error; discriminate.
  - eapply Herr. apply simple_error; discriminate.
  - eapply Herr. eexists _, 400. split; [reflexivity|].
    split; [discriminate|]. split; [discriminate|].
    cbn. now rewrite representable_strings.
  - destruct (challenge_answer_status to amount network ex es)
      as [(_ & Hans)|(Hne & Hans)]; rewrite Hans in *.
    + eapply Herr. apply simple_error; discriminate.
    + left. exists to, amount, network, (Route.from_exact ex ++ Route.from_escrow es).
      split; [exact Hne|]. split; [reflexivity|]. apply hook_on_challenge.
  - congruence.
Qed.

Lemma hook_reads_route_answer_witness :
  exists resp st',
    Route.GET Example.env challenge_request initial = (Ok resp, st')
    /\ ((exists to amount network reqs,
           reqs <> []
           /\ resp = Route.challenge "Payment required" to amount network reqs
           /\ (wire_ready reqs ->
               Hooks.readRequirements (fun _ _ => EmptyString) (fun _ => EmptyString) resp
               = Ok (Route.requirements_value reqs)))
        \/ (exists message,
              route_error resp message
              /\ Hooks.readRequirements (fun _ _ => EmptyString) (fun _ => EmptyString) resp
                 = Throw (Error message))).
Proof.
  destruct (Route.GET Example.env challenge_request initial) as [out st'] eqn:Hrun.
  assert (Hout : exists resp, out = Ok resp).
  { vm_compute in Hrun. inversion Hrun; subst. eexists; reflexivity. }
  destruct Hout as (resp & ->).
  exists resp, st'. split; [reflexivity|].
  exact (hook_reads_route_answer Example.env (fun _ _ => EmptyString)
           (fun _ => EmptyString) challenge_request initial resp st' Hrun eq_refl).
Defined.

Lemma form_safe_plain c : Hooks.form_safe c = true -> plain c = true.
Proof.
  destruct c as [[] [] [] [] [] [] [] []]; intros H; try reflexivity;
    discriminate H.
Qed.

Lemma escape_plain c :
  plain (Hooks.upper_hex (N_of_ascii c / 16)) = true
  /\ plain (Hooks.upper_hex (N_of_ascii c mod 16)) = true.
Proof. destruct c as [[] [] [] [] [] [] [] []]; split; reflexivity. Qed.

Lemma form_encode_plain s : all_chars plain (Hooks.form_encode s) = true.
Proof.
  induction s as [|c s IH]; [reflexivity|]. cbn [Hooks.form_encode].
  destruct (Hooks.form_safe c) eqn:Hs.
  - cbn [all_chars]. now rewrite (form_safe_plain c Hs), IH.
  - destruct (Ascii.eqb c " "); cbn [all_chars].
    + now rewrite IH.
    + destruct (escape_plain c) as (H1 & H2). now rewrite H1, H2, IH.
Qed.

Lemma escape_decodes c :
  Hooks.form_safe c = false -> Ascii.eqb c " " = false ->
  exists x y,
    JSON.hex_val (Hooks.upper_hex (N_of_ascii c / 16)) = Some x
    /\ JSON.hex_val (Hooks.upper_hex (N_of_ascii c mod 16)) = Some y
    /\ ascii_of_N (16 * x + y)%N = c
    /\ Ascii.eqb (Hooks.upper_hex (N_of_ascii c / 16)) "+" = false
    /\ Ascii.eqb (Hooks.upper_hex (N_of_ascii c mod 16)) "+" = false.
Proof.
  destruct c as [[] [] [] [] [] [] [] []]; intros H1 H2;
    try discriminate H1; try discriminate H2;
    eexists _, _; repeat split; reflexivity.
Qed.

Lemma safe_is_literal c :
  Hooks.form_safe c = true ->
  Ascii.eqb c "+" = false /\ Ascii.eqb c "%" = false.
Proof.
  destruct c as [[] [] [] [] [] [] [] []]; intros H; try discriminate H;
    split; reflexivity.
Qed.

(** Decoding an encoded value gives it back. *)
Lemma form_decode_encode s : Url.form_decode (Hooks.form_encode s) = s.
Proof.
  unfold Url.form_decode.
  induction s as [|c s IH]; [reflexivity|]. cbn [Hooks.form_encode].
  destruct (Hooks.form_safe c) eqn:Hs.
  - destruct (safe_is_literal c Hs) as (Hp & Hq).
    cbn [Url.plus_to_space]. rewrite Hp. cbn [Url.percent_decode].
    now rewrite Hq, IH.
  - destruct (Ascii.eqb c " ") eqn:Hsp.
    + apply Ascii.eqb_eq in Hsp. subst c.
      cbn [Url.plus_to_space Ascii.eqb Bool.eqb Url.percent_decode]. now rewrite IH.
    + destruct (escape_decodes c Hs Hsp) as (x & y & Hx & Hy & Hc & Hp1 & Hp2).
      cbn [Url.plus_to_space Ascii.eqb Bool.eqb]. rewrite Hp1, Hp2.
      cbn [Url.percent_decode Ascii.eqb Bool.eqb]. now rewrite Hx, Hy, Hc, IH.
Qed.

Lemma all_chars_weaken (p q : ascii -> bool) s :
  (forall c, p c = true -> q c = true) ->
  all_chars p s = true -> all_chars q s = true.
Proof.
  intros Hpq. induction s as [|c s IH]; [reflexivity|]. cbn.
  intros H. apply andb_true_iff in H. destruct H as [Hc Hs].
  now rewrite (Hpq c Hc), IH.
Qed.

Lemma plain_is_not c x :
  plain c = false -> plain x = true -> negb (Ascii.eqb x c) = true.
Proof.
  intros Hc Hx. destruct (Ascii.eqb x c) eqn:E; [|reflexivity].
  apply Ascii.eqb_eq in E. subst x. congruence.
Qed.

Lemma cut_first c s rest :
  all_chars (fun x => negb (Ascii.eqb x c)) s = true ->
  Url.cut c (s ++ String c rest)%string = (s, Some rest).
Proof.
  induction s as [|a s IH]; intros Hs.
  - cbn. now rewrite Ascii.eqb_refl.
  - cbn [all_chars] in Hs. apply andb_true_iff in Hs. destruct Hs as [Ha Hs].
    apply negb_true_iff in Ha. cbn. now rewrite Ha, (IH Hs).
Qed.

Lemma cut_none c s :
  all_chars (fun x => negb (Ascii.eqb x c)) s = true -> Url.cut c s = (s, None).
Proof.
  induction s as [|a s IH]; intros Hs; [reflexivity|].
  cbn [all_chars] in Hs. apply andb_true_iff in Hs. destruct Hs as [Ha Hs].
  apply negb_true_iff in Ha. cbn. now rewrite Ha, (IH Hs).
Qed.

Lemma pieces_first s rest :
  all_chars (fun x => negb (Ascii.eqb x "&")) s = true ->
  Url.pieces "&" (s ++ String "&" rest)%string = s :: Url.pieces "&" rest.
Proof.
  induction s as [|a s IH]; intros Hs; [reflexivity|].
  cbn [all_chars] in Hs. apply andb_true_iff in Hs. destruct Hs as [Ha Hs].
  apply negb_true_iff in Ha. cbn. now rewrite Ha, (IH Hs).
Qed.

Lemma pieces_last s :
  all_chars (fun x => negb (Ascii.eqb x "&")) s = true -> Url.pieces "&" s = [s].
Proof.
  induction s as [|a s IH]; intros Hs; [reflexivity|].
  cbn [all_chars] in Hs. apply andb_true_iff in Hs. destruct Hs as [Ha Hs].
  apply negb_true_iff in Ha. cbn. now rewrite Ha, (IH Hs).
Qed.

Lemma encoded_has_no c s :
  plain c = false ->
  all_chars (fun x => negb (Ascii.eqb x c)) (Hooks.form_encode s) = true.
Proof.
  intros Hc. apply (all_chars_weaken plain); [|apply form_encode_plain].
  intros x. now apply plain_is_not.
Qed.

(** The parameters of the hooks' URL, as the route's parser reads them. *)
Lemma tip_params_read recipient amount network :
  Url.searchParams ("/api/tip?" ++ Hooks.tip_params recipient amount network)%string
  = [("to", recipient); ("amount", amount); ("network", network)].
Proof.
  unfold Url.searchParams, Url.query_of.
  change (snd (Url.cut "?" ("/api/tip?" ++ Hooks.tip_params recipient amount network)))
    with (Some (Hooks.tip_params recipient amount network)).
  cbv iota.
  assert (Hsplit : Hooks.tip_params recipient amount network
                   = (("to=" ++ Hooks.form_encode recipient)
                      ++ String "&" (("amount=" ++ Hooks.form_encode amount)
                                     ++ String "&" ("network="
                                                    ++ Hooks.form_encode network)))%string).
  { unfold Hooks.tip_params. cbn [append]. reflexivity. }
  rewrite Hsplit.
  assert (Hno : forall c name v,
            plain c = false ->
            all_chars (fun x => negb (Ascii.eqb x c)) name = true ->
            all_chars (fun x => negb (Ascii.eqb x c))
              (name ++ Hooks.form_encode v)%string = true).
  { intros c name v Hc Hname. rewrite all_chars_app, Hname. now apply encoded_has_no. }
  rewrite cut_none.
  2:{ rewrite all_chars_app. rewrite (Hno "#"%char "to=" recipient eq_refl eq_refl).
      cbn [andb all_chars Ascii.eqb Bool.eqb negb].
      rewrite all_chars_app. rewrite (Hno "#"%char "amount=" amount eq_refl eq_refl).
      cbn [andb all_chars Ascii.eqb Bool.eqb negb].
      apply (Hno "#"%char "network=" network eq_refl eq_refl). }
  cbn [fst].
  rewrite pieces_first by (apply (Hno "&"%char "to=" recipient); reflexivity).
  rewrite pieces_first by (apply (Hno "&"%char "amount=" amount); reflexivity).
  rewrite pieces_last by (apply (Hno "&"%char "network=" network); reflexivity).
  cbn [filter append String.eqb negb map].
  unfold Url.parse_pair. cbn [Url.cut Ascii.eqb Bool.eqb].
  rewrite !form_decode_encode. reflexivity.
Qed.

(** X16.  the query string round trip.  The parameters that the requirements
    hook (and the payment hook) put in the URL with [URLSearchParams] are,
    for every recipient, amount and network, whatever characters they
    hold, exactly what the route reads back with [searchParams.get]. *)
Theorem query_round_trip recipient amount network paymentSignature :
  Url.request ("/api/tip?" ++ Hooks.tip_params recipient amount network)%string
    paymentSignature
  = {| Route.query_to := Some recipient;
       Route.query_amount := Some amount;
       Route.query_network := Some network;
       Route.header_payment_signature := paymentSignature |}.
Proof. unfold Url.request. now rewrite tip_params_read. Qed.

Lemma find_filter {A} (p q : A -> bool) l :
  find p (filter q l) = find (fun x => q x && p x)%bool l.
Proof.
  induction l as [|x l IH]; [reflexivity|]. simpl.
  destruct (q x); simpl; [|exact IH]. destruct (p x); [reflexivity|exact IH].
Qed.

Lemma find_ext_in {A} (p q : A -> bool) l :
  (forall x, In x l -> p x = q x) -> find p l = find q l.
Proof.
  induction l as [|x l IH]; intros H; [reflexivity|]. simpl.
  rewrite (H x) by now left. destruct (q x); [reflexivity|].
  apply IH. intros y Hy. apply H. now right.
Qed.

Lemma hd_filter {A} (p : A -> bool) l : hd_error (filter p l) = find p l.
Proof.
  induction l as [|x l IH]; [reflexivity|]. simpl. destruct (p x); auto.
Qed.

Lemma find_m_total {A} (p : A -> outcome bool) (q : A -> bool) l :
  Forall (fun x => p x = Ok (q x)) l -> TipForm.find_m p l = Ok (find q l).
Proof.
  induction 1 as [|x l Hx _ IH]; [reflexivity|]. simpl. rewrite Hx.
  destruct (q x); [reflexivity|exact IH].
Qed.

Lemma find_m_some {A} (p : A -> outcome bool) l x :
  TipForm.find_m p l = Ok (Some x) -> In x l /\ p x = Ok true.
Proof.
  induction l as [|y l IH]; simpl; [discriminate|].
  destruct (p y) as [[|]|e] eqn:Hy; try discriminate.
  - intros E; inversion E; subst. auto.
  - intros E. destruct (IH E). auto.
Qed.

Lemma exact_is_not_escrow s :
  String.eqb s "exact" = true -> String.eqb s "escrow" = false.
Proof. intros H. apply String.eqb_eq in H. now subst. Qed.

Lemma escrow_is_not_exact s :
  String.eqb s "escrow" = true -> String.eqb s "exact" = false.
Proof. intros H. apply String.eqb_eq in H. now subst. Qed.

(** On a swap quote the client's policy and the form's search test the
    same thing. *)
Lemma policy_on_swap_quote tokenAddress r :
  swap_quote_for tokenAddress r ->
  Client.policy_keeps tokenAddress (Client.view_requirement r)
  = swaps_from tokenAddress r
  /\ TipForm.is_swap_for tokenAddress r = Ok (swaps_from tokenAddress r).
Proof.
  intros (Hscheme & Hasset & Hin).
  unfold Client.policy_keeps, TipForm.is_swap_for, swaps_from.
  rewrite view_swap_input. fold (swap_input r).
  unfold Client.asset_matches, str_eqb.
  change (Client.scheme (Client.view_requirement r)) with (scheme r).
  change (Client.asset (Client.view_requirement r)) with (Some (asset r)).
  cbv iota. rewrite Hasset.
  destruct Hscheme as [He|He].
  - rewrite He, (exact_is_not_escrow _ He). auto.
  - rewrite He, (escrow_is_not_exact _ He). cbn [negb andb].
    destruct (swap_input r) as [| |b|m e|s|l|ps]; try contradiction; cbn; auto.
    destruct (str_truthy s) eqn:Hs; cbn; [|auto].
    destruct (String.eqb (toLowerCase s) tokenAddress) eqn:Hm.
    + rewrite (Hin eq_refl). auto.
    + destruct (truthy _); auto.
Qed.

(** X17.  the form and the client agree on a direct payment.  When the selected
    token is USDC and the form finds an [exact] requirement for it, that
    requirement is the one the form shows and also the one the client picks
    to sign. *)
Theorem form_and_client_agree_on_exact reqs token r version :
  TipForm.symbol token = "USDC" ->
  find (TipForm.is_exact_for (toLowerCase (TipForm.address token))) reqs = Some r ->
  TipForm.selectedRequirement (Some reqs) (Some token) = Ok (Some r)
  /\ Client.selectRequirement Client.view_requirement (TipForm.address token)
       version reqs = Some r.
Proof.
  intros Hsym Hfind. split.
  - unfold TipForm.selectedRequirement. rewrite Hsym. cbn [String.eqb Ascii.eqb Bool.eqb].
    destruct reqs as [|r0 reqs]; [discriminate Hfind|].
    cbn [List.length Nat.eqb]. cbv zeta. cbn [andb]. now rewrite Hfind.
  - unfold Client.selectRequirement, Client.preferExactSelector,
      Client.createInputTokenPolicy.
    rewrite find_filter.
    rewrite (find_ext_in _ (TipForm.is_exact_for (toLowerCase (TipForm.address token))));
      [now rewrite Hfind|].
    intros x _. unfold Client.policy_keeps, TipForm.is_exact_for, str_eqb,
      Client.asset_matches.
    change (Client.scheme (Client.view_requirement x)) with (scheme x).
    change (Client.asset (Client.view_requirement x)) with (Some (asset x)).
    destruct (String.eqb (scheme x) "exact"); [|now rewrite andb_false_r].
    now rewrite andb_true_r.
Qed.

Lemma form_and_client_agree_on_exact_witness :
  exists r,
    TipForm.selectedRequirement (Some example_accepts) (Some usdc_token) = Ok (Some r)
    /\ Client.selectRequirement Client.view_requirement Example.usdc 2 example_accepts
       = Some r.
Proof.
  eexists.
  apply (form_and_client_agree_on_exact example_accepts usdc_token _ 2);
    reflexivity.
Defined.

(** X18.  what the form shows for a swap is kept by the client.  For a token
    other than USDC the requirement whose quote the form shows is one of the
    given requirements, of scheme [escrow], with a [maxInputAmount], and the
    client's policy keeps it: the client signs a requirement for the same
    input token. *)
Theorem shown_swap_is_kept reqs token r version :
  TipForm.symbol token <> "USDC" ->
  TipForm.selectedRequirement (Some reqs) (Some token) = Ok (Some r) ->
  In r reqs
  /\ scheme r = "escrow"
  /\ truthy (get_opt "maxInputAmount" (get_opt "swapData" (extra r))) = true
  /\ In r (Client.createInputTokenPolicy Client.view_requirement
             (TipForm.address token) version reqs).
Proof.
  intros Hsym. unfold TipForm.selectedRequirement.
  destruct (Nat.eqb (List.length reqs) 0); [discriminate|].
  assert (Hs : String.eqb (TipForm.symbol token) "USDC" = false).
  { destruct (String.eqb _ "USDC") eqn:E; [|reflexivity].
    apply String.eqb_eq in E. contradiction. }
  cbv zeta. rewrite Hs.
  destruct (TipForm.find_m _ reqs) as [[x|]|e] eqn:Hf; try discriminate.
  intros E; inversion E; subst x. clear E.
  apply find_m_some in Hf. destruct Hf as (Hin & Hp).
  unfold TipForm.is_swap_for in Hp.
  destruct (String.eqb (scheme r) "escrow") eqn:Hsch; [|discriminate Hp].
  cbn [negb] in Hp. fold (swap_input r) in Hp.
  destruct (truthy (swap_input r)) eqn:Ht; [|discriminate Hp].
  destruct (truthy (get_opt "maxInputAmount" _)) eqn:Hmax; [|discriminate Hp].
  cbn [negb orb] in Hp.
  destruct (swap_input r) as [| |b|m e|s|l|ps] eqn:Hsi; try discriminate Hp.
  injection Hp as Hm.
  split; [exact Hin|]. split; [now apply String.eqb_eq|]. split; [reflexivity|].
  unfold Client.createInputTokenPolicy. apply filter_In. split; [exact Hin|].
  unfold Client.policy_keeps, str_eqb.
  change (Client.scheme (Client.view_requirement r)) with (scheme r).
  rewrite (escrow_is_not_exact _ Hsch), view_swap_input, Hsi.
  cbn [Client.string_prop]. cbn [truthy] in Ht. now rewrite Ht.
Qed.

Lemma shown_swap_is_kept_witness :
  exists r,
    TipForm.selectedRequirement (Some example_accepts) (Some weth_token) = Ok (Some r)
    /\ In r (Client.createInputTokenPolicy Client.view_requirement
               Example.weth 2 example_accepts).
Proof.
  eexists. split; [reflexivity|].
  apply (shown_swap_is_kept example_accepts weth_token _ 2);
    [discriminate|reflexivity].
Defined.

(** X19.  the quote shown is the quote signed.  For a token other than USDC,
    when every requirement is an [exact] or [escrow] one that settles in
    another token and whose swap quote, if it is for this token, has a
    [maxInputAmount], the requirement the form shows is exactly the one the
    client picks to sign (and the form shows none when the client finds
    none). *)
Theorem shown_quote_is_signed reqs token version :
  TipForm.symbol token <> "USDC" ->
  Forall (swap_quote_for (toLowerCase (TipForm.address token))) reqs ->
  TipForm.selectedRequirement (Some reqs) (Some token)
  = Ok (Client.selectRequirement Client.view_requirement (TipForm.address token)
          version reqs).
Proof.
  intros Hsym Hq.
  set (tokenAddress := toLowerCase (TipForm.address token)) in *.
  assert (Hs : String.eqb (TipForm.symbol token) "USDC" = false).
  { destruct (String.eqb _ "USDC") eqn:E; [|reflexivity].
    apply String.eqb_eq in E. contradiction. }
  assert (Hclient : Client.selectRequirement Client.view_requirement
                      (TipForm.address token) version reqs
                    = find (swaps_from tokenAddress) reqs).
  { unfold Client.selectRequirement, Client.preferExactSelector,
      Client.createInputTokenPolicy. fold tokenAddress.
    rewrite (filter_ext_in _ (swaps_from tokenAddress)).
    2:{ intros x Hx. rewrite Forall_forall in Hq.
        now apply policy_on_swap_quote, Hq. }
    rewrite find_filter.
    rewrite (find_ext_in _ (fun _ => false)).
    2:{ intros x _. unfold swaps_from, str_eqb.
        change (Client.scheme (Client.view_requirement x)) with (scheme x).
        destruct (String.eqb (scheme x) "escrow") eqn:E; [|reflexivity].
        rewrite (escrow_is_not_exact _ E). now rewrite andb_false_r. }
    replace (find (fun _ => false) reqs) with (@None PaymentRequirements)
      by (clear; induction reqs; auto).
    apply hd_filter. }
  rewrite Hclient. unfold TipForm.selectedRequirement.
  destruct reqs as [|r0 reqs]; [reflexivity|].
  cbn [List.length Nat.eqb]. cbv zeta. rewrite Hs. fold tokenAddress.
  rewrite (find_m_total _ (swaps_from tokenAddress)).
  2:{ eapply Forall_impl; [|exact Hq]. intros x Hx. now apply policy_on_swap_quote. }
  destruct (find (swaps_from tokenAddress) (r0 :: reqs)); reflexivity.
Qed.

Lemma shown_quote_is_signed_witness :
  TipForm.selectedRequirement (Some example_accepts) (Some weth_token)
  = Ok (Client.selectRequirement Client.view_requirement Example.weth 2
          example_accepts).
Proof.
  apply (shown_quote_is_signed example_accepts weth_token 2).
  - discriminate.
  - apply Forall_cons; [|apply Forall_cons; [|apply Forall_nil]].
    + split; [left; reflexivity|]. split; [reflexivity|exact I].
    + split; [right; reflexivity|]. split; [reflexivity|]. intros _. reflexivity.
Defined.

Lemma or_default_not_empty o d : d <> EmptyString -> or_default o d <> EmptyString.
Proof.
  intros Hd. unfold or_default, str_truthy.
  destruct o as [s|]; [|exact Hd].
  destruct (String.eqb s "") eqn:E; cbn [negb]; [exact Hd|].
  intros H. subst s. discriminate E.
Qed.

Lemma truthy_not_empty s : s <> EmptyString -> str_truthy s = true.
Proof.
  intros H. unfold str_truthy. destruct (String.eqb s "") eqn:E; [|reflexivity].
  apply String.eqb_eq in E. contradiction.
Qed.

Lemma error_result_read reason code :
  Client.readResult (Route.payment_response (Route.error_result reason) code)
  = Some (Route.error_result reason).
Proof. rewrite mirrored_readResult. now apply header_round_trip. Qed.

Lemma error_result_shown amount reason :
  reason <> EmptyString ->
  TipForm.after_payment amount (Ok (Route.error_result reason))
  = TipForm.SetError (VStr reason).
Proof.
  intros H. unfold TipForm.after_payment, Route.error_result.
  cbn [get_opt lookup String.eqb Ascii.eqb Bool.eqb truthy andb].
  now rewrite (truthy_not_empty _ H).
Qed.

Lemma gt_zero_accepted amount :
  Hooks.gt_zero (parseFloat amount) = amount_accepted amount.
Proof.
  unfold amount_accepted. destruct (parseFloat amount) as [|neg|neg m e]; cbn;
    try reflexivity. now rewrite negb_orb.
Qed.

(** X20.  what the form reports.  Whatever the route answers to a submission,
    the client can read it, and the form reports success, with the
    transaction hash, exactly when the route answered 200 and the
    settlement carries a non-empty hash.  A settlement without a hash and
    the 400 of a malformed payload are both reported as [Payment failed];
    every 402 and 500 is reported with the route's own [errorReason]. *)
Theorem form_reports_the_settlement
    env to amount network recipientAddress paymentSignature st :
  exists evs resp v,
    Route.handlePaymentSubmission env to amount network recipientAddress
      paymentSignature st = (Ok resp, add_events st evs)
    /\ Client.readResult resp = Some v
    /\ ((exists sr tx,
           resp = Route.payment_response
                    (Route.successResponse to amount network recipientAddress sr) 200
           /\ settle_transaction sr = Some tx /\ tx <> EmptyString
           /\ TipForm.after_payment amount (Ok v) = TipForm.OnSuccess (VStr tx) amount)
        \/ (exists sr,
              resp = Route.payment_response
                       (Route.successResponse to amount network recipientAddress sr) 200
              /\ or_default (settle_transaction sr) "" = ""
              /\ TipForm.after_payment amount (Ok v)
                 = TipForm.SetError (VStr "Payment failed"))
        \/ (Route.status resp = 400
            /\ TipForm.after_payment amount (Ok v)
               = TipForm.SetError (VStr "Payment failed"))
        \/ (exists reason,
              (Route.status resp = 402 \/ Route.status resp = 500)
              /\ reason <> EmptyString
              /\ v = Route.error_result reason
              /\ TipForm.after_payment amount (Ok v) = TipForm.SetError (VStr reason))).
Proof.
  destruct (submission_run env to amount network recipientAddress paymentSignature st)
    as (evs & resp & Hrun & Hshape).
  exists evs, resp.
  assert (Herr : forall reason code,
            resp = Route.payment_response (Route.error_result reason) code ->
            code = 402 \/ code = 500 ->
            reason <> EmptyString ->
            exists v,
              Route.handlePaymentSubmission env to amount network recipientAddress
                paymentSignature st = (Ok resp, add_events st evs)
              /\ Client.readResult resp = Some v
              /\ ((exists sr tx,
                     resp = Route.payment_response
                              (Route.successResponse to amount network
                                 recipientAddress sr) 200
                     /\ settle_transaction sr = Some tx /\ tx <> EmptyString
                     /\ TipForm.after_payment amount (Ok v)
                        = TipForm.OnSuccess (VStr tx) amount)
                  \/ (exists sr,
                        resp = Route.payment_response
                                 (Route.successResponse to amount network
                                    recipientAddress sr) 200
                        /\ or_default (settle_transaction sr) "" = ""
                        /\ TipForm.after_payment amount (Ok v)
                           = TipForm.SetError (VStr "Payment failed"))
                  \/ (Route.status resp = 400
                      /\ TipForm.after_payment amount (Ok v)
                         = TipForm.SetError (VStr "Payment failed"))
                  \/ (exists reason,
                        (Route.status resp = 402 \/ Route.status resp = 500)
                        /\ reason <> EmptyString
                        /\ v = Route.error_result reason
                        /\ TipForm.after_payment amount (Ok v)
                           = TipForm.SetError (VStr reason)))).
  { intros reason code -> Hcode Hne. exists (Route.error_result reason).
    split; [exact Hrun|]. split; [apply error_result_read|].
    right. right. right. exists reason. split; [exact Hcode|].
    split; [exact Hne|]. split; [reflexivity|]. now apply error_result_shown. }
  assert (Hint : forall e,
            resp = internal_error e ->
            exists reason,
              resp = Route.payment_response (Route.error_result reason) 500
              /\ reason <> EmptyString).
  { intros e ->. eexists. split; [reflexivity|discriminate]. }
  inversion Hshape; subst.
  - destruct (Hint _ eq_refl) as (reason & Hr & Hne). eapply Herr; eauto.
  - destruct (Hint _ eq_refl) as (reason & Hr & Hne). eapply Herr; eauto.
  - (* the malformed payload *)
    eexists. split; [exact Hrun|]. split.
    + unfold Client.readResult. cbn [Route.headers Route.NextResponse_json
        Route.get_header Route.present Route.body].
      apply parse_stringify. reflexivity.
    + right. right. left. split; reflexivity.
  - destruct (Hint _ eq_refl) as (reason & Hr & Hne). eapply Herr; eauto.
  - destruct (Hint _ eq_refl) as (reason & Hr & Hne). eapply Herr; eauto.
  - destruct (Hint _ eq_refl) as (reason & Hr & Hne). eapply Herr; eauto.
  - (* verification failed *)
    eapply Herr; [reflexivity|left; reflexivity|].
    apply or_default_not_empty; discriminate.
  - destruct (Hint _ eq_refl) as (reason & Hr & Hne). eapply Herr; eauto.
  - (* settlement failed *)
    eapply Herr; [reflexivity|left; reflexivity|].
    apply or_default_not_empty; discriminate.
  - (* the receipt *)
    eexists. split; [exact Hrun|]. split.
    + rewrite mirrored_readResult. apply object_round_trip.
      destruct (settle_transaction sr); reflexivity.
    + destruct (settle_transaction sr) as [tx|] eqn:Htx.
      * destruct (String.eqb tx "") eqn:E.
        -- apply String.eqb_eq in E. subst tx.
           right. left. exists sr. rewrite Htx. repeat split; reflexivity.
        -- left. exists sr, tx. split; [reflexivity|]. split; [exact Htx|].
           split; [intros ->; discriminate E|].
           unfold TipForm.after_payment, Route.successResponse.
           cbn [Route.opt_value written get_opt lookup String.eqb Ascii.eqb Bool.eqb
                truthy andb]. unfold str_truthy. now rewrite E.
      * right. left. exists sr. rewrite Htx. repeat split; reflexivity.
Qed.

(** X21.  a query the form enables is well formed.  When the form enables the
    requirements query, the request the hook sends has a recipient (if the
    form has one), an amount that the route accepts as a positive number,
    and a network: the route answers it neither
    [Missing required parameters] nor [Invalid amount]. *)
Theorem enabled_query_is_well_formed env network amount recipient st :
  TipForm.requirements_enabled network amount = true ->
  recipient <> EmptyString ->
  exists n,
    network = Some n
    /\ Hooks.query_enabled true recipient amount n = true
    /\ well_formed (hook_request recipient amount n) recipient amount
    /\ fst (Route.GET env (hook_request recipient amount n) st)
       <> Ok (Route.bad_request "Missing required parameters: to, amount")
    /\ fst (Route.GET env (hook_request recipient amount n) st)
       <> Ok (Route.bad_request "Invalid amount. Must be a positive number.").
Proof.
  unfold TipForm.requirements_enabled. intros He Hr.
  apply andb_true_iff in He. destruct He as [He Hgt].
  apply andb_true_iff in He. destruct He as [Hn Ha].
  destruct network as [n|]; [|discriminate Hn].
  rewrite gt_zero_accepted in Hgt.
  pose proof (truthy_not_empty _ Hr) as Hrt.
  exists n. split; [reflexivity|].
  split; [unfold Hooks.query_enabled; now rewrite Hrt, Ha, Hn|].
  assert (Hwf : well_formed (hook_request recipient amount n) recipient amount).
  { unfold well_formed, hook_request, Url.request, Route.present.
    rewrite tip_params_read. cbn. now rewrite Hrt, Ha. }
  split; [exact Hwf|].
  destruct Hwf as (Hto & Ham & Hok).
  destruct (GET_cases env (hook_request recipient amount n) st)
    as [([H|H] & _)|(to' & amount' & Hto' & Ham' & [(Hno & _)|(_ & r & levs & Hres & Hlevs & H)])];
    try congruence.
  assert (to' = recipient) by congruence. assert (amount' = amount) by congruence.
  subst to' amount'.
  destruct H as [(_ & H)|(recipientAddress & _ & H)].
  { rewrite H. cbn [fst]. split; intros E; inversion E. }
  rewrite H.
  destruct (after_resolution_run env (hook_request recipient amount n) recipient amount
              recipientAddress (add_events st levs))
    as [(_ & e & _ & H')|(nets & sevs & resp & created & evs & _ & H' & Hwhat)];
    rewrite H'; cbn [fst]; [split; discriminate|].
  destruct Hwhat as [(_ & _ & [(_ & ->)|(network & _ & [->| ->])])
                    |(network & _ & [(_ & _ & ex & es & -> & _)
                                    |(sig & Hsig & _)])];
    try solve [split; intros E; inversion E].
  - destruct (challenge_answer_status recipient amount network ex es)
      as [(_ & Hans)|(_ & Hans)]; rewrite Hans; split; intros E; inversion E.
  - unfold hook_request in Hsig. discriminate Hsig.
Qed.

Lemma enabled_query_is_well_formed_witness :
  exists n,
    Some Example.base = Some n
    /\ well_formed (hook_request Example.alice "1.00" n) Example.alice "1.00".
Proof.
  destruct (enabled_query_is_well_formed Example.env (Some Example.base) "1.00"
              Example.alice initial) as (n & Hn & _ & Hwf & _).
  - reflexivity.
  - discriminate.
  - exists n. split; [exact Hn|exact Hwf].
Defined.

Section NameLookups.
Variable env : Env.
Variable getEnsText : list event -> string -> string -> outcome (option string).
Variable getEnsAvatar : list event -> string -> outcome (option string).

Lemma avatar_run (lookup : M (option string)) st :
  (forall st0, snd (lookup st0) = st0) ->
  exists avatar, Names.avatar_of lookup st = (Ok avatar, st).
Proof.
  intros Hl. unfold Names.avatar_of, try_catch.
  pose proof (Hl st) as H. destruct (lookup st) as [[a|e] st']; cbn in H; subst st';
    unfold ret; eauto.
Qed.

Lemma textAvatar_run name st :
  exists avatar, Names.textAvatar env getEnsText name st = (Ok avatar, st).
Proof.
  apply avatar_run. intros st0. unfold bind, lift, Names.ask.
  destruct (normalize env name); reflexivity.
Qed.

Lemma ensAvatar_run name st :
  exists avatar, Names.ensAvatar env getEnsAvatar name st = (Ok avatar, st).
Proof.
  apply avatar_run. intros st0. unfold bind, lift, Names.ask.
  destruct (normalize env name); reflexivity.
Qed.

(** A lookup with avatar finds the address that [lookupName] finds, with
    the same call. *)
Lemma suffixed_as_lookup (avatarLookup : string -> M (option string)) name st :
  (forall n st0, exists avatar, avatarLookup n st0 = (Ok avatar, st0)) ->
  exists m res st',
    Names.suffixed env avatarLookup name st = (Ok m, st')
    /\ Ens.lookupName env name st = (Ok res, st')
    /\ Names.meta_address m = res
    /\ Names.meta_name m = name.
Proof.
  intros Hav. unfold Names.suffixed, Ens.lookupName, try_catch, bind, lift.
  destruct (normalize env name) as [n|e].
  2:{ eexists _, _, _. repeat split. }
  rewrite !call_run.
  destruct (getEnsAddress env (trace st) n) as [[a|]|e].
  - unfold Route.present at 1. destruct (str_truthy a) eqn:Ha.
    + destruct (Hav name (add_events st [EnsAddress n])) as (avatar & ->).
      eexists _, _, _. repeat split.
    + eexists _, _, _. repeat split.
  - eexists _, _, _. repeat split.
  - eexists _, _, _. repeat split.
Qed.

Lemma resolveWith_as_lookup (avatarLookup : string -> M (option string)) name st :
  (forall n st0, exists avatar, avatarLookup n st0 = (Ok avatar, st0)) ->
  exists f res st',
    Names.resolveWith env avatarLookup name st = (Ok f, st')
    /\ Ens.lookupName env name st = (Ok res, st')
    /\ Names.found_address f = res.
Proof.
  intros Hav. unfold Names.resolveWith, Ens.lookupName, try_catch, bind, lift.
  destruct (normalize env name) as [n|e].
  2:{ eexists _, _, _. repeat split. }
  rewrite !call_run.
  destruct (getEnsAddress env (trace st) n) as [[a|]|e].
  - unfold Route.present at 1. destruct (str_truthy a) eqn:Ha.
    + destruct (Hav name (add_events st [EnsAddress n])) as (avatar & ->).
      eexists _, _, _. repeat split.
    + eexists _, _, _. repeat split.
  - eexists _, _, _. repeat split.
  - eexists _, _, _. repeat split.
Qed.

(** X22.  names with metadata resolve as the route resolves them.  For a name
    that is not an address, [resolveNameWithMetadata] never throws, makes
    the same name-service call as the route's [resolveRecipient], and finds
    an address exactly when the route does, the same one; a failing avatar
    lookup changes nothing of this.  The name it returns is the name given,
    or, for a bare label that was found, the label completed with
    [.base.eth]. *)
Theorem metadata_resolves_as_route name st :
  isAddress env name = false ->
  exists m res st',
    Names.resolveNameWithMetadata env getEnsText getEnsAvatar name st = (Ok m, st')
    /\ Ens.resolveRecipient env name st = (Ok res, st')
    /\ Route.present (Names.meta_address m) = Route.present res
    /\ (Names.meta_name m = name
        \/ (Names.meta_name m = (name ++ ".base.eth")%string
            /\ Route.present res <> None)).
Proof.
  intros Ha. unfold Names.resolveNameWithMetadata, Ens.resolveRecipient. rewrite Ha.
  assert (Hbranch : forall avatarLookup,
            (forall n st0, exists avatar, avatarLookup n st0 = (Ok avatar, st0)) ->
            exists m res st',
              Names.suffixed env avatarLookup name st = (Ok m, st')
              /\ Ens.lookupName env name st = (Ok res, st')
              /\ Route.present (Names.meta_address m) = Route.present res
              /\ (Names.meta_name m = name
                  \/ (Names.meta_name m = (name ++ ".base.eth")%string
                      /\ Route.present res <> None))).
  { intros avatarLookup Hav.
    destruct (suffixed_as_lookup avatarLookup name st Hav)
      as (m & res & st' & H1 & H2 & H3 & H4).
    exists m, res, st'. rewrite H3. auto. }
  destruct (endsWith name ".base.eth");
    [apply Hbranch; intros; apply textAvatar_run|].
  destruct (endsWith name ".eth");
    [apply Hbranch; intros; apply ensAvatar_run|].
  destruct (matches_label name && Nat.leb 3 (String.length name))%bool.
  2:{ eexists _, _, _. repeat split. left. reflexivity. }
  destruct (suffixed_as_lookup (Names.textAvatar env getEnsText)
              (name ++ ".base.eth")%string st)
    as (m & res & st' & H1 & H2 & H3 & H4); [intros; apply textAvatar_run|].
  unfold bind. rewrite H1, H2, H3.
  destruct (Route.present res) as [a|] eqn:Hp.
  - exists m, res, st'. unfold ret. rewrite H3, Hp.
    repeat split. right. split; [exact H4|discriminate].
  - eexists _, res, st'. unfold ret. rewrite Hp. repeat split. left. reflexivity.
Qed.

Section PageResolver.
Variable decodeURIComponent : string -> outcome string.

(** X23.  the page resolves as the route resolves.  The tip page decodes its
    path segment and resolves it; it never throws once the segment is
    decoded, it makes the same name-service call as the route's
    [resolveRecipient] on the decoded text, and it shows the tip form
    exactly for the recipients that the route resolves, with the address the
    route will pay. *)
Theorem page_resolves_as_route recipient decoded st :
  decodeURIComponent recipient = Ok decoded ->
  exists r res st',
    Names.resolveRecipient env getEnsText getEnsAvatar decodeURIComponent recipient st
    = (Ok r, st')
    /\ Ens.resolveRecipient env decoded st = (Ok res, st')
    /\ Route.present (Names.address r) = Route.present res
    /\ (Names.shows_form r = true <-> Route.present res <> None).
Proof.
  intros Hd. unfold Names.resolveRecipient, Ens.resolveRecipient.
  unfold bind at 1. unfold lift at 1. rewrite Hd.
  assert (Hshow : forall o : option string,
            match Route.present o with Some _ => true | None => false end = true
            <-> Route.present o <> None).
  { intros o. destruct (Route.present o); split; intros H;
      first [reflexivity | discriminate H | now contradiction H | discriminate]. }
  destruct (isAddress env decoded).
  { eexists _, _, _. split; [reflexivity|]. split; [reflexivity|].
    split; [reflexivity|]. unfold Names.shows_form. cbn [Names.error Names.address].
    change (Route.present None) with (@None string). cbv iota. apply Hshow. }
  assert (Hbranch : forall avatarLookup name ens err,
            err <> EmptyString ->
            (forall n st0, exists avatar, avatarLookup n st0 = (Ok avatar, st0)) ->
            exists r res st',
              (found <- Names.resolveWith env avatarLookup name ;;
               match Route.present (Names.found_address found) with
               | None =>
                   ret {| Names.address := None; Names.ensName := ens;
                          Names.ensAvatar_of := None; Names.error := Some err |}
               | Some a =>
                   ret {| Names.address := Some a; Names.ensName := Some name;
                          Names.ensAvatar_of := Names.found_avatar found;
                          Names.error := None |}
               end) st = (Ok r, st')
              /\ Ens.lookupName env name st = (Ok res, st')
              /\ Route.present (Names.address r) = Route.present res
              /\ (Names.shows_form r = true <-> Route.present res <> None)).
  { intros avatarLookup name ens err Herr Hav.
    destruct (resolveWith_as_lookup avatarLookup name st Hav)
      as (f & res & st' & H1 & H2 & H3).
    unfold bind. rewrite H1, H3.
    destruct (Route.present res) as [a|] eqn:Hp.
    - assert (Ha : Route.present (Some a) = Some a).
      { unfold Route.present in *. destruct res as [x|]; [|discriminate].
        destruct (str_truthy x) eqn:Hx; [|discriminate].
        inversion Hp; subst. now rewrite Hx. }
      eexists _, res, st'. split; [reflexivity|]. split; [exact H2|].
      unfold Names.shows_form. cbn [Names.address Names.error].
      change (Route.present None) with (@None string). cbv iota.
      rewrite Ha, Hp. split; [reflexivity|]. split; [discriminate|reflexivity].
    - eexists _, res, st'. split; [reflexivity|]. split; [exact H2|].
      unfold Names.shows_form. cbn [Names.address Names.error]. rewrite Hp.
      split; [reflexivity|].
      destruct (Route.present (Some err)); split; try discriminate;
        intros H; now contradiction H. }
  destruct (endsWith decoded ".base.eth").
  { apply Hbranch; [discriminate|intros; apply textAvatar_run]. }
  destruct (endsWith decoded ".eth").
  { apply Hbranch; [discriminate|intros; apply ensAvatar_run]. }
  cbv zeta.
  destruct (matches_label decoded && Nat.leb 3 (String.length decoded))%bool.
  - destruct (Hbranch (Names.textAvatar env getEnsText) (decoded ++ ".base.eth")%string
                None "Invalid address or name")
      as (r & res & st' & H1 & H2 & H3 & H4);
      [discriminate|intros; apply textAvatar_run|].
    exists r, res, st'. split; [|auto].
    rewrite <- H1. unfold bind, Names.resolveBasename.
    destruct (Names.resolveWith env _ _ st) as [[f|e] st1]; [|reflexivity].
    destruct (Route.present (Names.found_address f)); reflexivity.
  - eexists _, _, _. split; [reflexivity|]. split; [reflexivity|].
    split; [reflexivity|]. unfold Names.shows_form. cbn.
    split; [discriminate|intros H; now contradiction H].
Qed.

End PageResolver.
End NameLookups.

Lemma metadata_resolves_as_route_witness :
  exists m res st',
    Names.resolveNameWithMetadata Example.env (fun _ _ _ => Ok None)
      (fun _ _ => Throw (Error "no avatar")) "alice.eth" initial = (Ok m, st')
    /\ Ens.resolveRecipient Example.env "alice.eth" initial = (Ok res, st')
    /\ Route.present (Names.meta_address m) = Route.present res.
Proof.
  destruct (metadata_resolves_as_route Example.env (fun _ _ _ => Ok None)
              (fun _ _ => Throw (Error "no avatar")) "alice.eth" initial eq_refl)
    as (m & res & st' & H1 & H2 & H3 & _).
  exists m, res, st'. auto.
Defined.

Lemma page_resolves_as_route_witness :
  exists r res st',
    Names.resolveRecipient Example.env (fun _ _ _ => Ok None)
      (fun _ _ => Throw (Error "no avatar")) (fun s => Ok s) "alice.eth" initial
    = (Ok r, st')
    /\ Ens.resolveRecipient Example.env "alice.eth" initial = (Ok res, st')
    /\ (Names.shows_form r = true <-> Route.present res <> None).
Proof.
  destruct (page_resolves_as_route Example.env (fun _ _ _ => Ok None)
              (fun _ _ => Throw (Error "no avatar")) (fun s => Ok s)
              "alice.eth" "alice.eth" initial eq_refl)
    as (r & res & st' & H1 & H2 & _ & H4).
  exists r, res, st'. auto.
Defined.

Lemma upsert_keys k m :
  map fst (Supported.upsert k m) = X402.set_add (map fst m) (kind_network k).
Proof.
  induction m as [|[n entry] r IH]; [reflexivity|].
  cbn [Supported.upsert map fst]. unfold X402.set_add in *. cbn [existsb].
  rewrite (String.eqb_sym (kind_network k) n).
  destruct (String.eqb n (kind_network k)); cbn [orb map fst]; [reflexivity|].
  rewrite IH. destruct (existsb _ (map fst r)); reflexivity.
Qed.

Lemma group_keys kinds :
  map fst (Supported.group kinds) = X402.networks_of kinds.
Proof.
  unfold Supported.group, X402.networks_of.
  change (@nil string) with (map fst (@nil (string * Supported.Entry))).
  generalize (@nil (string * Supported.Entry)) as m.
  induction kinds as [|k kinds IH]; intros m; cbn [fold_left]; [reflexivity|].
  rewrite IH. f_equal. unfold X402.is_tip_scheme.
  destruct (String.eqb (kind_scheme k) "exact"),
           (String.eqb (kind_scheme k) "escrow"); cbn [negb andb orb];
    try reflexivity; apply upsert_keys.
Qed.

Lemma get_upsert n k m :
  get_entry n (Supported.upsert k m)
  = if String.eqb n (kind_network k)
    then Some (Supported.record_kind k
                 (match get_entry (kind_network k) m with
                  | Some e => e
                  | None => Supported.empty_entry
                  end))
    else get_entry n m.
Proof.
  induction m as [|[n0 e] r IH].
  - cbn [Supported.upsert get_entry]. rewrite (String.eqb_sym n).
    destruct (String.eqb (kind_network k) n); reflexivity.
  - cbn [Supported.upsert get_entry].
    destruct (String.eqb_spec n0 (kind_network k)) as [E0|N0].
    + subst n0. cbn [get_entry]. rewrite (String.eqb_sym n).
      destruct (String.eqb (kind_network k) n); reflexivity.
    + cbn [get_entry]. rewrite IH.
      destruct (String.eqb_spec n0 n) as [E1|N1].
      * subst n0. apply String.eqb_neq in N0. now rewrite N0.
      * reflexivity.
Qed.

Lemma group_snoc ks k :
  Supported.group (ks ++ [k])
  = if X402.is_tip_scheme k then Supported.upsert k (Supported.group ks)
    else Supported.group ks.
Proof.
  unfold Supported.group. rewrite fold_left_app. cbn [fold_left].
  unfold X402.is_tip_scheme.
  destruct (String.eqb (kind_scheme k) "exact"),
           (String.eqb (kind_scheme k) "escrow"); reflexivity.
Qed.

Lemma last_kind_snoc scheme n ks k :
  last_kind scheme n (ks ++ [k])
  = if (String.eqb (kind_scheme k) scheme && String.eqb (kind_network k) n)%bool
    then Some k else last_kind scheme n ks.
Proof. unfold last_kind. rewrite rev_app_distr. reflexivity. Qed.

Lemma listed_snoc n ks k :
  listed n (ks ++ [k])
  = (listed n ks || (X402.is_tip_scheme k && String.eqb (kind_network k) n))%bool.
Proof. unfold listed. rewrite existsb_app. cbn [existsb]. now rewrite orb_false_r. Qed.

Lemma unlisted_has_no_kind scheme n kinds :
  scheme = "exact" \/ scheme = "escrow" ->
  listed n kinds = false -> last_kind scheme n kinds = None.
Proof.
  intros Hs Hl. unfold last_kind.
  destruct (find _ (rev kinds)) as [k|] eqn:F; [|reflexivity].
  apply find_some in F. destruct F as (Hin & Hk).
  apply in_rev in Hin. apply andb_true_iff in Hk. destruct Hk as (Hsch & Hn).
  assert (listed n kinds = true); [|congruence].
  apply existsb_exists. exists k. split; [exact Hin|].
  rewrite Hn, andb_true_r. unfold X402.is_tip_scheme.
  apply String.eqb_eq in Hsch. rewrite Hsch.
  destruct Hs as [-> | ->]; reflexivity.
Qed.

Lemma group_entry kinds n :
  get_entry n (Supported.group kinds)
  = if listed n kinds then Some (entry_of n kinds) else None.
Proof.
  induction kinds as [|k ks IH] using rev_ind; [reflexivity|].
  rewrite group_snoc, listed_snoc. unfold entry_of. rewrite !last_kind_snoc.
  unfold X402.is_tip_scheme.
  destruct (String.eqb_spec (kind_scheme k) "exact") as [Ex|Nx];
    [|destruct (String.eqb_spec (kind_scheme k) "escrow") as [Es|Ns]].
  - (* an exact kind *)
    cbn [orb andb]. rewrite get_upsert, (String.eqb_sym n).
    destruct (String.eqb_spec (kind_network k) n) as [En|Nn].
    + subst n. rewrite orb_true_r, IH.
      unfold Supported.record_kind. rewrite Ex. cbn [String.eqb Ascii.eqb Bool.eqb andb].
      destruct (listed (kind_network k) ks) eqn:L; cbn [option_map]; [reflexivity|].
      rewrite (unlisted_has_no_kind "escrow" _ _ (or_intror eq_refl) L). reflexivity.
    + rewrite orb_false_r, IH, ?andb_false_r. reflexivity.
  - (* an escrow kind *)
    cbn [orb andb]. rewrite get_upsert, (String.eqb_sym n).
    destruct (String.eqb_spec (kind_network k) n) as [En|Nn].
    + subst n. rewrite orb_true_r, IH.
      unfold Supported.record_kind. rewrite Es. cbn [String.eqb Ascii.eqb Bool.eqb andb].
      destruct (listed (kind_network k) ks) eqn:L; cbn [option_map]; [reflexivity|].
      rewrite (unlisted_has_no_kind "exact" _ _ (or_introl eq_refl) L). reflexivity.
    + rewrite orb_false_r, IH, ?andb_false_r. reflexivity.
  - (* another scheme *)
    cbn [orb andb]. rewrite orb_false_r. exact IH.
Qed.

Lemma network_entry m n entry :
  NoDup (map fst m) -> In (n, entry) m -> get_entry n m = Some entry.
Proof.
  induction m as [|[n0 e] r IH]; [intros _ []|].
  cbn [map fst get_entry]. intros Hnd [E|Hin].
  - inversion E; subst. now rewrite String.eqb_refl.
  - inversion Hnd as [|? ? Hnot Hr]; subst.
    destruct (String.eqb_spec n0 n) as [E|N]; [|now apply IH].
    subst n0. exfalso. apply Hnot. apply in_map_iff. exists (n, entry). auto.
Qed.

Lemma networks_NoDup kinds : NoDup (X402.networks_of kinds).
Proof.
  destruct (networks_fold kinds []) as (Hnd & _). apply Hnd. constructor.
Qed.

Lemma grouped_entry kinds n entry :
  In (n, entry) (Supported.group kinds) -> entry = entry_of n kinds.
Proof.
  intros Hin.
  assert (H : get_entry n (Supported.group kinds) = Some entry).
  { apply network_entry; [|exact Hin]. rewrite group_keys. apply networks_NoDup. }
  rewrite group_entry in H. destruct (listed n kinds); congruence.
Qed.

Lemma is_asset_address asset t b :
  Supported.is_asset asset t = Ok b -> (b = true <-> has_address asset t).
Proof.
  unfold Supported.is_asset, has_address.
  destruct t as [| |x|m e|s|items|props]; try discriminate;
    cbn [get_opt]; try discriminate.
  destruct (lookup "address" props) as [| |x|m e|a|items|ps] eqn:L; try discriminate.
  intros E. inversion E; subst. split.
  - intros H. exists a. split; [reflexivity|now apply String.eqb_eq].
  - intros (a' & Ha & Hl). inversion Ha; subst. now apply String.eqb_eq.
Qed.

Lemma some_asset asset items b :
  Supported.some_m (Supported.is_asset asset) items = Ok b ->
  if b then Exists (has_address asset) items
  else Forall (fun t => ~ has_address asset t) items.
Proof.
  induction items as [|t r IH]; cbn [Supported.some_m].
  - intros E. inversion E. constructor.
  - destruct (Supported.is_asset asset t) as [[|]|e] eqn:Ht; [| |discriminate].
    + intros E. inversion E. apply Exists_cons_hd.
      now apply (is_asset_address _ _ _ Ht).
    + intros E. specialize (IH E). destruct b.
      * now apply Exists_cons_tl.
      * constructor; [|exact IH]. intros H.
        apply (is_asset_address _ _ _ Ht) in H. discriminate.
Qed.

Lemma usdc_has_address asset : has_address asset (Supported.usdc_token asset).
Proof. exists asset. split; reflexivity. Qed.

Section Listing.
Variable env : Env.
Variable Number : Type.
Variable parseInt : option string -> Number.
Variable chainName : Number -> option string.
Variable numberText : Number -> string.
Variable numberJson : Number -> value.
Variable characters : string -> list value.
Variable notIterable : value -> error.

Lemma configs_networks m : forall configs,
  Supported.configs_of Number parseInt chainName numberText characters notIterable m
  = Ok configs ->
  map (Supported.network Number) configs = map fst m.
Proof.
  induction m as [|[n entry] r IH]; intros configs; cbn [Supported.configs_of].
  - intros E. inversion E. reflexivity.
  - unfold Supported.config_of.
    destruct (Supported.input_tokens characters notIterable entry) as [tokens|e];
      [|discriminate].
    destruct (Supported.configs_of Number parseInt chainName numberText characters
                notIterable r) as [cs|e]; [|discriminate].
    intros E. inversion E; subst. cbn [map fst Supported.network].
    now rewrite (IH cs eq_refl).
Qed.

Lemma configs_entries m : forall configs c,
  Supported.configs_of Number parseInt chainName numberText characters notIterable m
  = Ok configs ->
  In c configs ->
  exists entry,
    In (Supported.network Number c, entry) m
    /\ Supported.input_tokens characters notIterable entry
       = Ok (Supported.supportedInputTokens Number c)
    /\ Supported.settlementTokens Number c = Supported.settlement_tokens entry.
Proof.
  induction m as [|[n entry] r IH]; intros configs c; cbn [Supported.configs_of].
  - intros E. inversion E. intros [].
  - unfold Supported.config_of.
    destruct (Supported.input_tokens characters notIterable entry) as [tokens|e] eqn:Ht;
      [|discriminate].
    destruct (Supported.configs_of Number parseInt chainName numberText characters
                notIterable r) as [cs|e] eqn:Hr; [|discriminate].
    intros E. inversion E; subst. intros [<-|Hin].
    + exists entry. cbn. split; [now left|]. split; [exact Ht|reflexivity].
    + destruct (IH cs c eq_refl Hin) as (en & Hen & Htok).
      exists en. split; [now right|exact Htok].
Qed.

Lemma listing_run st :
  Supported.getNetworkConfigs env Number parseInt chainName numberText characters
    notIterable None st
  = match getSupported env (trace st) with
    | Ok kinds =>
        (Supported.configs_of Number parseInt chainName numberText characters
           notIterable (Supported.group kinds),
         Some kinds, add_events st [GetSupported])
    | Throw e => (Throw e, None, add_events st [GetSupported])
    end.
Proof.
  unfold Supported.getNetworkConfigs, Supported.getSupportedData, bind.
  unfold X402.facilitator_getSupported. rewrite call_run.
  destruct (getSupported env (trace st)); reflexivity.
Qed.

(** X24.  the listing and the validation agree.  Asked in the same state,
    with nothing stored, [getNetworkConfigs] asks the facilitator once and
    stores its answer; when it returns, its configurations name exactly the
    networks that [getSupportedNetworks] returns, which are those the tip
    route accepts, in the same order and once each.  With the answer stored
    it returns the same without asking. *)
Theorem listing_agrees_with_validation st kinds :
  supportedNetworks_cache st = None ->
  getSupported env (trace st) = Ok kinds ->
  exists out,
    Supported.getNetworkConfigs env Number parseInt chainName numberText characters
      notIterable None st
    = (out, Some kinds, add_events st [GetSupported])
    /\ (forall st2,
          Supported.getNetworkConfigs env Number parseInt chainName numberText
            characters notIterable (Some kinds) st2
          = (out, Some kinds, st2))
    /\ forall configs,
         out = Ok configs ->
         NoDup (map (Supported.network Number) configs)
         /\ exists st1,
              X402.getSupportedNetworks env st
              = (Ok (map (Supported.network Number) configs), st1).
Proof.
  intros Hc Hs. eexists. split; [|split].
  - rewrite listing_run, Hs. reflexivity.
  - intros st2. reflexivity.
  - intros configs Hout. apply configs_networks in Hout. rewrite group_keys in Hout.
    rewrite Hout. split; [apply networks_NoDup|].
    eexists. unfold X402.getSupportedNetworks, bind, get_state. rewrite Hc.
    unfold X402.facilitator_getSupported. rewrite call_run, Hs. reflexivity.
Qed.

(** X25.  the tokens of a listed network.  When [getNetworkConfigs] returns,
    the input tokens of each network are those of the last [escrow] kind
    the facilitator lists for it (none if there is no such kind), in their
    order.  If the last [exact] kind of the network names an asset, a token
    with that address is always among them: when no escrow token has the
    address, compared without regard to case, a USDC token with 6 decimals
    is put in front, and otherwise nothing is added.  Earlier kinds of the
    same scheme and network are overridden. *)
Theorem listed_tokens kinds configs :
  Supported.configs_of Number parseInt chainName numberText characters notIterable
    (Supported.group kinds) = Ok configs ->
  forall c, In c configs ->
    let n := Supported.network Number c in
    let tokens := Supported.supportedInputTokens Number c in
    exists items,
      Supported.spread_tokens characters notIterable
        (option_map kind_extra (last_kind "escrow" n kinds)) = Ok items
      /\ match exact_asset n kinds with
         | Some asset =>
             Exists (has_address asset) tokens
             /\ ((Exists (has_address asset) items /\ tokens = items)
                 \/ (Forall (fun t => ~ has_address asset t) items
                     /\ tokens = Supported.usdc_token asset :: items))
         | None => tokens = items
         end.
Proof.
  intros Hok c Hin n tokens.
  destruct (configs_entries _ _ _ Hok Hin) as (entry & Hen & Htok & _).
  apply grouped_entry in Hen. fold n in Hen. fold tokens in Htok.
  unfold Supported.input_tokens in Htok. rewrite Hen in Htok.
  cbn [entry_of Supported.escrowExtra Supported.exactAsset] in Htok.
  destruct (Supported.spread_tokens characters notIterable
              (option_map kind_extra (last_kind "escrow" n kinds)))
    as [items|e]; [|discriminate].
  exists items. split; [reflexivity|].
  unfold exact_asset.
  destruct (last_kind "exact" n kinds) as [k|];
    [|cbn [Route.present] in Htok; congruence].
  destruct (Route.present (kind_asset k)) as [asset|]; [|congruence].
  destruct (Supported.some_m (Supported.is_asset asset) items) as [[|]|e] eqn:Hs;
    [| |discriminate]; apply some_asset in Hs; injection Htok as Ht; rewrite <- Ht.
  - split; [exact Hs|]. left. split; [exact Hs|reflexivity].
  - split; [apply Exists_cons_hd, usdc_has_address|].
    right. split; [exact Hs|reflexivity].
Qed.

(** X26.  the supported-networks route always answers.  [GET] of
    [/api/supported] answers 200 with the configurations and the
    [Cache-Control] header, or 500 with
    [Failed to fetch supported networks:] and the message of the error.
    When the facilitator cannot be reached nothing is stored and the next
    request asks again.  Once the facilitator has answered, its answer is
    stored, and every later request gets the same response without the
    facilitator being asked: also the 500 of a token list that could not
    be read. *)
Theorem supported_always_answers supportedData st :
  exists resp data evs,
    Supported.GET env Number parseInt chainName numberText numberJson characters
      notIterable supportedData st
    = (resp, data, add_events st evs)
    /\ ((exists configs,
           resp = Route.headers_set "Cache-Control"
                    "public, s-maxage=300, stale-while-revalidate=600"
                    (Route.NextResponse_json
                       (VObj [("networks",
                               VArr (map (Supported.config_value Number numberJson)
                                       configs))]) 200))
        \/ (exists e,
              resp = Route.NextResponse_json
                       (VObj [("error",
                               VStr ("Failed to fetch supported networks: "
                                     ++ error_message e))]) 500))
    /\ match supportedData with
       | Some kinds => data = Some kinds /\ evs = []
       | None =>
           evs = [GetSupported]
           /\ match getSupported env (trace st) with
              | Ok kinds => data = Some kinds
              | Throw e =>
                  data = None
                  /\ resp = Route.NextResponse_json
                              (VObj [("error",
                                      VStr ("Failed to fetch supported networks: "
                                            ++ error_message e))]) 500
              end
       end
    /\ (forall kinds st2,
          data = Some kinds ->
          Supported.GET env Number parseInt chainName numberText numberJson
            characters notIterable data st2
          = (resp, data, st2)).
Proof.
  unfold Supported.GET.
  destruct supportedData as [kinds|].
  - unfold Supported.getNetworkConfigs, Supported.getSupportedData, ret.
    destruct (Supported.configs_of Number parseInt chainName numberText characters
                notIterable (Supported.group kinds)) as [configs|e] eqn:Hc.
    + eexists _, _, []. rewrite add_events_nil. split; [reflexivity|].
      split; [left; eexists; reflexivity|]. split; [split; reflexivity|].
      intros kinds' st2 E. inversion E; subst. now rewrite Hc.
    + eexists _, _, []. rewrite add_events_nil. split; [reflexivity|].
      split; [right; eexists; reflexivity|]. split; [split; reflexivity|].
      intros kinds' st2 E. inversion E; subst. now rewrite Hc.
  - rewrite listing_run.
    destruct (getSupported env (trace st)) as [kinds|e].
    + destruct (Supported.configs_of Number parseInt chainName numberText characters
                  notIterable (Supported.group kinds)) as [configs|e] eqn:Hc.
      * eexists _, _, _. split; [reflexivity|].
        split; [left; eexists; reflexivity|]. split; [split; reflexivity|].
        intros kinds' st2 E. inversion E; subst.
        unfold Supported.getNetworkConfigs, Supported.getSupportedData, ret.
        now rewrite Hc.
      * eexists _, _, _. split; [reflexivity|].
        split; [right; eexists; reflexivity|]. split; [split; reflexivity|].
        intros kinds' st2 E. inversion E; subst.
        unfold Supported.getNetworkConfigs, Supported.getSupportedData, ret.
        now rewrite Hc.
    + eexists _, _, _. split; [reflexivity|].
      split; [right; eexists; reflexivity|].
      split; [split; [reflexivity|split; reflexivity]|].
      intros kinds' st2 E. discriminate E.
Qed.

End Listing.

Lemma listing_agrees_with_validation_witness :
  exists out,
    Supported.getNetworkConfigs Example.env Z (fun _ => 8453) (fun _ => Some "Base")
      (fun _ => "8453") (fun _ => []) (fun _ => Error "not iterable") None initial
    = (out, Some Example.kinds, add_events initial [GetSupported])
    /\ forall configs,
         out = Ok configs ->
         exists st1,
           X402.getSupportedNetworks Example.env initial
           = (Ok (map (Supported.network Z) configs), st1).
Proof.
  destruct (listing_agrees_with_validation Example.env Z (fun _ => 8453)
              (fun _ => Some "Base") (fun _ => "8453") (fun _ => [])
              (fun _ => Error "not iterable") initial Example.kinds eq_refl eq_refl)
    as (out & Hrun & _ & Hsame).
  exists out. split; [exact Hrun|].
  intros configs Hc. exact (proj2 (Hsame configs Hc)).
Defined.

Lemma listed_tokens_witness :
  exists c items,
    Supported.configs_of Z (fun _ => 8453) (fun _ => Some "Base") (fun _ => "8453")
      (fun _ => []) (fun _ => Error "not iterable") (Supported.group listing_kinds)
    = Ok [c]
    /\ items = [weth_value]
    /\ Supported.supportedInputTokens Z c = Supported.usdc_token Example.usdc :: items
    /\ Exists (has_address Example.usdc) (Supported.supportedInputTokens Z c).
Proof.
  set (c := {| Supported.network := Example.base;
               Supported.chainId := 8453;
               Supported.name := "Base";
               Supported.supportedInputTokens :=
                 [Supported.usdc_token Example.usdc; weth_value];
               Supported.settlementTokens := VArr [] |}).
  destruct (listed_tokens Z (fun _ => 8453) (fun _ => Some "Base") (fun _ => "8453")
              (fun _ => []) (fun _ => Error "not iterable") listing_kinds [c]
              eq_refl c (or_introl eq_refl)) as (items & Hs & Hex & _).
  exists c, items. split; [reflexivity|].
  injection Hs as Hs. subst items.
  split; [reflexivity|]. split; [reflexivity|exact Hex].
Defined.
